(** * Exchange Remover: a shallow embedding of the backend core

    The development follows the layout of the repository:

    - [Js]              the few pieces of the JavaScript runtime the code
                        relies on (truthiness, [Array.prototype.join],
                        [String.prototype.toLowerCase], a stable sort,
                        property lookup on an object literal);
    - [QueryBuilder]    [backend/src/utils/queryBuilder.js];
    - [ExchangeService] [backend/src/services/exchangeService.js];
    - [ExchangeRoutes]  [backend/src/routes/exchangeRoutes.js] together
                        with [backend/src/utils/logStore.js].

    Remote collaborators (the EWS endpoint, the child process, the file
    system) are not part of the repository.  They appear as oracles: records
    of functions over an abstract collaborator state, so that every theorem
    holds for every behaviour of the collaborator. *)

From stdpp Require Import base option list strings pretty gmap sorting.
From Stdlib Require Import ZArith Lia Ascii OrdersEx.

Local Open Scope Z_scope.

(* ===================================================================== *)
(** * JavaScript runtime fragments *)
(* ===================================================================== *)

Module Js.

(** The double quote and the backslash, by character code. *)
Definition dquote : ascii := "034"%char.
Definition backslash : ascii := "092"%char.

(** [Boolean(s)] for a value that is either [undefined] or a string. *)
Definition truthy (o : option string) : bool :=
  match o with
  | Some s => negb (String.eqb s EmptyString)
  | None => false
  end.

(** [Array.prototype.join] *)
Fixpoint join (sep : string) (l : list string) : string :=
  match l with
  | [] => EmptyString
  | x :: rest =>
      match rest with
      | [] => x
      | _ :: _ => x +:+ sep +:+ join sep rest
      end
  end.

(** [String.prototype.toLowerCase], on the ASCII range (strings are
    modelled as sequences of 8-bit characters; characters outside
    [A-Z] are left alone). *)
Definition lower_ascii (c : ascii) : ascii :=
  let n := nat_of_ascii c in
  if ((65 <=? n)%nat && (n <=? 90)%nat)%bool then ascii_of_nat (n + 32) else c.

Fixpoint toLowerCase (s : string) : string :=
  match s with
  | EmptyString => EmptyString
  | String c r => String (lower_ascii c) (toLowerCase r)
  end.

(** [s.split(sep)[0]] for a one-character separator. *)
Fixpoint split_head (sep : ascii) (s : string) : string :=
  match s with
  | EmptyString => EmptyString
  | String c r => if Ascii.eqb c sep then EmptyString else String c (split_head sep r)
  end.

(** [String(b)] for a boolean. *)
Definition string_of_bool (b : bool) : string := if b then "true" else "false".

(** The values that can come out of a property lookup on one of the
    constant tables of the service: [undefined], a number (the members of
    a TypeScript numeric enum are numbers), or an object or function
    reached through the prototype chain. *)
Inductive JsValue :=
| JsUndefined
| JsNumber (n : Z)
| JsInherited (name : string).

(** [Boolean(v)] *)
Definition is_truthy (v : JsValue) : bool :=
  match v with
  | JsUndefined => false
  | JsNumber n => negb (n =? 0)
  | JsInherited _ => true
  end.

(** The property names every object literal inherits from
    [Object.prototype]; each of them is bound to a function or an
    object. *)
Definition Object_prototype : list string :=
  [ "constructor"; "__proto__"; "hasOwnProperty"; "isPrototypeOf";
    "propertyIsEnumerable"; "toLocaleString"; "toString"; "valueOf";
    "__defineGetter__"; "__defineSetter__"; "__lookupGetter__";
    "__lookupSetter__" ].

(** [obj[key]] for an object literal [obj] with the given own properties:
    own properties first, then the prototype chain. *)
Definition get (own : gmap string JsValue) (key : string) : JsValue :=
  match own !! key with
  | Some v => v
  | None => if bool_decide (key ∈ Object_prototype) then JsInherited key else JsUndefined
  end.

(** A JavaScript number that is an integer or NaN ([None]); [+] with an
    operand that is [undefined] or NaN gives NaN. *)
Definition Num := option Z.
Definition add (a b : Num) : Num :=
  match a, b with
  | Some x, Some y => Some (x + y)
  | _, _ => None
  end.

(** [Array.prototype.sort(compare)].  ECMAScript requires the sort to be
    stable; for a consistent comparator this fixes the result, which is
    what the insertion sort below computes: an element goes before the
    first later element it does not compare greater than. *)
Section Sort.
Context {A : Type} (compare : A -> A -> Z).

Fixpoint insert_sorted (x : A) (l : list A) : list A :=
  match l with
  | [] => [x]
  | y :: rest => if compare x y <=? 0 then x :: y :: rest else y :: insert_sorted x rest
  end.

Fixpoint sort (l : list A) : list A :=
  match l with
  | [] => []
  | x :: rest => insert_sorted x (sort rest)
  end.
End Sort.

(** [[...new Set(l)]]: first occurrences, in insertion order. *)
Fixpoint unique (seen l : list string) : list string :=
  match l with
  | [] => []
  | x :: rest =>
      if bool_decide (x ∈ seen) then unique seen rest else x :: unique (x :: seen) rest
  end.

End Js.

(* ===================================================================== *)
(** * utils/queryBuilder.js *)
(* ===================================================================== *)

Module QueryBuilder.
Import Js.

Definition DEFAULT_QUERY : string := "kind:email".

(** [escapeValue]: every double quote gets a backslash in front. *)
Fixpoint escapeValue (value : string) : string :=
  match value with
  | EmptyString => EmptyString
  | String c r =>
      if Ascii.eqb c dquote
      then String backslash (String dquote (escapeValue r))
      else String c (escapeValue r)
  end.

Definition quoted (s : string) : string :=
  String dquote (escapeValue s) +:+ String dquote EmptyString.

(** A date as it reaches the query builder: the ISO string of the request
    body, or the [Date] object Joi converted it to ([None] is the invalid
    date, whose time value is NaN). *)
Inductive DateValue :=
| DateString (s : string)
| DateObject (time : option Z).

Record AqsFilter := {
  sender : option string;
  subject : option string;
  body : option string;
  keywords : option (list string);
  receivedFrom : option DateValue;
  receivedTo : option DateValue;
  hasAttachments : option bool;   (* [None]: typeof is not 'boolean' *)
  importance : option string
}.

Section WithDate.
(** The host's [Date]: parsing of a string to a time value (NaN is
    [None]) and [Date.prototype.toISOString] on a valid time value. *)
Variable Date_parse : string -> option Z.
Variable toISOString : Z -> string.

Definition date_truthy (v : option DateValue) : bool :=
  match v with
  | None => false
  | Some (DateString s) => negb (String.eqb s EmptyString)
  | Some (DateObject _) => true
  end.

Definition new_Date (v : DateValue) : option Z :=
  match v with
  | DateString s => Date_parse s
  | DateObject t => t
  end.

Definition toDatePart (value : option DateValue) : option string :=
  match value with
  | None => None
  | Some v =>
      if negb (date_truthy value) then None
      else match new_Date v with
           | None => None
           | Some t => Some (split_head "T"%char (toISOString t))
           end
  end.

(** [clauses.push(x)] under a guard. *)
Definition push_if (guard : bool) (x : string) (clauses : list string) : list string :=
  if guard then clauses ++ [x] else clauses.

Definition opt_str (o : option string) : string := default EmptyString o.

Definition keywordString (kws : option (list string)) : string :=
  match kws with
  | Some ks =>
      if negb (Nat.eqb (length ks) 0)
      then join " AND " (map quoted (filter (fun w => negb (String.eqb w EmptyString) = true) ks))
      else EmptyString
  | None => EmptyString
  end.

(** The body of [buildAqsQuery], statement by statement: the array
    [clauses] is threaded through the eight guarded pushes. *)
Definition buildAqsQuery (f : AqsFilter) : string :=
  let clauses := [] in
  let clauses := push_if (truthy (sender f)) ("from:" +:+ quoted (opt_str (sender f))) clauses in
  let clauses := push_if (truthy (subject f)) ("subject:" +:+ quoted (opt_str (subject f))) clauses in
  let clauses := push_if (truthy (body f)) ("body:" +:+ quoted (opt_str (body f))) clauses in
  let clauses :=
    push_if (truthy (Some (keywordString (keywords f)))) (keywordString (keywords f)) clauses in
  let receivedAfter := toDatePart (receivedFrom f) in
  let clauses := push_if (truthy receivedAfter) ("received>=" +:+ opt_str receivedAfter) clauses in
  let receivedBefore := toDatePart (receivedTo f) in
  let clauses := push_if (truthy receivedBefore) ("received<=" +:+ opt_str receivedBefore) clauses in
  let clauses :=
    push_if (bool_decide (is_Some (hasAttachments f)))
      ("hasattachment:" +:+ string_of_bool (default false (hasAttachments f))) clauses in
  let clauses :=
    push_if (truthy (importance f))
      ("importance:" +:+ toLowerCase (opt_str (importance f))) clauses in
  if negb (Nat.eqb (length clauses) 0) then join " AND " clauses else DEFAULT_QUERY.

(** ** The query as the specification words it

    Each of the eight slots contributes its atoms when it applies, in
    the fixed order; the atoms are joined by [" AND "]; no atom at all
    gives the default clause. *)
Definition when (guard : bool) (atoms : list string) : list string :=
  if guard then atoms else [].

Definition spec_sender f := when (truthy (sender f)) ["from:" +:+ quoted (opt_str (sender f))].
Definition spec_subject f := when (truthy (subject f)) ["subject:" +:+ quoted (opt_str (subject f))].
Definition spec_body f := when (truthy (body f)) ["body:" +:+ quoted (opt_str (body f))].
Definition spec_keywords f :=
  map quoted (filter (fun w => negb (String.eqb w EmptyString) = true) (default [] (keywords f))).
Definition spec_received_after f :=
  when (truthy (toDatePart (receivedFrom f)))
    ["received>=" +:+ opt_str (toDatePart (receivedFrom f))].
Definition spec_received_before f :=
  when (truthy (toDatePart (receivedTo f)))
    ["received<=" +:+ opt_str (toDatePart (receivedTo f))].
Definition spec_attachment f :=
  match hasAttachments f with
  | Some b => ["hasattachment:" +:+ string_of_bool b]
  | None => []
  end.
Definition spec_importance f :=
  when (truthy (importance f)) ["importance:" +:+ toLowerCase (opt_str (importance f))].

Definition spec_atoms (f : AqsFilter) : list string :=
  spec_sender f ++ spec_subject f ++ spec_body f ++ spec_keywords f ++
  spec_received_after f ++ spec_received_before f ++ spec_attachment f ++
  spec_importance f.


End WithDate.
End QueryBuilder.

(* ===================================================================== *)
(** * services/exchangeService.js *)
(* ===================================================================== *)

Module ExchangeService.
Import Js.

(** ** The fragment of [ews-javascript-api] the service touches *)

Inductive DeleteMode := HardDelete | SoftDelete | MoveToDeletedItems.

Inductive WellKnownFolderName :=
| Inbox | JunkEmail | DeletedItems | SentItems | Drafts | ArchiveRoot.

Record ItemId := { UniqueId : string; ChangeKey : string }.

(** A remote item, as far as [buildTransform] reads it.  The receipt time
    is absent, or present with the result of
    [new Date(...).toISOString()]: the ISO text, or [None] when the host
    raises a RangeError on an invalid date. *)
Record Item := {
  Id : option ItemId;
  Subject : option string;
  From : option string;
  Sender : option string;
  DateTimeReceived : option (option string);
  InternetMessageId : option string;
  HasAttachments : bool;
  Size : option Z;
  Body : option string
}.

Record ItemView := { PageSize : Z; Offset : Z }.

Record FindItemsResults := {
  Items : option (list Item);
  MoreAvailable : bool;
  NextPageOffset : Z
}.

Record SearchableMailbox := {
  DisplayName : string;
  PrimarySmtpAddress : string;
  IsExternalMailbox : bool;
  IsSearchable : bool;
  ReferenceId : string
}.

(** ** Errors *)

Record JsError := {
  status : option Z;
  message : string;
  details : list (string * string);
  expose : bool
}.

Definition createError (code : Z) (msg : string) : JsError :=
  {| status := Some code; message := msg; details := []; expose := code <? 500 |}.

Definition wrapExchangeError (msg : string) (error : JsError)
    (dets : list (string * string)) (code : Z) : JsError :=
  {| status := Some code; message := msg; details := dets; expose := true |}.

Definition RangeError : JsError :=
  {| status := None; message := "Invalid time value"; details := []; expose := false |}.

(** What a remote call does: return or raise. *)
Inductive Reply (A : Type) : Type :=
| Returns (a : A)
| Raises (e : JsError).
Arguments Returns {A} a.
Arguments Raises {A} e.

(** ** Configuration *)

Record Config := {
  ewsUrl : option string;
  autodiscoverEmail : option string;
  username : option string;
  password : option string;
  domain : option string;
  ignoreSsl : bool;
  defaultFolders : list string;
  maxPerMailbox : Z;
  pageSize : Z;
  maxConcurrency : Z
}.

(** [coerceInteger]: the argument is the result of [Number.parseInt],
    NaN being [None]. *)
Definition coerceInteger (parsed : option Z) (fallback : Z) : Z :=
  default fallback parsed.

Definition config_maxPerMailbox (env : option Z) : Z := Z.max 1 (coerceInteger env 200).
Definition config_pageSize (env : option Z) : Z := Z.max 1 (Z.min (coerceInteger env 50) 200).
Definition config_maxConcurrency (env : option Z) : Z := Z.max 1 (coerceInteger env 4).

Record Context := {
  requestId : option string;
  operation : option string;
  ctx_mailbox : option string;
  ctx_folder : option string
}.

(** [mergeContext(context, extra)]: the keys of [extra] win. *)
Definition mergeContext (context extra : Context) : Context :=
  {| requestId := from_option Some (requestId context) (requestId extra);
     operation := from_option Some (operation context) (operation extra);
     ctx_mailbox := from_option Some (ctx_mailbox context) (ctx_mailbox extra);
     ctx_folder := from_option Some (ctx_folder context) (ctx_folder extra) |}.

Definition extra (op mbx fld : option string) : Context :=
  {| requestId := None; operation := op; ctx_mailbox := mbx; ctx_folder := fld |}.

(** ** Results of the scan *)

Record MatchRecord := {
  id : option string;
  changeKey : option string;
  subject : string;
  from : option string;
  sender : option string;
  receivedAt : option string;
  internetMessageId : option string;
  hasAttachments : bool;
  size : option Z;
  bodyPreview : string;
  in_mailbox : string;
  in_folder : string
}.

Record Entry := { item : Item; metadata : MatchRecord }.

Record FolderDescriptor := { name : string; folderId : JsValue }.

(** [x || null] on an optional string. *)
Definition or_null (o : option string) : option string :=
  if truthy o then o else None.

(** [buildTransform(mailbox, folder)(item)]; [None] is the RangeError of
    [toISOString]. *)
Definition buildTransform (mbx fld : string) (it : Item) : option MatchRecord :=
  match DateTimeReceived it with
  | Some None => None
  | received =>
      Some {| id := UniqueId <$> Id it;
              changeKey := ChangeKey <$> Id it;
              subject := default EmptyString (Subject it);
              from := or_null (From it);
              sender := or_null (Sender it);
              receivedAt := mjoin received;
              internetMessageId := or_null (InternetMessageId it);
              hasAttachments := HasAttachments it;
              size := Size it;
              bodyPreview := if truthy (Body it) then String.substring 0 500 (default EmptyString (Body it)) else EmptyString;
              in_mailbox := mbx;
              in_folder := fld |}
  end.

(** The calls that reach the remote endpoint, in the order issued. *)
Inductive RemoteCall :=
| CallGetSearchableMailboxes
| CallFindItems (impersonated : option string) (folderId : JsValue) (query : string) (view : ItemView)
| CallDeleteItems (impersonated : option string) (ids : list (option ItemId)) (mode : JsValue).

Definition is_delete_call (c : RemoteCall) : bool :=
  match c with CallDeleteItems _ _ _ => true | _ => false end.

Definition is_find_call (c : RemoteCall) : bool :=
  match c with CallFindItems _ _ _ _ => true | _ => false end.

(** How an awaited computation ends: it resolves, it rejects, or it has
    not settled when the fuel of the paging loop is used up. *)
Inductive Completion (A : Type) : Type :=
| Resolved (a : A)
| Rejected (e : JsError)
| Unsettled.
Arguments Resolved {A} a.
Arguments Rejected {A} e.
Arguments Unsettled {A}.

Section WithEndpoint.
(** The state of the remote endpoint as one service object sees it. *)
Variable Session : Type.

(** The remote endpoint.  [connect] stands for the construction of the
    client ([new ExchangeService], credentials, URL or autodiscovery)
    for a given operation and mailbox. *)
Record Endpoint := {
  connect : Context -> Reply Session;
  GetSearchableMailboxes : Session -> Reply (option (option (list SearchableMailbox))) * Session;
  FindItems : Session -> option string -> JsValue -> string -> ItemView ->
              Reply (option FindItemsResults) * Session;
  DeleteItems : Session -> option string -> list (option ItemId) -> JsValue ->
                Reply unit * Session
}.

(** The service object: the session, the impersonated user, and the
    record of the calls made through it. *)
Record Service := {
  session : Session;
  ImpersonatedUserId : option string;
  calls : list RemoteCall
}.

Definition M (A : Type) : Type := Service -> Completion A * Service.

Definition ret {A} (a : A) : M A := fun svc => (Resolved a, svc).
Definition throw {A} (e : JsError) : M A := fun svc => (Rejected e, svc).
Definition unsettled {A} : M A := fun svc => (Unsettled, svc).

Definition bind {A B} (m : M A) (k : A -> M B) : M B :=
  fun svc =>
    match m svc with
    | (Resolved a, svc') => k a svc'
    | (Rejected e, svc') => (Rejected e, svc')
    | (Unsettled, svc') => (Unsettled, svc')
    end.

(** [try { m } catch (error) { handler(error) }] *)
Definition try_catch {A} (m : M A) (handler : JsError -> M A) : M A :=
  fun svc =>
    match m svc with
    | (Rejected e, svc') => handler e svc'
    | other => other
    end.

Definition lift_throwing {A} (o : option A) (e : JsError) : M A :=
  match o with
  | Some a => ret a
  | None => throw e
  end.
End WithEndpoint.

Arguments ret {Session A} a.
Arguments throw {Session A} e.
Arguments unsettled {Session A}.
Arguments bind {Session A B} m k.
Arguments try_catch {Session A} m handler.
Arguments lift_throwing {Session A} o e.
Arguments session {Session} s.
Arguments ImpersonatedUserId {Session} s.
Arguments calls {Session} s.
Arguments connect {Session} e.
Arguments GetSearchableMailboxes {Session} e.
Arguments FindItems {Session} e.
Arguments DeleteItems {Session} e.

Notation "'await' x <- m ; k" := (bind m (fun x => k))
  (at level 10, x name, m at level 100, k at level 200, only parsing).

Section Service.
Variable Session : Type.
Variable ews : Endpoint Session.
Variable config : Config.
(** The numeric values of the library's enumerations. *)
Variable DeleteMode_value : DeleteMode -> Z.
Variable WellKnownFolderName_value : WellKnownFolderName -> Z.
(** The host's [String.prototype.localeCompare] and [Date]. *)
Variable localeCompare : string -> string -> Z.
Variable Date_parse : string -> option Z.
Variable toISOString : Z -> string.

Definition DELETE_MODE_MAP : gmap string JsValue :=
  list_to_map
    [ ("softdelete", JsNumber (DeleteMode_value SoftDelete));
      ("movetodeleteditems", JsNumber (DeleteMode_value MoveToDeletedItems));
      ("harddelete", JsNumber (DeleteMode_value HardDelete)) ].

Definition FOLDER_MAP : gmap string JsValue :=
  list_to_map
    [ ("inbox", JsNumber (WellKnownFolderName_value Inbox));
      ("junkemail", JsNumber (WellKnownFolderName_value JunkEmail));
      ("deleteditems", JsNumber (WellKnownFolderName_value DeletedItems));
      ("sentitems", JsNumber (WellKnownFolderName_value SentItems));
      ("drafts", JsNumber (WellKnownFolderName_value Drafts));
      ("archive", JsNumber (WellKnownFolderName_value ArchiveRoot)) ].

Definition sanitizeServiceConfig : list (string * string) :=
  [ ("ewsUrl", default EmptyString (ewsUrl config));
    ("autodiscoverEmail", default EmptyString (autodiscoverEmail config));
    ("username", default EmptyString (username config));
    ("domain", default EmptyString (domain config));
    ("ignoreSsl", string_of_bool (ignoreSsl config)) ].

(** [ensureCredentialsConfigured]: the error it throws, if any. *)
Definition ensureCredentialsConfigured : option JsError :=
  if negb (truthy (username config)) || negb (truthy (password config)) then
    let missing :=
      (if negb (truthy (username config)) then ["EWS_USERNAME"] else []) ++
      (if negb (truthy (password config)) then ["EWS_PASSWORD"] else []) in
    Some {| status := Some 500; message := "EWS credentials are not configured";
            details := [("missing", join "," missing)]; expose := true |}
  else None.

Definition createService (context : Context) : Completion (Service Session) :=
  match ensureCredentialsConfigured with
  | Some e => Rejected e
  | None =>
      if negb (truthy (ewsUrl config)) && negb (truthy (autodiscoverEmail config)) then
        Rejected
          {| status := Some 500;
             message := "Either EWS_URL or EWS_AUTODISCOVER_EMAIL must be supplied in the environment.";
             details := [("operation", "configuration")]; expose := true |}
      else
        let operation := if truthy (operation context)
                         then default EmptyString (operation context) else "ExchangeService" in
        match connect ews context with
        | Returns s =>
            Resolved {| session := s; ImpersonatedUserId := None; calls := [] |}
        | Raises error =>
            Rejected (wrapExchangeError "Failed to initialise Exchange Web Services client"
                        error (sanitizeServiceConfig ++ [("operation", operation)]) 502)
        end
  end.

Definition ensureFolder (folder : string) : JsError + FolderDescriptor :=
  let normalized := toLowerCase folder in
  let resolved := get FOLDER_MAP normalized in
  if negb (is_truthy resolved) then
    inl {| status := Some 400; message := "Unsupported folder specified: " +:+ folder;
           details := []; expose := true |}
  else inr {| name := folder; folderId := resolved |}.

(** [targetFolders.map(ensureFolder)]: the first unsupported folder
    throws. *)
Fixpoint map_ensureFolder (folders : list string) : JsError + list FolderDescriptor :=
  match folders with
  | [] => inr []
  | f :: rest =>
      match ensureFolder f with
      | inl e => inl e
      | inr d =>
          match map_ensureFolder rest with
          | inl e => inl e
          | inr ds => inr (d :: ds)
          end
      end
  end.

Definition resolveFolders (folders : option (list string)) : JsError + list FolderDescriptor :=
  let targetFolders :=
    match folders with
    | Some (f :: rest) => f :: rest
    | _ => defaultFolders config
    end in
  map_ensureFolder targetFolders.

(** *** Remote calls through a service object *)

Definition call_FindItems (fid : JsValue) (query : string) (view : ItemView)
  : M Session (option FindItemsResults) :=
  fun svc =>
    let '(reply, s) := FindItems ews (session svc) (ImpersonatedUserId svc) fid query view in
    let svc' := {| session := s; ImpersonatedUserId := ImpersonatedUserId svc;
                   calls := calls svc ++ [CallFindItems (ImpersonatedUserId svc) fid query view] |} in
    match reply with
    | Returns r => (Resolved r, svc')
    | Raises e => (Rejected e, svc')
    end.

Definition call_DeleteItems (ids : list (option ItemId)) (mode : JsValue) : M Session unit :=
  fun svc =>
    let '(reply, s) := DeleteItems ews (session svc) (ImpersonatedUserId svc) ids mode in
    let svc' := {| session := s; ImpersonatedUserId := ImpersonatedUserId svc;
                   calls := calls svc ++ [CallDeleteItems (ImpersonatedUserId svc) ids mode] |} in
    match reply with
    | Returns r => (Resolved r, svc')
    | Raises e => (Rejected e, svc')
    end.

Definition call_GetSearchableMailboxes
  : M Session (option (option (list SearchableMailbox))) :=
  fun svc =>
    let '(reply, s) := GetSearchableMailboxes ews (session svc) in
    let svc' := {| session := s; ImpersonatedUserId := ImpersonatedUserId svc;
                   calls := calls svc ++ [CallGetSearchableMailboxes] |} in
    match reply with
    | Returns r => (Resolved r, svc')
    | Raises e => (Rejected e, svc')
    end.

Definition impersonateMailbox (svc : Service Session) (mbx : string) : Service Session :=
  {| session := session svc; ImpersonatedUserId := Some mbx; calls := calls svc |}.

(** *** [findItemsInFolder] *)

(** [findResults.Items.forEach(...)]: an item is skipped once [limit]
    entries are held; a throwing transform aborts the loop. *)
Fixpoint appendItems (limit : Z) (transform : Item -> option MatchRecord)
    (its : list Item) (items : list Entry) : option (list Entry) :=
  match its with
  | [] => Some items
  | it :: rest =>
      if Z.of_nat (length items) >=? limit then appendItems limit transform rest items
      else
        match transform it with
        | Some md => appendItems limit transform rest (items ++ [{| item := it; metadata := md |}])
        | None => None
        end
  end.

Definition appendResults (limit : Z) (transform : Item -> option MatchRecord)
    (findResults : option FindItemsResults) (items : list Entry) : option (list Entry) :=
  match findResults with
  | Some r =>
      match Items r with
      | Some its => appendItems limit transform its items
      | None => Some items
      end
  | None => Some items
  end.

(** [results?.MoreAvailable] *)
Definition moreAvailable (results : option FindItemsResults) : bool :=
  match results with
  | Some r => MoreAvailable r
  | None => false
  end.

Definition nextPageOffset (results : option FindItemsResults) : Z :=
  match results with
  | Some r => NextPageOffset r
  | None => 0
  end.

(** [items.slice(0, limit)] *)
Definition slice0 {A} (limit : Z) (items : list A) : list A :=
  take (Z.to_nat limit) items.

(** The [while] loop of [findItemsInFolder]; one unit of fuel per
    iteration. *)
Fixpoint pageLoop (fuel : nat) (fid : JsValue) (query : string) (limit : Z)
    (transform : Item -> option MatchRecord)
    (results : option FindItemsResults) (items : list Entry) : M Session (list Entry) :=
  if moreAvailable results && (Z.of_nat (length items) <? limit) then
    match fuel with
    | O => unsettled
    | S fuel' =>
        let remaining := limit - Z.of_nat (length items) in
        let view := {| PageSize := Z.min remaining (pageSize config);
                       Offset := nextPageOffset results |} in
        await results' <- call_FindItems fid query view;
        await items' <- lift_throwing (appendResults limit transform results' items) RangeError;
        pageLoop fuel' fid query limit transform results' items'
    end
  else ret (slice0 limit items).

Definition findItemsInFolder (fuel : nat) (folderDescriptor : FolderDescriptor)
    (query : string) (limit : Z) (mbx : string) (context : Context)
  : M Session (list Entry) :=
  if limit <=? 0 then ret []
  else
    let fid := folderId folderDescriptor in
    let folderName := name folderDescriptor in
    let items := [] in
    let view := {| PageSize := Z.min limit (pageSize config); Offset := 0 |} in
    let transform := buildTransform mbx folderName in
    try_catch
      (await results <- call_FindItems fid query view;
       await items <- lift_throwing (appendResults limit transform results items) RangeError;
       pageLoop fuel fid query limit transform results items)
      (fun error =>
         throw (wrapExchangeError "Failed to search mailbox folder" error
                  [ ("mailbox", mbx); ("folder", folderName);
                    ("operation", if truthy (operation context)
                                  then default EmptyString (operation context) else "FindItems") ]
                  502)).

(** *** Per-mailbox work *)

(** A directory entry, as [getSearchableMailboxes] maps it. *)
Record MailboxEntry := {
  entry_displayName : string;
  smtpAddress : string;
  isExternal : bool;
  referenceId : string
}.

Definition toMailboxEntry (e : SearchableMailbox) : MailboxEntry :=
  {| entry_displayName := DisplayName e; smtpAddress := PrimarySmtpAddress e;
     isExternal := IsExternalMailbox e; referenceId := ReferenceId e |}.

(** Running a computation on the service [createService] hands out:
    the completion and the calls issued. *)
Definition with_service {A} (context : Context) (body : Service Session -> Completion A * Service Session)
  : Completion A * list RemoteCall :=
  match createService context with
  | Resolved svc => let '(r, svc') := body svc in (r, calls svc')
  | Rejected e => (Rejected e, [])
  | Unsettled => (Unsettled, [])
  end.

Definition getSearchableMailboxes (context : Context)
  : Completion (list MailboxEntry) * list RemoteCall :=
  with_service (mergeContext context (extra (Some "GetSearchableMailboxes") None None))
    (try_catch
       (await response <- call_GetSearchableMailboxes;
        match response with
        | Some (Some boxes) =>
            ret (map toMailboxEntry (filter (fun e => IsSearchable e = true) boxes))
        | _ => ret []
        end)
       (fun error =>
          throw (wrapExchangeError "Unable to enumerate searchable mailboxes" error
                   [("operation", "GetSearchableMailboxes")] 502))).

(** The [for ... of folders] loop of [collectMatchesForMailbox]. *)
Fixpoint collectLoop (fuel : nat) (folders : list FolderDescriptor) (query : string)
    (limit : Z) (mbx : MailboxEntry) (context : Context) (matches : list MatchRecord)
  : M Session (list MatchRecord) :=
  match folders with
  | [] => ret matches
  | folder :: rest =>
      await items <-
        findItemsInFolder fuel folder query (limit - Z.of_nat (length matches))
          (smtpAddress mbx)
          (mergeContext context (extra None (Some (smtpAddress mbx)) (Some (name folder))));
      let matches := matches ++ map metadata items in
      if Z.of_nat (length matches) >=? limit then ret matches
      else collectLoop fuel rest query limit mbx context matches
  end.

Definition collectMatchesForMailbox (fuel : nat) (mbx : MailboxEntry)
    (folders : list FolderDescriptor) (query : string) (limit : Z) (context : Context)
  : Completion (list MatchRecord) * list RemoteCall :=
  with_service
    (mergeContext context (extra (Some "CollectMatches") (Some (smtpAddress mbx)) None))
    (fun service =>
       let service := impersonateMailbox service (smtpAddress mbx) in
       collectLoop fuel folders query limit mbx context [] service).

(** The [for ... of folders] loop of [deleteForMailbox]: matches and
    deletable identifiers grow together. *)
Fixpoint deleteLoop (fuel : nat) (folders : list FolderDescriptor) (query : string)
    (limit : Z) (mbx : MailboxEntry) (context : Context)
    (matches : list MatchRecord) (deletableIds : list (option ItemId))
  : M Session (list MatchRecord * list (option ItemId)) :=
  match folders with
  | [] => ret (matches, deletableIds)
  | folder :: rest =>
      await items <-
        findItemsInFolder fuel folder query (limit - Z.of_nat (length matches))
          (smtpAddress mbx)
          (mergeContext context (extra None (Some (smtpAddress mbx)) (Some (name folder))));
      let matches := matches ++ map metadata items in
      let deletableIds := deletableIds ++ map (fun entry => Id (item entry)) items in
      if Z.of_nat (length matches) >=? limit then ret (matches, deletableIds)
      else deleteLoop fuel rest query limit mbx context matches deletableIds
  end.

Record DeleteForMailboxResult := {
  dfm_matches : list MatchRecord;
  dfm_deleted : Z
}.

Definition deleteForMailbox (fuel : nat) (mbx : MailboxEntry)
    (folders : list FolderDescriptor) (query : string) (limit : Z)
    (deleteMode : JsValue) (simulate : bool) (context : Context)
  : Completion DeleteForMailboxResult * list RemoteCall :=
  with_service
    (mergeContext context (extra (Some "DeleteForMailbox") (Some (smtpAddress mbx)) None))
    (fun service =>
       let service := impersonateMailbox service (smtpAddress mbx) in
       (await collected <- deleteLoop fuel folders query limit mbx context [] [];
        let '(matches, deletableIds) := collected in
        await _ <-
          (if negb simulate && negb (Nat.eqb (length deletableIds) 0) then
             try_catch
               (call_DeleteItems deletableIds deleteMode)
               (fun error =>
                  throw (wrapExchangeError "Failed to delete messages" error
                           [("mailbox", smtpAddress mbx); ("operation", "DeleteItems")] 502))
           else ret ());
        ret {| dfm_matches := matches;
               dfm_deleted := if simulate then 0 else Z.of_nat (length deletableIds) |})
         service).

(** *** Requests *)

(** What a mailbox task resolves to, when it is not [null]: the
    success object [{mailbox, displayName, totalMatches, deleted?,
    folders?, matches}] or the failure object [{error, mailbox,
    displayName, details}].  Absent properties are [None]. *)
Record ResultObject := {
  error : option string;
  mailbox : string;
  displayName : string;
  totalMatches : option Z;
  deleted : option Z;
  folders : option (list string);
  matches : option (list MatchRecord);
  error_details : option (list (string * string))
}.

Definition failureObject (e : JsError) (mbx : MailboxEntry) : ResultObject :=
  {| error := Some (message e); mailbox := smtpAddress mbx;
     displayName := entry_displayName mbx; totalMatches := None; deleted := None;
     folders := None; matches := None; error_details := Some (details e) |}.

Record SearchSummary := {
  totalMailboxesScanned : Z;
  mailboxesWithMatches : Z;
  totalMessages : Num
}.

Record DeleteSummary := {
  d_totalMailboxesScanned : Z;
  d_mailboxesWithMatches : Z;
  d_totalMatches : Num;
  totalDeleted : Num;
  mode : string;
  simulate : bool
}.

Record AggregateResult (S : Type) := {
  summary : S;
  query : option string;
  results : list ResultObject;
  failures : list ResultObject
}.
Arguments summary {S} a.
Arguments query {S} a.
Arguments results {S} a.
Arguments failures {S} a.

(** The request body after validation. *)
Record Filters := {
  aqs : QueryBuilder.AqsFilter;
  f_folders : option (list string);
  f_maxPerMailbox : option Z;
  f_deleteMode : option string;
  f_simulate : option bool
}.

(** [maxPerMailbox || config.maxPerMailbox] *)
Definition perMailbox (f : Filters) : Z :=
  match f_maxPerMailbox f with
  | Some n => if n =? 0 then maxPerMailbox config else n
  | None => maxPerMailbox config
  end.

(** [await Promise.all(tasks)] over the tasks the queue has run.  Every
    task is started; the tasks do not share a service object, so their
    calls are recorded one task after the other. *)
Fixpoint Promise_all {A} (tasks : list (Completion A * list RemoteCall))
  : Completion (list A) * list RemoteCall :=
  match tasks with
  | [] => (Resolved [], [])
  | (r, cs) :: rest =>
      let '(rs, css) := Promise_all rest in
      (match r, rs with
       | Rejected e, _ => Rejected e
       | Resolved _, Rejected e => Rejected e
       | Unsettled, Rejected e => Rejected e
       | Unsettled, _ => Unsettled
       | Resolved _, Unsettled => Unsettled
       | Resolved a, Resolved l => Resolved (a :: l)
       end, cs ++ css)
  end.

Definition searchContext (context : Context) (mbx : MailboxEntry) : Context :=
  mergeContext context (extra (Some "SearchMessages") (Some (smtpAddress mbx)) None).

Definition deleteContext (context : Context) (mbx : MailboxEntry) : Context :=
  mergeContext context (extra (Some "DeleteMessages") (Some (smtpAddress mbx)) None).

Definition searchTask (fuel : nat) (resolvedFolders : list FolderDescriptor)
    (q : string) (limit : Z) (context : Context) (mbx : MailboxEntry)
  : Completion (option ResultObject) * list RemoteCall :=
  let '(r, cs) :=
    collectMatchesForMailbox fuel mbx resolvedFolders q limit (searchContext context mbx) in
  match r with
  | Resolved found =>
      if Nat.eqb (length found) 0 then (Resolved None, cs)
      else (Resolved (Some {| error := None; mailbox := smtpAddress mbx;
                              displayName := entry_displayName mbx;
                              totalMatches := Some (Z.of_nat (length found));
                              deleted := None; folders := None;
                              matches := Some found; error_details := None |}), cs)
  | Rejected e => (Resolved (Some (failureObject e mbx)), cs)
  | Unsettled => (Unsettled, cs)
  end.

(** The [results.forEach] of [searchMessages]. *)
Definition search_partition (rs : list (option ResultObject))
  : list ResultObject * list ResultObject :=
  fold_left
    (fun '(mailboxResults, fails) result =>
       match result with
       | None => (mailboxResults, fails)
       | Some r =>
           if truthy (error r) then (mailboxResults, fails ++ [r])
           else (mailboxResults ++ [r], fails)
       end)
    rs ([], []).

Definition sum_totalMatches (mailboxResults : list ResultObject) : Num :=
  fold_left (fun acc r => add acc (totalMatches r)) mailboxResults (Some 0).

Definition by_mailbox (a b : ResultObject) : Z := localeCompare (mailbox a) (mailbox b).

Definition searchLimit (filters : Filters) : Z := Z.max 1 (Z.min (perMailbox filters) 1000).

Definition searchQuery (filters : Filters) : string :=
  QueryBuilder.buildAqsQuery Date_parse toISOString (aqs filters).

Definition searchMessages (fuel : nat) (filters : Filters) (context : Context)
  : Completion (AggregateResult SearchSummary) * list RemoteCall :=
  let '(found, cs0) := getSearchableMailboxes context in
  match found with
  | Rejected e => (Rejected e, cs0)
  | Unsettled => (Unsettled, cs0)
  | Resolved mailboxes =>
      match resolveFolders (f_folders filters) with
      | inl e => (Rejected e, cs0)
      | inr resolvedFolders =>
          let limit := searchLimit filters in
          if Nat.eqb (length mailboxes) 0 then
            (Resolved {| summary := {| totalMailboxesScanned := 0; mailboxesWithMatches := 0;
                                       totalMessages := Some 0 |};
                         query := None; results := []; failures := [] |}, cs0)
          else
            let q := searchQuery filters in
            let tasks := map (searchTask fuel resolvedFolders q limit context) mailboxes in
            let '(settled, cs) := Promise_all tasks in
            match settled with
            | Rejected e => (Rejected e, cs0 ++ cs)
            | Unsettled => (Unsettled, cs0 ++ cs)
            | Resolved rs =>
                let '(mailboxResults, fails) := search_partition rs in
                let total := sum_totalMatches mailboxResults in
                (Resolved
                   {| summary := {| totalMailboxesScanned := Z.of_nat (length mailboxes);
                                    mailboxesWithMatches := Z.of_nat (length mailboxResults);
                                    totalMessages := total |};
                      query := Some q;
                      results := sort by_mailbox mailboxResults;
                      failures := fails |}, cs0 ++ cs)
            end
      end
  end.

Definition deleteTask (fuel : nat) (resolvedFolders : list FolderDescriptor)
    (q : string) (limit : Z) (deleteMode : JsValue) (sim : bool)
    (context : Context) (mbx : MailboxEntry)
  : Completion (option ResultObject) * list RemoteCall :=
  let '(r, cs) :=
    deleteForMailbox fuel mbx resolvedFolders q limit deleteMode sim
      (deleteContext context mbx) in
  match r with
  | Resolved res =>
      if Nat.eqb (length (dfm_matches res)) 0 then (Resolved None, cs)
      else (Resolved (Some {| error := None; mailbox := smtpAddress mbx;
                              displayName := entry_displayName mbx;
                              totalMatches := Some (Z.of_nat (length (dfm_matches res)));
                              deleted := Some (dfm_deleted res);
                              folders := Some (unique [] (map in_folder (dfm_matches res)));
                              matches := Some (dfm_matches res);
                              error_details := None |}), cs)
  | Rejected e => (Resolved (Some (failureObject e mbx)), cs)
  | Unsettled => (Unsettled, cs)
  end.

(** The [results.forEach] of [deleteMessages], with its running
    [totalDeleted]. *)
Definition delete_partition (rs : list (option ResultObject))
  : list ResultObject * list ResultObject * Num :=
  fold_left
    (fun '(mailboxResults, fails, total) result =>
       match result with
       | None => (mailboxResults, fails, total)
       | Some r =>
           if truthy (error r) then (mailboxResults, fails ++ [r], total)
           else (mailboxResults ++ [r], fails, add total (deleted r))
       end)
    rs ([], [], Some 0).

(** [a || b] on table values. *)
Definition or_else (a b : JsValue) : JsValue := if is_truthy a then a else b.

(** The [modeKey], [mode] and [effectiveModeKey] lines of
    [deleteMessages]. *)
Definition resolveDeleteMode (deleteMode : string) : JsValue * string :=
  let modeKey := toLowerCase deleteMode in
  let mode_ := or_else (get DELETE_MODE_MAP modeKey) (JsNumber (DeleteMode_value SoftDelete)) in
  let effectiveModeKey :=
    if is_truthy (get DELETE_MODE_MAP modeKey) then modeKey else "softdelete" in
  (mode_, effectiveModeKey).

Definition deleteLimit (filters : Filters) : Z := Z.max 1 (Z.min (perMailbox filters) 2000).

(** [buildAqsQuery({ sender, subject, body, receivedFrom, receivedTo })] *)
Definition deleteQuery (filters : Filters) : string :=
  let f := aqs filters in
  QueryBuilder.buildAqsQuery Date_parse toISOString
    {| QueryBuilder.sender := QueryBuilder.sender f;
       QueryBuilder.subject := QueryBuilder.subject f;
       QueryBuilder.body := QueryBuilder.body f;
       QueryBuilder.keywords := None;
       QueryBuilder.receivedFrom := QueryBuilder.receivedFrom f;
       QueryBuilder.receivedTo := QueryBuilder.receivedTo f;
       QueryBuilder.hasAttachments := None;
       QueryBuilder.importance := None |}.

Definition deleteMessages (fuel : nat) (filters : Filters) (context : Context)
  : Completion (AggregateResult DeleteSummary) * list RemoteCall :=
  let deleteMode := default "softDelete" (f_deleteMode filters) in
  let sim := default true (f_simulate filters) in
  let '(found, cs0) := getSearchableMailboxes context in
  match found with
  | Rejected e => (Rejected e, cs0)
  | Unsettled => (Unsettled, cs0)
  | Resolved mailboxes =>
      match resolveFolders (f_folders filters) with
      | inl e => (Rejected e, cs0)
      | inr resolvedFolders =>
          let limit := deleteLimit filters in
          let mode_ := fst (resolveDeleteMode deleteMode) in
          let effectiveModeKey := snd (resolveDeleteMode deleteMode) in
          if Nat.eqb (length mailboxes) 0 then
            (Resolved {| summary := {| d_totalMailboxesScanned := 0;
                                       d_mailboxesWithMatches := 0;
                                       d_totalMatches := Some 0;
                                       totalDeleted := Some 0;
                                       mode := effectiveModeKey;
                                       simulate := sim |};
                         query := None; results := []; failures := [] |}, cs0)
          else
            let q := deleteQuery filters in
            let tasks := map (deleteTask fuel resolvedFolders q limit mode_ sim context) mailboxes in
            let '(settled, cs) := Promise_all tasks in
            match settled with
            | Rejected e => (Rejected e, cs0 ++ cs)
            | Unsettled => (Unsettled, cs0 ++ cs)
            | Resolved rs =>
                let '(mailboxResults, fails, total) := delete_partition rs in
                let matched := sum_totalMatches mailboxResults in
                (Resolved
                   {| summary := {| d_totalMailboxesScanned := Z.of_nat (length mailboxes);
                                    d_mailboxesWithMatches := Z.of_nat (length mailboxResults);
                                    d_totalMatches := matched;
                                    totalDeleted := total;
                                    mode := effectiveModeKey;
                                    simulate := sim |};
                      query := Some q;
                      results := sort by_mailbox mailboxResults;
                      failures := fails |}, cs0 ++ cs)
            end
      end
  end.



(** [svc'] is [svc] after some [FindItems] calls and nothing else. *)
Definition scanned (svc svc' : Service Session) : Prop :=
  ImpersonatedUserId svc' = ImpersonatedUserId svc /\
  exists cs, calls svc' = calls svc ++ cs /\ Forall (fun c => is_find_call c = true) cs.

(** A comparator the sort can rely on: total and transitive. *)
Definition consistent (compare : string -> string -> Z) : Prop :=
  (forall a b, compare a b <= 0 \/ compare b a <= 0) /\
  (forall a b c, compare a b <= 0 -> compare b c <= 0 -> compare a c <= 0).

(** The two lists the [forEach] builds, read declaratively: the settled
    task values that are objects, split on the truthiness of their
    [error] property, in task order. *)
Definition succeeded (rs : list (option ResultObject)) : list ResultObject :=
  filter (fun r => truthy (error r) = false) (omap (fun r => r) rs).

Definition failed (rs : list (option ResultObject)) : list ResultObject :=
  filter (fun r => truthy (error r) = true) (omap (fun r => r) rs).

(** The same request with another [simulate] flag. *)
Definition with_simulate (b : bool) (filters : Filters) : Filters :=
  {| aqs := aqs filters; f_folders := f_folders filters;
     f_maxPerMailbox := f_maxPerMailbox filters;
     f_deleteMode := f_deleteMode filters; f_simulate := Some b |}.

(** The same request with another [deleteMode]. *)
Definition with_deleteMode (deleteMode : string) (filters : Filters) : Filters :=
  {| aqs := aqs filters; f_folders := f_folders filters;
     f_maxPerMailbox := f_maxPerMailbox filters;
     f_deleteMode := Some deleteMode; f_simulate := f_simulate filters |}.

(** The sum of a list of integers. *)
Definition sumZ (l : list Z) : Z := foldr Z.add 0 l.
End Service.

Arguments summary {S} a.
Arguments query {S} a.
Arguments results {S} a.
Arguments failures {S} a.
End ExchangeService.

(* ===================================================================== *)
(** * routes/exchangeRoutes.js and utils/logStore.js *)
(* ===================================================================== *)

Module ExchangeRoutes.
Import Js.

(** ** Request validation *)

(** A JSON value of a request body. *)
Inductive Json :=
| JString (s : string)
| JNumber (n : Z)
| JBool (b : bool)
| JNull.

(** The keys of a request body the schemas know; other keys are
    stripped ([stripUnknown]). *)
Record Body := {
  sender : option Json;
  subject : option Json;
  receivedFrom : option Json;
  receivedTo : option Json;
  maxPerMailbox : option Json;
  simulate : option Json
}.

(** The validated payload. *)
Record Payload := {
  p_sender : option string;
  p_subject : option string;
  p_receivedFrom : option Z;
  p_receivedTo : option Z;
  p_maxPerMailbox : option Z;
  p_simulate : option bool
}.

Record Issue := { code : string; path : string }.

Inductive Validation :=
| Accepted (payload : Payload)
| Invalid (issues : list Issue).

(** An object schema over those keys, as far as the two schemas of the
    file differ: whether [sender] is required and whether [simulate] is a
    known key. *)
Record Schema := {
  sender_required : bool;
  simulate_key : bool
}.

Definition filterBaseSchema : Schema :=
  {| sender_required := false; simulate_key := false |}.

(** [.fork(["sender"], (schema) => schema.required())] *)
Definition fork_sender_required (s : Schema) : Schema :=
  {| sender_required := true; simulate_key := simulate_key s |}.

(** [.keys({ simulate: Joi.boolean().default(true) })] *)
Definition keys_simulate (s : Schema) : Schema :=
  {| sender_required := sender_required s; simulate_key := true |}.

Definition deleteSchema : Schema := keys_simulate (fork_sender_required filterBaseSchema).

Section Joi.
(** Joi's rules on a present value: the email format, the ISO date
    (as milliseconds), number and boolean conversion. *)
Variable is_email : string -> bool.
Variable iso_date : Json -> option Z.
Variable to_number : Json -> option Z.
Variable to_boolean : Json -> option bool.

(** A key under [Joi.string()] with a further rule: absent values pass
    unless required, the empty string never passes. *)
Definition joi_string (required : bool) (key : string) (rule : string -> option string)
    (v : option Json) : list Issue * option string :=
  match v with
  | None => if required then ([{| code := "any.required"; path := key |}], None) else ([], None)
  | Some (JString s) =>
      if String.eqb s EmptyString then ([{| code := "string.empty"; path := key |}], None)
      else match rule s with
           | Some c => ([{| code := c; path := key |}], None)
           | None => ([], Some s)
           end
  | Some _ => ([{| code := "string.base"; path := key |}], None)
  end.

Definition joi_optional {A} (key code_ : string) (conv : Json -> option A) (ok : A -> bool)
    (v : option Json) : list Issue * option A :=
  match v with
  | None => ([], None)
  | Some j =>
      match conv j with
      | Some a => if ok a then ([], Some a) else ([{| code := code_; path := key |}], None)
      | None => ([{| code := code_; path := key |}], None)
      end
  end.

(** The [.custom(...)] rule of [filterBaseSchema]. *)
Definition filter_requirement (value : Payload) : list Issue :=
  let hasPrimaryFilter := truthy (p_sender value) || truthy (p_subject value) in
  if negb hasPrimaryFilter then [{| code := "any.custom"; path := EmptyString |}]
  else
    match p_receivedFrom value, p_receivedTo value with
    | Some from, Some to =>
        if from >? to then [{| code := "date.max"; path := EmptyString |}] else []
    | _, _ => []
    end.

(** [schema.validateAsync(body, { abortEarly: false, stripUnknown: true })]:
    the keys first; the object rule is reported when the keys pass. *)
Definition validate (schema : Schema) (b : Body) : Validation :=
  let '(e1, v_sender) :=
    joi_string (sender_required schema) "sender"
      (fun s => if is_email s then None else Some "string.email") (sender b) in
  let '(e2, v_subject) :=
    joi_string false "subject"
      (fun s => if (String.length s <=? 256)%nat then None else Some "string.max") (subject b) in
  let '(e3, v_from) := joi_optional "receivedFrom" "date.format" iso_date (fun _ => true) (receivedFrom b) in
  let '(e4, v_to) := joi_optional "receivedTo" "date.format" iso_date (fun _ => true) (receivedTo b) in
  let '(e5, v_max) :=
    joi_optional "maxPerMailbox" "number.base" to_number
      (fun n => (1 <=? n) && (n <=? 2000)) (maxPerMailbox b) in
  let '(e6, v_sim) :=
    if simulate_key schema then
      match simulate b with
      | None => ([], Some true)
      | some => joi_optional "simulate" "boolean.base" to_boolean (fun _ => true) some
      end
    else ([], None) in
  let value := {| p_sender := v_sender; p_subject := v_subject; p_receivedFrom := v_from;
                  p_receivedTo := v_to; p_maxPerMailbox := v_max; p_simulate := v_sim |} in
  match e1 ++ e2 ++ e3 ++ e4 ++ e5 ++ e6 with
  | [] =>
      match filter_requirement value with
      | [] => Accepted value
      | issues => Invalid issues
      end
  | issues => Invalid issues
  end.

Definition accepts (schema : Schema) (b : Body) : bool :=
  match validate schema b with
  | Accepted _ => true
  | Invalid _ => false
  end.

(** Every key other than the primary filter keys is absent or passes
    its own rule, the primary filter keys pass theirs when present, and
    the dates are in order. *)
Definition well_formed (b : Body) : Prop :=
  match sender b with
  | Some (JString s) => s <> EmptyString /\ is_email s = true
  | Some _ => False
  | None => True
  end /\
  match subject b with
  | Some (JString s) => s <> EmptyString /\ (String.length s <= 256)%nat
  | Some _ => False
  | None => True
  end /\
  match receivedFrom b with Some j => is_Some (iso_date j) | None => True end /\
  match receivedTo b with Some j => is_Some (iso_date j) | None => True end /\
  match receivedFrom b, receivedTo b with
  | Some f, Some t =>
      match iso_date f, iso_date t with
      | Some x, Some y => x <= y
      | _, _ => True
      end
  | _, _ => True
  end /\
  match maxPerMailbox b with
  | Some j => exists n, to_number j = Some n /\ 1 <= n <= 2000
  | None => True
  end /\
  match simulate b with Some j => is_Some (to_boolean j) | None => True end.
End Joi.

(** ** Purge operations *)

(** The part of the child process object the routes read: [exitCode] is
    [null] until the process has exited with a code. *)
Record ChildProcess := { exitCode : option Z }.

(** The reference a [purgeContext] holds in [child]: always the child
    process object of its own operation. *)
Inductive ChildRef := OwnChild.

(** The [purgeContext] object; [child] is [null] or that reference. *)
Record PurgeContext := {
  requestId : string;
  child : option ChildRef;
  cancelled : bool;
  cancelReason : option string;
  wantsStream : bool
}.

(** The validated purge request, as far as the handlers use it. *)
Record PurgeRequest := {
  senderEmail : string;
  subjectContains : option string;
  subjectEqual : option string;
  purge_simulate : bool;
  allowHardDelete : bool;
  method : string;
  daysBack : Z
}.

(** An entry of the purge log.  [log_id] is the [id] property: [None]
    when the object has no such property (the entries the close handler
    assembles have none), [Some None] when it has one that holds [null]
    or [undefined], and [Some (Some s)] when it holds the string [s]. *)
Record LogEntry := {
  log_id : option (option string);
  log_timestamp : Z;
  log_requestId : string;
  log_request : PurgeRequest;
  log_mode : string;
  log_exitCode : option Z;
  log_exitSignal : option string;
  log_status : string;
  log_cancelled : bool;
  log_cancelReason : option string;
  log_completedAt : Z;
  log_durationMs : Z;
  log_stdoutLength : nat;
  log_stderrLength : nat;
  log_affectedMailboxes : list string
}.

(** [x || null] *)
Definition or_null (o : option string) : option string :=
  if truthy o then o else None.

(** What a handler sends to the client. *)
Inductive Sent :=
| SseEvent (event : string) (status : option string)
| JsonResponse (http : Z) (status : string) (entry : option LogEntry)
| NextError (http : Z) (msg : string)
| EndResponse.

(** The closure of one purge request: its parameters, the buffered
    output, the child process object and the context object. *)
Record Operation := {
  request : PurgeRequest;
  startedAt : Z;
  stdout : list string;
  stderr : list string;
  process : ChildProcess;
  context : PurgeContext
}.

(** The server: the [activePurges] map (operation identifier to the
    closure that owns the registered context), the closures of the purge
    requests by request identifier, the log file, and what has been sent
    for each request. *)
Record Server := {
  activePurges : gmap string string;
  operations : gmap string Operation;
  logFile : list LogEntry;
  sent : list (string * Sent)
}.

Definition set_operation (ref : string) (op : Operation) (sv : Server) : Server :=
  {| activePurges := activePurges sv; operations := <[ref := op]> (operations sv);
     logFile := logFile sv; sent := sent sv |}.

(** [activePurges.delete(id)] *)
Definition deregister (target : string) (sv : Server) : Server :=
  {| activePurges := delete target (activePurges sv); operations := operations sv;
     logFile := logFile sv; sent := sent sv |}.

Definition send (to : string) (out : list Sent) (sv : Server) : Server :=
  {| activePurges := activePurges sv; operations := operations sv;
     logFile := logFile sv; sent := sent sv ++ map (pair to) out |}.

Definition with_context (c : PurgeContext) (op : Operation) : Operation :=
  {| request := request op; startedAt := startedAt op; stdout := stdout op;
     stderr := stderr op; process := process op; context := c |}.

(** [context.cancelled = true; context.cancelReason = context.cancelReason || reason] *)
Definition mark_cancelled (reason : string) (c : PurgeContext) : PurgeContext :=
  {| requestId := requestId c; child := child c; cancelled := true;
     cancelReason := if truthy (cancelReason c) then cancelReason c else Some reason;
     wantsStream := wantsStream c |}.

(** [purgeContext.child = null] *)
Definition detach_child (c : PurgeContext) : PurgeContext :=
  {| requestId := requestId c; child := None; cancelled := cancelled c;
     cancelReason := cancelReason c; wantsStream := wantsStream c |}.

(** What [child.kill()] does: it returns a boolean or throws. *)
Inductive KillOutcome := KillTrue | KillFalse | KillThrows.

Definition killed (k : KillOutcome) : bool :=
  match k with KillTrue => true | _ => false end.

(** [activePurges.get(id)]: the registered context, with the closure it
    belongs to. *)
Definition activePurges_get (sv : Server) (target : string) : option (string * Operation) :=
  ref ← activePurges sv !! target; op ← operations sv !! ref; Some (ref, op).

(** [POST /purge-sender/cancel]; [from] identifies the cancel request
    itself. *)
Definition cancel (from target : string) (kill : KillOutcome) (sv : Server) : Server :=
  match activePurges_get sv target with
  | None => send from [JsonResponse 404 "not-found" None] sv
  | Some (ref, op) =>
      match child (context op) with
      | None => send from [JsonResponse 404 "not-found" None] sv
      | Some OwnChild =>
          if bool_decide (is_Some (exitCode (process op))) then
            send from [JsonResponse 409 "already-finished" None] (deregister target sv)
          else
            let op' := with_context (mark_cancelled "user_requested" (context op)) op in
            let status := if killed kill then "cancelling" else "pending" in
            send from [JsonResponse 200 status None] (set_operation ref op' sv)
      end
  end.

(** *** utils/logStore.js *)

(** The file system under [ensureStorage] and [appendFile]. *)
Inductive FsOutcome := FsOk | FsFails.

(** The record [appendLogEntry] builds: [{ id: entry.id || randomUUID(),
    timestamp: entry.timestamp || now, ...entry }].  The spread comes
    last, so every property the entry has wins over the two computed
    ones: an [id] property of the entry is kept whatever it holds, also
    the empty string or [null], and the fresh identifier is used only
    when the entry has no [id] property.  The entries of the routes
    always carry a timestamp. *)
Definition stamp (uuid : string) (entry : LogEntry) : LogEntry :=
  {| log_id := match log_id entry with
               | Some held => Some held
               | None => Some (Some uuid)
               end;
     log_timestamp := log_timestamp entry; log_requestId := log_requestId entry;
     log_request := log_request entry; log_mode := log_mode entry;
     log_exitCode := log_exitCode entry; log_exitSignal := log_exitSignal entry;
     log_status := log_status entry; log_cancelled := log_cancelled entry;
     log_cancelReason := log_cancelReason entry; log_completedAt := log_completedAt entry;
     log_durationMs := log_durationMs entry; log_stdoutLength := log_stdoutLength entry;
     log_stderrLength := log_stderrLength entry;
     log_affectedMailboxes := log_affectedMailboxes entry |}.

(** [appendLogEntry(entry)]: the stored record, or [None] when it
    rejects; [uuid] is what [randomUUID()] returns. *)
Definition appendLogEntry (fs : FsOutcome) (uuid : string) (entry : LogEntry)
    (file : list LogEntry) : option LogEntry * list LogEntry :=
  let record := stamp uuid entry in
  match fs with
  | FsOk => (Some record, file ++ [record])
  | FsFails => (None, file)
  end.

(** *** [POST /purge-sender] *)

Section Purge.
(** The three regular expressions of the close handler, run by the
    host over the standard output: the deduplicated addresses. *)
Variable affectedMailboxes : string -> list string.

(** The route up to the registration of the handlers. *)
Definition spawnPurge (rid : string) (req : PurgeRequest) (stream scriptExists : bool)
    (now : Z) (sv : Server) : Server :=
  if negb scriptExists then send rid [NextError 500 "Purge script not found on server."] sv
  else
    let purgeContext :=
      {| requestId := rid; child := Some OwnChild; cancelled := false;
         cancelReason := None; wantsStream := stream |} in
    let op := {| request := req; startedAt := now; stdout := []; stderr := [];
                 process := {| exitCode := None |}; context := purgeContext |} in
    let sv := {| activePurges := <[rid := rid]> (activePurges sv);
                 operations := <[rid := op]> (operations sv);
                 logFile := logFile sv; sent := sent sv |} in
    if stream then send rid [SseEvent "start" None] sv else sv.

(** What happens to the operation [rid] after the spawn.  [Exited code]
    is the exit of the child process: [code] is what [child.exitCode]
    holds from then on, [None] for a process that was ended by a
    signal. *)
Inductive Event :=
| Stdout (text : string)
| Stderr (text : string)
| Exited (code : option Z)
| RequestClosed (kill : KillOutcome)
| ChildError (msg : string)
| ChildClose (code : option Z) (signal : option string) (completedAt : Z)
    (fs : FsOutcome) (uuid : string)
| CancelRequest (from target : string) (kill : KillOutcome).

Definition is_close (ev : Event) : bool :=
  match ev with ChildClose _ _ _ _ _ => true | _ => false end.

Definition executionMode (req : PurgeRequest) : string :=
  if purge_simulate req then "simulation"
  else if allowHardDelete req then "hard-delete" else "soft-delete".

Definition classify (wasCancelled : bool) (code : option Z) (sim : bool) : string :=
  if wasCancelled then "cancelled"
  else if bool_decide (code = Some 0) then (if sim then "simulated" else "completed")
  else "failed".

(** The [logEntry] object of the close handler. *)
Definition assemble (rid : string) (op : Operation) (code : option Z)
    (signal : option string) (completedAt : Z) : LogEntry :=
  let stdoutText := join EmptyString (stdout op) in
  let stderrText := join EmptyString (stderr op) in
  let purgeContext := context op in
  let req := request op in
  let wasCancelled := cancelled purgeContext in
  {| log_id := None; log_timestamp := startedAt op; log_requestId := rid;
     log_request := req; log_mode := executionMode req;
     log_exitCode := code; log_exitSignal := or_null signal;
     log_status := classify wasCancelled code (purge_simulate req);
     log_cancelled := wasCancelled;
     log_cancelReason := or_null (cancelReason purgeContext);
     log_completedAt := completedAt; log_durationMs := completedAt - startedAt op;
     log_stdoutLength := String.length stdoutText;
     log_stderrLength := String.length stderrText;
     log_affectedMailboxes := affectedMailboxes stdoutText |}.

(** [child.on("close", ...)] *)
Definition onClose (rid : string) (op : Operation) (code : option Z)
    (signal : option string) (completedAt : Z) (fs : FsOutcome) (uuid : string)
    (sv : Server) : Server :=
  let purgeContext := context op in
  let sv := deregister rid sv in
  let sv := set_operation rid (with_context (detach_child purgeContext) op) sv in
  let logEntry := assemble rid op code signal completedAt in
  let status := log_status logEntry in
  let '(stored, file) := appendLogEntry fs uuid logEntry (logFile sv) in
  let persistedLog := default logEntry stored in
  let sv := {| activePurges := activePurges sv; operations := operations sv;
               logFile := file; sent := sent sv |} in
  if wantsStream purgeContext
  then send rid [SseEvent "end" (Some status); EndResponse] sv
  else send rid [JsonResponse 200 status (Some persistedLog)] sv.

(** [child.on("error", ...)] *)
Definition onError (rid : string) (op : Operation) (sv : Server) : Server :=
  let sv := deregister rid sv in
  let sv := set_operation rid (with_context (detach_child (context op)) op) sv in
  if wantsStream (context op)
  then send rid [SseEvent "error" None; EndResponse] sv
  else send rid [NextError 500 "Failed to launch PowerShell"] sv.

(** [req.on("close", ...)] *)
Definition onRequestClosed (rid : string) (op : Operation) (sv : Server) : Server :=
  if wantsStream (context op) && bool_decide (exitCode (process op) = None) then
    set_operation rid (with_context (mark_cancelled "connection_closed" (context op)) op) sv
  else sv.

Definition push_output (out : bool) (text : string) (op : Operation) : Operation :=
  {| request := request op; startedAt := startedAt op;
     stdout := if out then stdout op ++ [text] else stdout op;
     stderr := if out then stderr op else stderr op ++ [text];
     process := process op; context := context op |}.

Definition set_exitCode (code : option Z) (op : Operation) : Operation :=
  {| request := request op; startedAt := startedAt op; stdout := stdout op;
     stderr := stderr op; process := {| exitCode := code |}; context := context op |}.

(** One event in the life of the operation [rid]: an event of its child
    process or of its request, dispatched to the handler the route
    registered (the handlers are closures of the operation, so nothing
    happens for a request that never spawned), or a cancel request
    arriving meanwhile. *)
Definition handle (rid : string) (ev : Event) (sv : Server) : Server :=
  match ev with
  | CancelRequest from target kill => cancel from target kill sv
  | _ =>
      match operations sv !! rid with
      | None => sv
      | Some op =>
          match ev with
          | Stdout text =>
              let sv := set_operation rid (push_output true text op) sv in
              if wantsStream (context op) then send rid [SseEvent "stdout" None] sv else sv
          | Stderr text =>
              let sv := set_operation rid (push_output false text op) sv in
              if wantsStream (context op) then send rid [SseEvent "stderr" None] sv else sv
          | Exited code => set_operation rid (set_exitCode code op) sv
          | RequestClosed _ => onRequestClosed rid op sv
          | ChildError _ => onError rid op sv
          | ChildClose code signal completedAt fs uuid =>
              onClose rid op code signal completedAt fs uuid sv
          | CancelRequest _ _ _ => sv
          end
      end
  end.

Definition run (rid : string) (evs : list Event) (sv : Server) : Server :=
  fold_left (fun sv ev => handle rid ev sv) evs sv.

End Purge.
End ExchangeRoutes.

(* ===================================================================== *)
(** * A sample deployment *)
(* ===================================================================== *)

(** A small organisation to run the definitions on: four searchable
    mailboxes, listed out of order; [a@x.com] holds three matching
    messages served one per page, [d@x.com] one, [b@x.com] none, and no
    client can be set up for [c@x.com]. *)
Module Sample.
Import Js ExchangeService.

Definition config : Config :=
  {| ewsUrl := Some "https://mail.x.com/EWS/Exchange.asmx"; autodiscoverEmail := None;
     username := Some "svc"; password := Some "secret"; domain := None;
     ignoreSsl := false; defaultFolders := ["Inbox"];
     maxPerMailbox := config_maxPerMailbox None;
     pageSize := config_pageSize None;
     maxConcurrency := config_maxConcurrency None |}.

Definition DeleteMode_value (m : DeleteMode) : Z :=
  match m with HardDelete => 0 | SoftDelete => 1 | MoveToDeletedItems => 2 end.

Definition WellKnownFolderName_value (f : WellKnownFolderName) : Z :=
  match f with
  | DeletedItems => 2 | Drafts => 3 | Inbox => 4 | SentItems => 8
  | JunkEmail => 13 | ArchiveRoot => 24
  end.

(** Comparison by character code, as a comparator. *)
Definition localeCompare (a b : string) : Z :=
  match String_as_OT.compare a b with
  | Lt => -1
  | Eq => 0
  | Gt => 1
  end.

Definition Date_parse (s : string) : option Z := None.
Definition toISOString (t : Z) : string := "1970-01-01T00:00:00.000Z".

Definition mail (n : Z) : Item :=
  {| Id := Some {| UniqueId := "id-" +:+ pretty n; ChangeKey := "ck" |};
     Subject := Some "Invoice"; From := Some "evil@x.com"; Sender := Some "evil@x.com";
     DateTimeReceived := None; InternetMessageId := None; HasAttachments := false;
     Size := Some 1024; Body := Some "Please pay" |}.

Definition box (address : string) : SearchableMailbox :=
  {| DisplayName := address; PrimarySmtpAddress := address;
     IsExternalMailbox := false; IsSearchable := true; ReferenceId := address |}.

Definition endpoint : Endpoint unit :=
  {| connect := fun context =>
       if bool_decide (ctx_mailbox context = Some "c@x.com")
       then Raises {| status := None; message := "connect ETIMEDOUT";
                      details := []; expose := false |}
       else Returns ();
     GetSearchableMailboxes := fun s =>
       (Returns (Some (Some [box "d@x.com"; box "a@x.com"; box "b@x.com"; box "c@x.com"])), s);
     FindItems := fun s impersonated fid q view =>
       (Returns (Some
          (if bool_decide (impersonated = Some "a@x.com") then
             {| Items := Some [mail (Offset view)];
                MoreAvailable := Offset view <? 2;
                NextPageOffset := Offset view + 1 |}
           else if bool_decide (impersonated = Some "d@x.com") then
             {| Items := Some [mail 7]; MoreAvailable := false; NextPageOffset := 1 |}
           else {| Items := Some []; MoreAvailable := false; NextPageOffset := 0 |})), s);
     DeleteItems := fun s impersonated ids mode_ => (Returns (), s) |}.

Definition no_context : Context :=
  {| requestId := Some "req-1"; operation := None; ctx_mailbox := None; ctx_folder := None |}.

Definition by_sender : QueryBuilder.AqsFilter :=
  {| QueryBuilder.sender := Some "evil@x.com"; QueryBuilder.subject := None;
     QueryBuilder.body := None; QueryBuilder.keywords := None;
     QueryBuilder.receivedFrom := None; QueryBuilder.receivedTo := None;
     QueryBuilder.hasAttachments := None; QueryBuilder.importance := None |}.

(** The request [{ sender: "evil@x.com", maxPerMailbox: 50 }], with and
    without [simulate] and [deleteMode]. *)
Definition request (sim : option bool) (dm : option string) : Filters :=
  {| aqs := by_sender; f_folders := None; f_maxPerMailbox := Some 50;
     f_deleteMode := dm; f_simulate := sim |}.

Definition inbox : FolderDescriptor :=
  {| name := "Inbox"; folderId := JsNumber 4 |}.

Definition as_mailbox (address : string) : Service unit :=
  {| session := (); ImpersonatedUserId := Some address; calls := [] |}.

Definition deleteMessages :=
  ExchangeService.deleteMessages unit endpoint config DeleteMode_value
    WellKnownFolderName_value localeCompare Date_parse toISOString.

Definition searchMessages :=
  ExchangeService.searchMessages unit endpoint config
    WellKnownFolderName_value localeCompare Date_parse toISOString.

Definition entry (address : string) : MailboxEntry := toMailboxEntry (box address).

Definition directory : list MailboxEntry :=
  [entry "d@x.com"; entry "a@x.com"; entry "b@x.com"; entry "c@x.com"].

(** ** Requests to the routes *)

Definition is_email (s : string) : bool :=
  match String.index 0 "@" s with Some _ => true | None => false end.

Definition iso_date (j : ExchangeRoutes.Json) : option Z :=
  match j with
  | ExchangeRoutes.JString "2024-01-01T00:00:00.000Z" => Some 1704067200000
  | ExchangeRoutes.JString "2024-02-01T00:00:00.000Z" => Some 1706745600000
  | _ => None
  end.

Definition to_number (j : ExchangeRoutes.Json) : option Z :=
  match j with ExchangeRoutes.JNumber n => Some n | _ => None end.

Definition to_boolean (j : ExchangeRoutes.Json) : option bool :=
  match j with ExchangeRoutes.JBool b => Some b | _ => None end.

(** [{ subject: "Invoice" }] *)
Definition subject_only : ExchangeRoutes.Body :=
  {| ExchangeRoutes.sender := None;
     ExchangeRoutes.subject := Some (ExchangeRoutes.JString "Invoice");
     ExchangeRoutes.receivedFrom := None; ExchangeRoutes.receivedTo := None;
     ExchangeRoutes.maxPerMailbox := None; ExchangeRoutes.simulate := None |}.

(** [{ sender: "evil@x.com", maxPerMailbox: 50 }] *)
Definition sender_only : ExchangeRoutes.Body :=
  {| ExchangeRoutes.sender := Some (ExchangeRoutes.JString "evil@x.com");
     ExchangeRoutes.subject := None;
     ExchangeRoutes.receivedFrom := None; ExchangeRoutes.receivedTo := None;
     ExchangeRoutes.maxPerMailbox := Some (ExchangeRoutes.JNumber 50);
     ExchangeRoutes.simulate := None |}.

Definition accepts := ExchangeRoutes.accepts is_email iso_date to_number to_boolean.
Definition well_formed := ExchangeRoutes.well_formed is_email iso_date to_number to_boolean.

(** ** A purge operation *)

Definition affected (stdoutText : string) : list string := [].

Definition purge : ExchangeRoutes.PurgeRequest :=
  {| ExchangeRoutes.senderEmail := "evil@x.com"; ExchangeRoutes.subjectContains := None;
     ExchangeRoutes.subjectEqual := None; ExchangeRoutes.purge_simulate := false;
     ExchangeRoutes.allowHardDelete := false; ExchangeRoutes.method := "ComplianceSearch";
     ExchangeRoutes.daysBack := 30 |}.

Definition idle : ExchangeRoutes.Server :=
  {| ExchangeRoutes.activePurges := ∅; ExchangeRoutes.operations := ∅;
     ExchangeRoutes.logFile := []; ExchangeRoutes.sent := [] |}.

(** The server after [POST /purge-sender] spawned the operation [op-1]
    for a non-streaming client. *)
Definition spawned : ExchangeRoutes.Server :=
  ExchangeRoutes.spawnPurge "op-1" purge false true 1000 idle.

Definition run := ExchangeRoutes.run affected.
End Sample.


(* ===================================================================== *)
(** * Notions used to state further properties of the service *)
(* ===================================================================== *)

Module Trace.
Import Js ExchangeService.

(** A [FindItems] call made as [who], on one of the folders [fids], with
    the query [q], whose page size is at most [limit] and at most the
    configured page size [page], and at least one when [page] is. *)
Definition scan_call (who : option string) (fids : list JsValue) (q : string)
    (limit page : Z) (c : RemoteCall) : Prop :=
  match c with
  | CallFindItems impersonated fid q' view =>
      impersonated = who /\ fid ∈ fids /\ q' = q /\
      PageSize view <= limit /\ PageSize view <= page /\ (1 <= page -> 1 <= PageSize view)
  | _ => False
  end.

(** [svc'] is [svc] after some calls that all satisfy [P], the
    impersonation being left alone. *)
Definition extends_with {Session : Type} (P : RemoteCall -> Prop)
    (svc svc' : Service Session) : Prop :=
  ImpersonatedUserId svc' = ImpersonatedUserId svc /\
  exists cs, calls svc' = calls svc ++ cs /\ Forall P cs.

(** A match record produced for the mailbox [mbx] from the folder named
    [fld]. *)
Definition tagged (mbx fld : string) (e : Entry) : Prop :=
  in_mailbox (metadata e) = mbx /\ in_folder (metadata e) = fld /\
  id (metadata e) = UniqueId <$> Id (item e).

(** The page-size part of [scan_call]. *)
Definition page_bounded (limit page : Z) (c : RemoteCall) : Prop :=
  match c with
  | CallFindItems _ _ _ view =>
      PageSize view <= limit /\ PageSize view <= page /\ (1 <= page -> 1 <= PageSize view)
  | _ => True
  end.

(** What the directory lookup sends: nothing when no service object
    could be created, one [GetSearchableMailboxes] call otherwise. *)
Definition directory_calls (cs : list RemoteCall) : Prop :=
  cs = [] \/ cs = [CallGetSearchableMailboxes].

(** The calls of one mailbox task of a search. *)
Definition search_segment (fids : list JsValue) (q : string) (limit page : Z)
    (mbx : MailboxEntry) (cs : list RemoteCall) : Prop :=
  Forall (scan_call (Some (smtpAddress mbx)) fids q limit page) cs.

(** The calls of one mailbox task of a delete: the scans, then at most
    one [DeleteItems] call, which is made only when the request is not a
    simulation, carries the resolved mode and between one and [limit]
    identifiers. *)
Definition delete_segment (fids : list JsValue) (q : string) (limit page : Z)
    (deleteMode : JsValue) (sim : bool) (mbx : MailboxEntry) (cs : list RemoteCall) : Prop :=
  exists scans deletes,
    cs = scans ++ deletes /\
    Forall (scan_call (Some (smtpAddress mbx)) fids q limit page) scans /\
    (deletes = [] \/
     exists ids, sim = false /\ ids <> [] /\ Z.of_nat (length ids) <= limit /\
       deletes = [CallDeleteItems (Some (smtpAddress mbx)) ids deleteMode]).

(** The result object comes from one of the [mailboxes]. *)
Definition from_directory (mailboxes : list MailboxEntry) (o : ResultObject) : Prop :=
  exists m, m ∈ mailboxes /\ mailbox o = smtpAddress m /\
            displayName o = entry_displayName m.

(** A success object: no [error], between one and [limit] matches, all
    of them of the object's mailbox and from one of the folders [names],
    and [totalMatches] their number. *)
Definition success_of (mailboxes : list MailboxEntry) (names : list string) (limit : Z)
    (o : ResultObject) : Prop :=
  error o = None /\ from_directory mailboxes o /\
  exists found,
    matches o = Some found /\ found <> [] /\
    totalMatches o = Some (Z.of_nat (length found)) /\
    Z.of_nat (length found) <= limit /\
    Forall (fun r => in_mailbox r = mailbox o /\ in_folder r ∈ names) found.

(** A failure object: a non-empty [error] message and no matches. *)
Definition failure_of (mailboxes : list MailboxEntry) (o : ResultObject) : Prop :=
  truthy (error o) = true /\ from_directory mailboxes o /\
  matches o = None /\ totalMatches o = None /\ deleted o = None /\ folders o = None.

(** The number of matches a result object lists. *)
Definition matchCount (o : ResultObject) : Z :=
  Z.of_nat (length (default [] (matches o))).

(** What a delete adds to a success object: [deleted] is zero for a
    simulation and the number of matches otherwise, and [folders] lists,
    without repetition, exactly the folders the matches come from. *)
Definition delete_report (sim : bool) (o : ResultObject) : Prop :=
  deleted o = Some (if sim then 0 else matchCount o) /\
  exists fl, folders o = Some fl /\ NoDup fl /\
    forall f, f ∈ fl <-> f ∈ map in_folder (default [] (matches o)).
End Trace.


(* ===================================================================== *)
(** * The search and delete routes, end to end *)
(* ===================================================================== *)

Module Api.
Import Js ExchangeService.

(** What a route does with a request: it answers with [res.json], or it
    hands an error to [next]: the 400 of [validateBody] with the issues
    as its details, or whatever the handler threw. *)
Inductive Response (A : Type) : Type :=
| Replied (data : A)
| BadRequest (issues : list ExchangeRoutes.Issue)
| Failed (e : JsError)
| Pending.
Arguments Replied {A} data.
Arguments BadRequest {A} issues.
Arguments Failed {A} e.
Arguments Pending {A}.

(** [req.validatedBody] read as the [filters] argument of the service:
    the keys the schema knows, unknown keys having been stripped; the
    dates are the [Date] objects Joi made of them. *)
Definition toFilters (p : ExchangeRoutes.Payload) : Filters :=
  {| aqs :=
       {| QueryBuilder.sender := ExchangeRoutes.p_sender p;
          QueryBuilder.subject := ExchangeRoutes.p_subject p;
          QueryBuilder.body := None;
          QueryBuilder.keywords := None;
          QueryBuilder.receivedFrom :=
            (fun t => QueryBuilder.DateObject (Some t)) <$> ExchangeRoutes.p_receivedFrom p;
          QueryBuilder.receivedTo :=
            (fun t => QueryBuilder.DateObject (Some t)) <$> ExchangeRoutes.p_receivedTo p;
          QueryBuilder.hasAttachments := None;
          QueryBuilder.importance := None |};
     f_folders := None;
     f_maxPerMailbox := ExchangeRoutes.p_maxPerMailbox p;
     f_deleteMode := None;
     f_simulate := ExchangeRoutes.p_simulate p |}.

(** [{ requestId: req.requestId }] *)
Definition requestContext (requestId : string) : Context :=
  {| requestId := Some requestId; operation := None; ctx_mailbox := None; ctx_folder := None |}.

(** [asyncHandler]: the resolved data is sent, a rejection goes to
    [next]. *)
Definition asyncHandler {A} (r : Completion A * list RemoteCall)
  : Response A * list RemoteCall :=
  match r with
  | (Resolved data, cs) => (Replied data, cs)
  | (Rejected e, cs) => (Failed e, cs)
  | (Unsettled, cs) => (Pending, cs)
  end.

Section Routes.
Variable Session : Type.
Variable ews : Endpoint Session.
Variable config : Config.
Variable DeleteMode_value : DeleteMode -> Z.
Variable WellKnownFolderName_value : WellKnownFolderName -> Z.
Variable localeCompare : string -> string -> Z.
Variable Date_parse : string -> option Z.
Variable toISOString : Z -> string.
Variable is_email : string -> bool.
Variable iso_date : ExchangeRoutes.Json -> option Z.
Variable to_number : ExchangeRoutes.Json -> option Z.
Variable to_boolean : ExchangeRoutes.Json -> option bool.

(** [router.post("/search", validateBody(filterBaseSchema), ...)] *)
Definition post_search (fuel : nat) (requestId : string) (body : ExchangeRoutes.Body)
  : Response (AggregateResult SearchSummary) * list RemoteCall :=
  match ExchangeRoutes.validate is_email iso_date to_number to_boolean
          ExchangeRoutes.filterBaseSchema body with
  | ExchangeRoutes.Invalid issues => (BadRequest issues, [])
  | ExchangeRoutes.Accepted payload =>
      asyncHandler
        (searchMessages Session ews config WellKnownFolderName_value localeCompare
           Date_parse toISOString fuel (toFilters payload) (requestContext requestId))
  end.

(** [router.post("/delete", validateBody(deleteSchema), ...)] *)
Definition post_delete (fuel : nat) (requestId : string) (body : ExchangeRoutes.Body)
  : Response (AggregateResult DeleteSummary) * list RemoteCall :=
  match ExchangeRoutes.validate is_email iso_date to_number to_boolean
          ExchangeRoutes.deleteSchema body with
  | ExchangeRoutes.Invalid issues => (BadRequest issues, [])
  | ExchangeRoutes.Accepted payload =>
      asyncHandler
        (deleteMessages Session ews config DeleteMode_value WellKnownFolderName_value
           localeCompare Date_parse toISOString fuel (toFilters payload)
           (requestContext requestId))
  end.
End Routes.

(** A call that scans with the query [q]. *)
Definition scans_with (q : string) (c : RemoteCall) : Prop :=
  match c with
  | CallFindItems _ _ q' _ => q' = q
  | _ => False
  end.

(** A call that deletes with the mode [m]. *)
Definition deletes_with (m : JsValue) (c : RemoteCall) : Prop :=
  match c with
  | CallDeleteItems _ _ m' => m' = m
  | _ => False
  end.

(** The error-handling middleware of the application, as far as the
    status and the message of the answer go.  An error without a status
    is answered with 500; the message of an error that is not exposed is
    replaced. *)
Record ErrorAnswer := {
  http : Z;
  answer_message : string;
  answer_status : Z;
  answer_requestId : string
}.

Definition errorHandler (requestId : string) (err : JsError) : ErrorAnswer :=
  let status := match status err with
                | Some s => if s =? 0 then 500 else s
                | None => 500
                end in
  let expose := expose err in
  {| http := status;
     answer_message :=
       if expose
       then (if truthy (Some (message err)) then message err else "Unexpected server error")
       else "Unexpected server error";
     answer_status := status;
     answer_requestId := requestId |}.
End Api.


(* ===================================================================== *)
(** * utils/logStore.js: reading the log back *)
(* ===================================================================== *)

Module LogStore.
Import Js ExchangeRoutes.

(** What [fs.readFile] gives: the lines of the file, or an error with
    its [code].  A line is the record [appendLogEntry] wrote there, or
    nothing when it is empty or [JSON.parse] rejects it. *)
Inductive ReadOutcome :=
| Content (lines : list (option LogEntry))
| ReadError (code : string).

(** [entries.slice(0, limit)]; a negative [limit] counts from the end. *)
Definition slice_to {A} (limit : Z) (l : list A) : list A :=
  if limit <? 0 then take (Z.to_nat (Z.of_nat (length l) + limit)) l
  else take (Z.to_nat limit) l.

(** The comparator [(a, b) => time(b.timestamp) - time(a.timestamp)]. *)
Definition newest_first (a b : LogEntry) : Z := log_timestamp b - log_timestamp a.

(** [readLogEntries({ limit = 200 } = {})]; [None] is a rejection. *)
Definition readLogEntries (limit : option Z) (file : ReadOutcome) : option (list LogEntry) :=
  match file with
  | Content lines =>
      let limit := default 200 limit in
      let entries := sort newest_first (omap (fun line : option LogEntry => line) lines) in
      if negb (limit =? 0) && (Z.of_nat (length entries) >? limit)
      then Some (slice_to limit entries)
      else Some entries
  | ReadError code => if String.eqb code "ENOENT" then Some [] else None
  end.

(** [GET /purge-logs]: [readLogEntries({ limit: 500 })]. *)
Definition get_purge_logs (file : ReadOutcome) : option (list LogEntry) :=
  readLogEntries (Some 500) file.

(** The file as [readFile] finds it after the given records were
    appended, one line each. *)
Definition written (file : list LogEntry) : ReadOutcome := Content (map Some file).
End LogStore.


(* ===================================================================== *)
(** * Reading a purge operation's events *)
(* ===================================================================== *)

Module PurgeTrace.
Import Js ExchangeRoutes.

(** The chunks the child wrote to its standard output, in order of
    arrival. *)
Definition stdout_of (evs : list Event) : list string :=
  evs ≫= (fun ev => match ev with Stdout text => [text] | _ => [] end).

(** The chunks the child wrote to its standard error. *)
Definition stderr_of (evs : list Event) : list string :=
  evs ≫= (fun ev => match ev with Stderr text => [text] | _ => [] end).


(** The context of an operation is marked as cancelled for [reason]. *)
Definition cancelled_for (reason : string) (op : Operation) : Prop :=
  cancelled (context op) = true /\ cancelReason (context op) = Some reason /\
  reason <> EmptyString.

(** The total length of some chunks. *)
Definition total_length (chunks : list string) : nat :=
  foldr (fun chunk n => (String.length chunk + n)%nat) 0%nat chunks.
End PurgeTrace.


(* ===================================================================== *)
(** * Further sample data *)
(* ===================================================================== *)

Module Fixtures.
Import Js ExchangeService ExchangeRoutes.

(** The sample deployment without a password. *)
Definition unconfigured : Config :=
  {| ewsUrl := Some "https://mail.x.com/EWS/Exchange.asmx"; autodiscoverEmail := None;
     username := Some "svc"; password := None; domain := None;
     ignoreSsl := false; defaultFolders := ["Inbox"];
     ExchangeService.maxPerMailbox := config_maxPerMailbox None;
     pageSize := config_pageSize None;
     maxConcurrency := config_maxConcurrency None |}.

(** A server that refuses every [FindItems] call. *)
Definition failing : Endpoint unit :=
  {| connect := fun context => Returns ();
     GetSearchableMailboxes := fun s => (Returns (Some (Some [Sample.box "a@x.com"])), s);
     FindItems := fun s impersonated fid q view =>
       (Raises {| status := None; message := "ErrorAccessDenied";
                  details := []; expose := false |}, s);
     DeleteItems := fun s impersonated ids mode_ => (Returns (), s) |}.

(** A text with a double quote in it: [say "hi"]. *)
Definition quoting : string :=
  "say " +:+ String dquote "hi" +:+ String dquote EmptyString.

(** A finished soft-delete run that started at [time]. *)
Definition logged (time : Z) : LogEntry :=
  {| log_id := None; log_timestamp := time; log_requestId := "op-" +:+ pretty time;
     log_request := Sample.purge; log_mode := "soft-delete";
     log_exitCode := Some 0; log_exitSignal := None; log_status := "completed";
     log_cancelled := false; log_cancelReason := None;
     log_completedAt := time + 500; log_durationMs := 500;
     log_stdoutLength := 0; log_stderrLength := 0; log_affectedMailboxes := [] |}.

(** The sample operation after a cancel request from [req-2]. *)
Definition cancelling : Server :=
  Sample.run "op-1" [CancelRequest "req-2" "op-1" KillTrue] Sample.spawned.

(** [{ sender: "evil@x.com", simulate: false }] *)
Definition live_delete : Body :=
  {| ExchangeRoutes.sender := Some (JString "evil@x.com");
     ExchangeRoutes.subject := None;
     ExchangeRoutes.receivedFrom := None; ExchangeRoutes.receivedTo := None;
     ExchangeRoutes.maxPerMailbox := None;
     ExchangeRoutes.simulate := Some (JBool false) |}.

(** [{ sender: "evil@x.com", receivedFrom: February, receivedTo: January }] *)
Definition backwards : Body :=
  {| ExchangeRoutes.sender := Some (JString "evil@x.com");
     ExchangeRoutes.subject := None;
     ExchangeRoutes.receivedFrom := Some (JString "2024-02-01T00:00:00.000Z");
     ExchangeRoutes.receivedTo := Some (JString "2024-01-01T00:00:00.000Z");
     ExchangeRoutes.maxPerMailbox := None;
     ExchangeRoutes.simulate := None |}.

(** A comparator that ignores letter case, as the first level of a
    locale's collation does: the lower-cased strings are compared by
    character code. *)
Definition caseless (a b : string) : Z :=
  Sample.localeCompare (toLowerCase a) (toLowerCase b).

(** A directory of two mailboxes, [B@x.com] and [a@x.com], each with one
    matching message. *)
Definition two_cases : Endpoint unit :=
  {| connect := fun context => Returns ();
     GetSearchableMailboxes := fun s =>
       (Returns (Some (Some [Sample.box "B@x.com"; Sample.box "a@x.com"])), s);
     FindItems := fun s impersonated fid q view =>
       (Returns (Some {| Items := Some [Sample.mail 1]; MoreAvailable := false;
                         NextPageOffset := 1 |}), s);
     DeleteItems := fun s impersonated ids mode_ => (Returns (), s) |}.
End Fixtures.


(* ===================================================================== *)
(** * Orders on mailbox addresses *)
(* ===================================================================== *)

Module Collation.

(** Case-sensitive lexicographic order: the strings are compared by
    character code, position by position. *)
Definition lexicographic (a b : string) : Prop := a = b \/ String_as_OT.lt a b.

(** The comparator is comparison by character code. *)
Definition by_code (compare : string -> string -> Z) : Prop :=
  forall a b, compare a b <= 0 <-> lexicographic a b.
End Collation.
(* ===================================================================== *)
(** * Theorems: the query compiler *)
(* ===================================================================== *)

Section JoinFacts.
Import Js.

Lemma join_cons_cons sep x y l :
  join sep (x :: y :: l) = x +:+ sep +:+ join sep (y :: l).
Proof. reflexivity. Qed.

Lemma string_app_assoc (a b c : string) : (a +:+ b) +:+ c = a +:+ (b +:+ c).
Proof.
  induction a as [|ch a IH]; [reflexivity|].
  change (String ch ((a +:+ b) +:+ c) = String ch (a +:+ (b +:+ c))).
  by rewrite IH.
Qed.

Lemma join_app sep l1 l2 :
  l1 <> [] -> l2 <> [] ->
  join sep (l1 ++ l2) = join sep l1 +:+ sep +:+ join sep l2.
Proof.
  intros H1 H2. induction l1 as [|x l1 IH]; [done|].
  destruct l1 as [|y l1].
  - destruct l2 as [|z l2]; [done|]. reflexivity.
  - change ((x :: y :: l1) ++ l2) with (x :: y :: (l1 ++ l2)).
    rewrite !join_cons_cons.
    change (y :: l1 ++ l2) with ((y :: l1) ++ l2).
    rewrite IH by done. by rewrite !string_app_assoc.
Qed.

(** Joining a list one of whose elements is itself a join is joining the
    flattened list. *)
Lemma join_nested sep pre ks post :
  ks <> [] ->
  join sep (pre ++ [join sep ks] ++ post) = join sep (pre ++ ks ++ post).
Proof.
  intros Hks.
  assert (Hmid : join sep ([join sep ks] ++ post) = join sep (ks ++ post)).
  { destruct post as [|p post].
    - by rewrite !app_nil_r.
    - rewrite !join_app by done. reflexivity. }
  destruct pre as [|a pre]; [exact Hmid|].
  rewrite !(join_app sep (a :: pre)); try done.
  - by rewrite Hmid.
  - destruct ks; done.
Qed.

Lemma join_quoted_nonempty sep (f : string -> string) l :
  (forall s, f s <> EmptyString) -> l <> [] -> join sep (map f l) <> EmptyString.
Proof.
  intros Hf Hl. destruct l as [|x l]; [done|]. simpl.
  destruct (map f l) eqn:E.
  - apply Hf.
  - specialize (Hf x). destruct (f x); [done|]. simpl. discriminate.
Qed.
End JoinFacts.

Section QueryCompiler.
Import Js QueryBuilder.
Variable Date_parse : string -> option Z.
Variable toISOString : Z -> string.

Lemma push_if_when guard x clauses :
  push_if guard x clauses = clauses ++ when guard [x].
Proof. destruct guard; simpl; [reflexivity | by rewrite app_nil_r]. Qed.

Lemma quoted_nonempty s : quoted s <> EmptyString.
Proof. unfold quoted. discriminate. Qed.

Lemma length_zero_nil {A} (l : list A) :
  negb (Nat.eqb (length l) 0) = match l with [] => false | _ => true end.
Proof. by destruct l. Qed.

(** The keyword slot of the code: one clause, itself a join, exactly when
    some keyword survives the [filter(Boolean)]. *)
Lemma keyword_slot f :
  when (truthy (Some (keywordString (keywords f)))) [keywordString (keywords f)] =
  match spec_keywords f with
  | [] => []
  | atoms => [join " AND " atoms]
  end.
Proof.
  unfold keywordString, spec_keywords.
  destruct (keywords f) as [ks|]; [|reflexivity].
  destruct ks as [|k ks]; [reflexivity|].
  change (default [] (Some (k :: ks))) with (k :: ks).
  change (negb (Nat.eqb (length (k :: ks)) 0)) with true. cbv iota.
  generalize (filter (fun w => negb (String.eqb w EmptyString) = true) (k :: ks)).
  intros [|a kept]; [reflexivity|].
  pose proof (join_quoted_nonempty " AND " quoted (a :: kept) quoted_nonempty) as Hne.
  unfold truthy, when.
  change (match map quoted (a :: kept) with
          | [] => []
          | s :: l => [join " AND " (s :: l)]
          end) with [join " AND " (map quoted (a :: kept))].
  destruct (join " AND " (map quoted (a :: kept))) eqn:EJ.
  - exfalso. by apply Hne.
  - reflexivity.
Qed.

Lemma spec_attachment_when f :
  when (bool_decide (is_Some (hasAttachments f)))
    ["hasattachment:" +:+ string_of_bool (default false (hasAttachments f))] =
  spec_attachment f.
Proof. unfold spec_attachment. by destruct (hasAttachments f). Qed.

Lemma buildAqsQuery_clauses f :
  buildAqsQuery Date_parse toISOString f =
  let clauses :=
    (spec_sender f ++ spec_subject f ++ spec_body f) ++
    when (truthy (Some (keywordString (keywords f)))) [keywordString (keywords f)] ++
    (spec_received_after Date_parse toISOString f ++
     spec_received_before Date_parse toISOString f ++
     spec_attachment f ++ spec_importance f) in
  match clauses with
  | [] => DEFAULT_QUERY
  | _ => join " AND " clauses
  end.
Proof.
  unfold buildAqsQuery. rewrite !push_if_when, spec_attachment_when.
  cbv zeta. rewrite length_zero_nil, app_nil_l.
  unfold spec_sender, spec_subject, spec_body, spec_received_after,
    spec_received_before, spec_importance.
  rewrite <- !app_assoc.
  match goal with |- _ = match ?l with _ => _ end => by destruct l end.
Qed.

End QueryCompiler.

(* ===================================================================== *)
(** * Theorems: the folder scanner *)
(* ===================================================================== *)

Section FolderScanner.
Import Js ExchangeService.
Context {Session : Type} (ews : Endpoint Session) (config : Config).

Local Abbreviation pageLoop := (pageLoop Session ews config).
Local Abbreviation findItemsInFolder := (findItemsInFolder Session ews config).
Local Abbreviation call_FindItems := (call_FindItems Session ews).

(** A remote call extends the record of calls by itself and leaves the
    impersonation alone. *)
Lemma call_FindItems_effect fid q view svc r svc' :
  call_FindItems fid q view svc = (r, svc') ->
  calls svc' = calls svc ++ [CallFindItems (ImpersonatedUserId svc) fid q view] /\
  ImpersonatedUserId svc' = ImpersonatedUserId svc.
Proof.
  unfold ExchangeService.call_FindItems.
  destruct (FindItems ews _ _ _ _ _) as [[x|e] s]; intros [= <- <-]; by simpl.
Qed.

Lemma appendItems_length limit t its items items' :
  appendItems limit t its items = Some items' ->
  Z.of_nat (length items) <= limit ->
  (length items <= length items')%nat /\ Z.of_nat (length items') <= limit.
Proof.
  revert items. induction its as [|it its IH]; intros items H Hle; simpl in H.
  - injection H as <-. lia.
  - destruct (Z.of_nat (length items) >=? limit) eqn:E.
    + by apply IH.
    + destruct (t it) as [md|]; [|done].
      apply IH in H; rewrite ?length_app in *; simpl in *; lia.
Qed.


Lemma appendResults_length limit t results items items' :
  appendResults limit t results items = Some items' ->
  Z.of_nat (length items) <= limit ->
  (length items <= length items')%nat /\ Z.of_nat (length items') <= limit.
Proof.
  unfold appendResults. destruct results as [r|]; [destruct (Items r)|];
    try (intros [= <-]; lia).
  apply appendItems_length.
Qed.

Lemma slice0_length {A} limit (items : list A) :
  0 <= limit -> Z.of_nat (length (slice0 limit items)) <= limit.
Proof. intros H. unfold slice0. rewrite length_take. lia. Qed.


Lemma pageLoop_bound fuel fid q limit t results items svc out svc' :
  0 <= limit ->
  pageLoop fuel fid q limit t results items svc = (Resolved out, svc') ->
  Z.of_nat (length out) <= limit.
Proof.
  intros Hlim. revert results items svc.
  induction fuel as [|fuel IH]; intros results items svc; simpl;
    destruct (moreAvailable results && (Z.of_nat (length items) <? limit)).
  - discriminate.
  - intros [= <- <-]. by apply slice0_length.
  - unfold bind at 1.
    destruct (call_FindItems _ _ _ svc) as [[r|e|] s1]; try discriminate.
    unfold bind, lift_throwing.
    destruct (appendResults limit t r items) as [items1|]; simpl; [|discriminate].
    apply IH.
  - intros [= <- <-]. by apply slice0_length.
Qed.

Lemma findItemsInFolder_bound fuel fd q limit mbx ctx svc out svc' :
  findItemsInFolder fuel fd q limit mbx ctx svc = (Resolved out, svc') ->
  Z.of_nat (length out) <= Z.max 0 limit /\ (limit <= 0 -> out = [] /\ svc' = svc).
Proof.
  unfold ExchangeService.findItemsInFolder.
  destruct (limit <=? 0) eqn:E.
  - apply Z.leb_le in E. intros [= <- <-]. simpl. split; [lia|done].
  - apply Z.leb_gt in E. intros H. split; [|lia].
    unfold try_catch, bind at 1 in H.
    destruct (call_FindItems _ _ _ svc) as [[r|e|] s1]; try discriminate.
    unfold bind, lift_throwing in H.
    destruct (appendResults limit _ r []) as [items1|]; simpl in H; [|discriminate].
    destruct (pageLoop _ _ _ _ _ _ _ _) as [[o|e|] s2] eqn:EL; try discriminate.
    injection H as <- <-. etrans; [eapply pageLoop_bound; [|exact EL]|]; lia.
Qed.



End FolderScanner.

(* ===================================================================== *)
(** * Theorems: the per-mailbox executor *)
(* ===================================================================== *)

Section Executor.
Import Js ExchangeService.
Context {Session : Type} (ews : Endpoint Session) (config : Config).

Local Abbreviation scanned := (scanned Session).

Lemma scanned_refl svc : scanned svc svc.
Proof. split; [done|]. exists []. by rewrite app_nil_r. Qed.

Lemma scanned_trans a b c : scanned a b -> scanned b c -> scanned a c.
Proof.
  intros [Hi1 (c1 & H1 & F1)] [Hi2 (c2 & H2 & F2)]. split; [congruence|].
  exists (c1 ++ c2). rewrite H2, H1, app_assoc. split; [done|].
  by apply Forall_app.
Qed.

Lemma call_FindItems_scanned fid q view svc r svc' :
  call_FindItems Session ews fid q view svc = (r, svc') -> scanned svc svc'.
Proof.
  intros H. apply call_FindItems_effect in H as [Hc Hi]. split; [done|].
  eexists. split; [exact Hc|]. by constructor.
Qed.

Lemma pageLoop_scanned fuel fid q limit t results items svc r svc' :
  pageLoop Session ews config fuel fid q limit t results items svc = (r, svc') ->
  scanned svc svc'.
Proof.
  revert results items svc.
  induction fuel as [|fuel IH]; intros results items svc; simpl;
    destruct (moreAvailable results && (Z.of_nat (length items) <? limit));
    try (intros [= <- <-]; apply scanned_refl).
  unfold bind at 1.
  destruct (call_FindItems _ _ _ _ _ svc) as [[x|e|] s1] eqn:EC;
    apply call_FindItems_scanned in EC; try (by intros [= <- <-]).
  unfold bind, lift_throwing.
  destruct (appendResults limit t x items) as [items1|]; simpl.
  - intros H. apply IH in H. by eapply scanned_trans.
  - by intros [= <- <-].
Qed.

Lemma findItemsInFolder_scanned fuel fd q limit mbx ctx svc r svc' :
  findItemsInFolder Session ews config fuel fd q limit mbx ctx svc = (r, svc') ->
  scanned svc svc'.
Proof.
  unfold findItemsInFolder. destruct (limit <=? 0).
  - intros [= <- <-]. apply scanned_refl.
  - unfold try_catch, bind at 1.
    destruct (call_FindItems _ _ _ _ _ svc) as [[x|e|] s1] eqn:EC;
      apply call_FindItems_scanned in EC; try (by intros [= <- <-]).
    unfold bind, lift_throwing.
    destruct (appendResults limit _ x []) as [items1|]; simpl.
    + destruct (pageLoop _ _ _ _ _ _ _ _ _ _ _) as [[o|e|] s2] eqn:EL;
        apply pageLoop_scanned in EL; intros [= <- <-]; by eapply scanned_trans.
    + by intros [= <- <-].
Qed.

(** The folder loop of [deleteForMailbox] only scans, and it collects one
    identifier per match. *)
Lemma deleteLoop_spec fuel folders q limit mbx ctx found ids svc r svc' :
  deleteLoop Session ews config fuel folders q limit mbx ctx found ids svc = (r, svc') ->
  scanned svc svc' /\
  (forall found' ids', r = Resolved (found', ids') ->
     length found = length ids -> length found' = length ids').
Proof.
  revert found ids svc.
  induction folders as [|folder rest IH]; intros found ids svc; simpl.
  - intros [= <- <-]. split; [apply scanned_refl|]. by intros ?? [= <- <-].
  - unfold bind at 1.
    destruct (findItemsInFolder _ _ _ _ _ _ _ _ _ svc) as [[items|e|] s1] eqn:EF;
      apply findItemsInFolder_scanned in EF; try (intros [= <- <-]; by split).
    destruct (_ >=? limit).
    + intros [= <- <-]. split; [done|].
      intros ?? [= <- <-] Hl. rewrite !length_app, !length_map. lia.
    + intros H. apply IH in H as [Hs Hr]. split; [by eapply scanned_trans|].
      intros found' ids' -> Hl. apply Hr; [done|].
      rewrite !length_app, !length_map. lia.
Qed.

Lemma find_not_delete cs :
  Forall (fun c => is_find_call c = true) cs ->
  filter (fun c => negb (is_delete_call c) = true) cs = cs /\
  Forall (fun c => is_delete_call c = false) cs.
Proof.
  induction 1 as [|c cs Hc _ [IH1 IH2]]; [done|].
  destruct c; try done; simpl.
  rewrite filter_cons_True by done. split; [by rewrite IH1 | by constructor].
Qed.

(** [deleteForMailbox], with the service object and the monad unfolded:
    scan, then at most one [DeleteItems] call. *)
Lemma deleteForMailbox_unfold fuel mbx folders q limit deleteMode sim ctx :
  deleteForMailbox Session ews config fuel mbx folders q limit deleteMode sim ctx =
  match createService Session ews config
          (mergeContext ctx (extra (Some "DeleteForMailbox") (Some (smtpAddress mbx)) None)) with
  | Resolved svc =>
      let '(r, svc1) :=
        deleteLoop Session ews config fuel folders q limit mbx ctx [] []
          (impersonateMailbox Session svc (smtpAddress mbx)) in
      match r with
      | Resolved (found, ids) =>
          if negb sim && negb (Nat.eqb (length ids) 0) then
            let call := CallDeleteItems (ImpersonatedUserId svc1) ids deleteMode in
            match (DeleteItems ews (session svc1) (ImpersonatedUserId svc1) ids deleteMode).1 with
            | Returns _ =>
                (Resolved {| dfm_matches := found; dfm_deleted := Z.of_nat (length ids) |},
                 calls svc1 ++ [call])
            | Raises e =>
                (Rejected (wrapExchangeError "Failed to delete messages" e
                             [("mailbox", smtpAddress mbx); ("operation", "DeleteItems")] 502),
                 calls svc1 ++ [call])
            end
          else
            (Resolved {| dfm_matches := found;
                         dfm_deleted := if sim then 0 else Z.of_nat (length ids) |},
             calls svc1)
      | Rejected e => (Rejected e, calls svc1)
      | Unsettled => (Unsettled, calls svc1)
      end
  | Rejected e => (Rejected e, [])
  | Unsettled => (Unsettled, [])
  end.
Proof.
  unfold deleteForMailbox, with_service.
  destruct (createService _ _ _ _) as [svc|e|]; try reflexivity.
  unfold bind at 1.
  destruct (deleteLoop _ _ _ _ _ _ _ _ _ _ _ _) as [[[found ids]|e|] svc1]; try reflexivity.
  destruct sim; simpl; [reflexivity|].
  destruct (Nat.eqb (length ids) 0); simpl; [reflexivity|].
  unfold bind, try_catch, call_DeleteItems.
  destruct (DeleteItems ews _ _ _ _) as [[u|e] s2]; reflexivity.
Qed.

Lemma createService_fresh ctx svc :
  createService Session ews config ctx = Resolved svc ->
  calls svc = [] /\ ImpersonatedUserId svc = None.
Proof.
  unfold createService.
  destruct ensureCredentialsConfigured; [done|].
  destruct (_ && _); [done|].
  destruct (connect ews ctx); [|done]. by intros [= <-].
Qed.

(** The scan of [deleteForMailbox], seen from the freshly created
    service: calls are [FindItems] calls, made as the mailbox. *)
Lemma deleteLoop_from_fresh fuel folders q limit mbx ctx cctx svc r svc1 :
  createService Session ews config cctx = Resolved svc ->
  deleteLoop Session ews config fuel folders q limit mbx ctx [] []
    (impersonateMailbox Session svc (smtpAddress mbx)) = (r, svc1) ->
  Forall (fun c => is_find_call c = true) (calls svc1) /\
  ImpersonatedUserId svc1 = Some (smtpAddress mbx) /\
  (forall found ids, r = Resolved (found, ids) -> length found = length ids).
Proof.
  intros Hc Hl. apply createService_fresh in Hc as [Hc _].
  apply deleteLoop_spec in Hl as [[Hi (cs & Hcs & HF)] Hlen].
  simpl in Hcs, Hi. rewrite Hc in Hcs. simpl in Hcs.
  split; [by rewrite Hcs|]. split; [done|].
  intros found ids ->. by apply (Hlen found ids).
Qed.

(** The dry run and the live run of [deleteForMailbox] side by side. *)
Lemma deleteForMailbox_modes fuel mbx folders q limit deleteMode ctx :
  let dry := deleteForMailbox Session ews config fuel mbx folders q limit deleteMode true ctx in
  let live := deleteForMailbox Session ews config fuel mbx folders q limit deleteMode false ctx in
  Forall (fun c => is_find_call c = true) dry.2 /\
  dry.2 = filter (fun c => negb (is_delete_call c) = true) live.2 /\
  (forall res, dry.1 = Resolved res -> dfm_deleted res = 0) /\
  (forall res, live.1 = Resolved res ->
     dfm_deleted res = Z.of_nat (length (dfm_matches res)) /\
     (dfm_matches res <> [] ->
      exists ids, length ids = length (dfm_matches res) /\
        live.2 = dry.2 ++ [CallDeleteItems (Some (smtpAddress mbx)) ids deleteMode])).
Proof.
  cbv zeta. rewrite !deleteForMailbox_unfold.
  destruct (createService _ _ _ _) as [svc|e|] eqn:EC; simpl;
    try (split; [constructor|split; [done|split; intros res; discriminate]]).
  destruct (deleteLoop _ _ _ _ _ _ _ _ _ _ _ _) as [r svc1] eqn:EL.
  destruct (deleteLoop_from_fresh _ _ _ _ _ _ _ _ _ _ EC EL) as (HF & Hi & Hlen).
  destruct (find_not_delete _ HF) as [Hfilter _].
  destruct r as [[found ids]|e|]; simpl;
    try (split; [done|split; [done|split; intros res; discriminate]]).
  specialize (Hlen found ids eq_refl).
  destruct (Nat.eqb (length ids) 0) eqn:E0; simpl.
  - apply Nat.eqb_eq in E0.
    split; [done|]. split; [done|]. split.
    + by intros res [= <-].
    + intros res [= <-]. simpl. split; [lia|].
      intros Hne. destruct found; [done|]. simpl in Hlen. lia.
  - assert (Hf2 : forall call,
               is_delete_call call = true ->
               calls svc1 =
               filter (fun c => negb (is_delete_call c) = true) (calls svc1 ++ [call])).
    { intros call Hcall. rewrite filter_app, Hfilter.
      rewrite filter_cons_False by (by rewrite Hcall). by rewrite app_nil_r. }
    destruct (DeleteItems ews _ _ _ _) as [[u|e] s2]; simpl.
    + split; [done|]. split; [by apply Hf2|]. split.
      * by intros res [= <-].
      * intros res [= <-]. simpl. split; [lia|].
        intros _. exists ids. rewrite Hi. by split.
    + split; [done|]. split; [by apply Hf2|].
      split; [by intros res [= <-] | intros res; discriminate].
Qed.

(** *** Rejections carry a message *)

Lemma findItemsInFolder_rejected fuel fd q limit mbx ctx svc e svc' :
  findItemsInFolder Session ews config fuel fd q limit mbx ctx svc = (Rejected e, svc') ->
  message e = "Failed to search mailbox folder".
Proof.
  unfold findItemsInFolder. destruct (limit <=? 0); [done|].
  unfold try_catch.
  destruct (bind _ _ svc) as [[x|e'|] s]; try done.
  unfold throw. by intros [= <- <-].
Qed.

Lemma deleteLoop_rejected fuel folders q limit mbx ctx found ids svc e svc' :
  deleteLoop Session ews config fuel folders q limit mbx ctx found ids svc = (Rejected e, svc') ->
  message e = "Failed to search mailbox folder".
Proof.
  revert found ids svc.
  induction folders as [|folder rest IH]; intros found ids svc; simpl; [done|].
  unfold bind at 1.
  destruct (findItemsInFolder _ _ _ _ _ _ _ _ _ svc) as [[items|e'|] s1] eqn:EF; try done.
  - destruct (_ >=? limit); [done|]. apply IH.
  - intros [= <- <-]. by eapply findItemsInFolder_rejected.
Qed.

Lemma collectLoop_rejected fuel folders q limit mbx ctx found svc e svc' :
  collectLoop Session ews config fuel folders q limit mbx ctx found svc = (Rejected e, svc') ->
  message e = "Failed to search mailbox folder".
Proof.
  revert found svc.
  induction folders as [|folder rest IH]; intros found svc; simpl; [done|].
  unfold bind at 1.
  destruct (findItemsInFolder _ _ _ _ _ _ _ _ _ svc) as [[items|e'|] s1] eqn:EF; try done.
  - destruct (_ >=? limit); [done|]. apply IH.
  - intros [= <- <-]. by eapply findItemsInFolder_rejected.
Qed.

Lemma createService_rejected ctx e :
  createService Session ews config ctx = Rejected e -> truthy (Some (message e)) = true.
Proof.
  unfold createService, ensureCredentialsConfigured.
  destruct (_ || _); [by intros [= <-]|].
  destruct (_ && _); [by intros [= <-]|].
  destruct (connect ews ctx); [done|]. by intros [= <-].
Qed.

Lemma deleteForMailbox_rejected fuel mbx folders q limit deleteMode sim ctx e cs :
  deleteForMailbox Session ews config fuel mbx folders q limit deleteMode sim ctx = (Rejected e, cs) ->
  truthy (Some (message e)) = true.
Proof.
  rewrite deleteForMailbox_unfold.
  destruct (createService _ _ _ _) as [svc|e'|] eqn:EC; try done.
  - destruct (deleteLoop _ _ _ _ _ _ _ _ _ _ _ _) as [[[found ids]|e'|] svc1] eqn:EL; try done.
    + destruct (_ && _); [|done].
      destruct (DeleteItems ews _ _ _ _).1; [done|]. by intros [= <- <-].
    + intros [= <- <-]. apply deleteLoop_rejected in EL. by rewrite EL.
  - intros [= <- <-]. by apply createService_rejected in EC.
Qed.

Lemma collectMatchesForMailbox_rejected fuel mbx folders q limit ctx e cs :
  collectMatchesForMailbox Session ews config fuel mbx folders q limit ctx = (Rejected e, cs) ->
  truthy (Some (message e)) = true.
Proof.
  unfold collectMatchesForMailbox, with_service.
  destruct (createService _ _ _ _) as [svc|e'|] eqn:EC; try done.
  - destruct (collectLoop _ _ _ _ _ _ _ _ _ _ _) as [[found|e'|] svc1] eqn:EL; try done.
    intros [= <- <-]. apply collectLoop_rejected in EL. by rewrite EL.
  - intros [= <- <-]. by apply createService_rejected in EC.
Qed.
End Executor.

(* ===================================================================== *)
(** * Theorems: the stable sort *)
(* ===================================================================== *)

Section SortFacts.
Import Js.
Context {A : Type} (compare : A -> A -> Z).

Lemma insert_sorted_perm x l : insert_sorted compare x l ≡ₚ x :: l.
Proof.
  induction l as [|y l IH]; simpl; [done|].
  destruct (compare x y <=? 0); [done|].
  rewrite IH. apply Permutation_swap.
Qed.

Lemma sort_perm l : sort compare l ≡ₚ l.
Proof.
  induction l as [|x l IH]; simpl; [done|].
  by rewrite insert_sorted_perm, IH.
Qed.

Lemma sort_Forall (P : A -> Prop) l : Forall P l -> Forall P (sort compare l).
Proof. intros H. by rewrite sort_perm. Qed.

Lemma sort_elem_of x l : x ∈ sort compare l <-> x ∈ l.
Proof. by rewrite sort_perm. Qed.

Section Consistent.
Hypothesis total : forall a b, compare a b <= 0 \/ compare b a <= 0.
Hypothesis trans : forall a b c, compare a b <= 0 -> compare b c <= 0 -> compare a c <= 0.

Local Abbreviation le := (fun a b => compare a b <= 0).

Lemma insert_sorted_sorted x l :
  StronglySorted le l -> StronglySorted le (insert_sorted compare x l).
Proof.
  induction 1 as [|y l Hl IH Hy]; simpl.
  - repeat constructor.
  - destruct (compare x y <=? 0) eqn:E.
    + apply Z.leb_le in E. constructor; [by constructor|].
      constructor; [done|].
      eapply Forall_impl; [exact Hy|]. intros z Hz. by eapply trans.
    + apply Z.leb_gt in E. constructor; [done|].
      rewrite insert_sorted_perm. constructor; [|done].
      destruct (total x y); [lia|done].
Qed.

Lemma sort_sorted l : StronglySorted le (sort compare l).
Proof.
  induction l as [|x l IH]; simpl; [constructor|].
  by apply insert_sorted_sorted.
Qed.

(** Stability: the elements that compare equal to a given one keep
    their relative order. *)
Lemma insert_sorted_stable k x l :
  StronglySorted le l ->
  filter (fun y => compare y k <= 0 /\ compare k y <= 0) (insert_sorted compare x l) =
  filter (fun y => compare y k <= 0 /\ compare k y <= 0) (x :: l).
Proof.
  induction 1 as [|y l Hl IH Hy]; simpl; [done|].
  destruct (compare x y <=? 0) eqn:E; [done|].
  apply Z.leb_gt in E.
  rewrite (filter_cons _ y), IH, (filter_cons _ x l), (filter_cons _ x (y :: l)), (filter_cons _ y l).
  destruct (decide (compare x k <= 0 /\ compare k x <= 0)) as [[Hx1 Hx2]|Hx];
    destruct (decide (compare y k <= 0 /\ compare k y <= 0)) as [[Hy1 Hy2]|Hny]; try done.
  exfalso. pose proof (trans _ _ _ Hx1 Hy2). lia.
Qed.

Lemma sort_stable k l :
  filter (fun y => compare y k <= 0 /\ compare k y <= 0) (sort compare l) =
  filter (fun y => compare y k <= 0 /\ compare k y <= 0) l.
Proof.
  induction l as [|x l IH]; simpl; [done|].
  rewrite insert_sorted_stable by apply sort_sorted.
  rewrite !(filter_cons _ x). by rewrite IH.
Qed.
End Consistent.
End SortFacts.

(* ===================================================================== *)
(** * Theorems: aggregation *)
(* ===================================================================== *)

Section Aggregation.
Import Js ExchangeService.

Lemma Promise_all_calls {A} (tasks : list (Completion A * list RemoteCall)) :
  (Promise_all tasks).2 = concat (map snd tasks).
Proof.
  induction tasks as [|[r cs] tasks IH]; [done|]. simpl.
  destruct (Promise_all tasks) as [rs css]. simpl in *. by rewrite IH.
Qed.

Lemma Promise_all_resolved {A} (tasks : list (Completion A * list RemoteCall)) rs :
  (Promise_all tasks).1 = Resolved rs ->
  Forall2 (fun t r => t.1 = Resolved r) tasks rs.
Proof.
  revert rs. induction tasks as [|[r cs] tasks IH]; intros rs; simpl.
  - intros [= <-]. constructor.
  - destruct (Promise_all tasks) as [rs' css]. simpl in *.
    destruct r as [a|e|], rs' as [l|e'|]; try discriminate.
    intros [= <-]. constructor; [done|]. by apply IH.
Qed.

Lemma search_partition_spec rs :
  search_partition rs = (succeeded rs, failed rs).
Proof.
  unfold search_partition.
  assert (G : forall a b,
             fold_left
               (fun '(mailboxResults, fails) result =>
                  match result with
                  | None => (mailboxResults, fails)
                  | Some r =>
                      if truthy (error r) then (mailboxResults, fails ++ [r])
                      else (mailboxResults ++ [r], fails)
                  end) rs (a, b) = (a ++ succeeded rs, b ++ failed rs)).
  { induction rs as [|[r|] rs IH]; intros a b; simpl.
    - by rewrite !app_nil_r.
    - unfold succeeded, failed. simpl.
      destruct (truthy (error r)) eqn:E; rewrite IH.
      + rewrite filter_cons_False by (by rewrite E).
        rewrite filter_cons_True by done. by rewrite <- app_assoc.
      + rewrite filter_cons_True by done.
        rewrite filter_cons_False by (by rewrite E). by rewrite <- app_assoc.
    - apply IH. }
  apply G.
Qed.

Lemma delete_partition_spec rs :
  delete_partition rs =
  (succeeded rs, failed rs, fold_left add (map deleted (succeeded rs)) (Some 0)).
Proof.
  unfold delete_partition.
  assert (G : forall a b t,
             fold_left
               (fun '(mailboxResults, fails, total) result =>
                  match result with
                  | None => (mailboxResults, fails, total)
                  | Some r =>
                      if truthy (error r) then (mailboxResults, fails ++ [r], total)
                      else (mailboxResults ++ [r], fails, add total (deleted r))
                  end) rs (a, b, t) =
             (a ++ succeeded rs, b ++ failed rs,
              fold_left add (map deleted (succeeded rs)) t)).
  { induction rs as [|[r|] rs IH]; intros a b t; simpl.
    - by rewrite !app_nil_r.
    - unfold succeeded, failed. simpl.
      destruct (truthy (error r)) eqn:E; rewrite IH.
      + rewrite filter_cons_False by (by rewrite E).
        rewrite filter_cons_True by done. by rewrite <- app_assoc.
      + rewrite filter_cons_True by done.
        rewrite filter_cons_False by (by rewrite E). by rewrite <- app_assoc.
    - apply IH. }
  apply G.
Qed.

Lemma succeeded_cons r rs :
  succeeded (r :: rs) =
  match r with
  | Some o => if truthy (error o) then succeeded rs else o :: succeeded rs
  | None => succeeded rs
  end.
Proof.
  unfold succeeded. destruct r as [o|]; simpl; [|done].
  destruct (truthy (error o)) eqn:E.
  - by rewrite filter_cons_False by (by rewrite E).
  - by rewrite filter_cons_True.
Qed.

Lemma failed_cons r rs :
  failed (r :: rs) =
  match r with
  | Some o => if truthy (error o) then o :: failed rs else failed rs
  | None => failed rs
  end.
Proof.
  unfold failed. destruct r as [o|]; simpl; [|done].
  destruct (truthy (error o)) eqn:E.
  - by rewrite filter_cons_True.
  - by rewrite filter_cons_False by (by rewrite E).
Qed.

(** A property of every success object the tasks resolve to holds of
    every element of [succeeded]. *)
Lemma succeeded_Forall {A} (task : A -> Completion (option ResultObject))
    (P : ResultObject -> Prop) (ms : list A) rs :
  Forall2 (fun m r => task m = Resolved r) ms rs ->
  (forall m o, m ∈ ms -> task m = Resolved (Some o) -> truthy (error o) = false -> P o) ->
  Forall P (succeeded rs).
Proof.
  induction 1 as [|m r ms rs Hm _ IH]; intros HP; [constructor|].
  rewrite succeeded_cons.
  assert (IH' : Forall P (succeeded rs)).
  { apply IH. intros m' o Hin. apply HP. by apply elem_of_cons; right. }
  destruct r as [o|]; [|done].
  destruct (truthy (error o)) eqn:E; [done|].
  constructor; [|done]. eapply HP; [|exact Hm|exact E]. by apply elem_of_cons; left.
Qed.

Lemma succeeded_origin {A} (task : A -> Completion (option ResultObject)) (ms : list A) rs o :
  Forall2 (fun m r => task m = Resolved r) ms rs ->
  o ∈ succeeded rs \/ o ∈ failed rs ->
  exists m, m ∈ ms /\ task m = Resolved (Some o).
Proof.
  induction 1 as [|m r ms rs Hm _ IH]; intros Ho.
  - destruct Ho as [Ho|Ho]; by apply elem_of_nil in Ho.
  - rewrite succeeded_cons, failed_cons in Ho.
    assert (Hrest : o ∈ succeeded rs \/ o ∈ failed rs ->
                    exists m0, m0 ∈ m :: ms /\ task m0 = Resolved (Some o)).
    { intros H. destruct (IH H) as (m0 & Hin & Ht). exists m0. split; [|done].
      by apply elem_of_cons; right. }
    destruct r as [o'|]; [|by apply Hrest].
    assert (Hhere : exists m0, m0 ∈ m :: ms /\ task m0 = Resolved (Some o')).
    { exists m. split; [by apply elem_of_cons; left|done]. }
    destruct (truthy (error o')).
    + destruct Ho as [Ho|Ho]; [apply Hrest; by left|].
      apply elem_of_cons in Ho as [->|Ho]; [done|apply Hrest; by right].
    + destruct Ho as [Ho|Ho]; [|apply Hrest; by right].
      apply elem_of_cons in Ho as [->|Ho]; [done|apply Hrest; by left].
Qed.

(** Where the address of a resolved mailbox ends up is decided by what
    its own task resolved to, provided addresses identify mailboxes. *)
Lemma partition_by_task (task : MailboxEntry -> Completion (option ResultObject)) ms rs m :
  (forall m o, task m = Resolved (Some o) -> mailbox o = smtpAddress m) ->
  Forall2 (fun m r => task m = Resolved r) ms rs ->
  NoDup (map smtpAddress ms) -> m ∈ ms ->
  exists r, task m = Resolved r /\
    (smtpAddress m ∈ map mailbox (succeeded rs) <->
     exists o, r = Some o /\ truthy (error o) = false) /\
    (smtpAddress m ∈ map mailbox (failed rs) <->
     exists o, r = Some o /\ truthy (error o) = true).
Proof.
  intros Hbox HF. induction HF as [|m0 r0 ms rs Hm0 HF IH]; intros Hnd Hin.
  - by apply elem_of_nil in Hin.
  - simpl in Hnd. apply NoDup_cons in Hnd as [Hfresh Hnd].
    assert (Hrest : forall o, o ∈ succeeded rs \/ o ∈ failed rs ->
              mailbox o ∈ map smtpAddress ms).
    { intros o Ho. destruct (succeeded_origin task ms rs o HF Ho) as (m' & Hin' & Ht).
      rewrite (Hbox _ _ Ht). by apply list_elem_of_fmap_2. }
    rewrite succeeded_cons, failed_cons.
    apply elem_of_cons in Hin as [->|Hin].
    + exists r0. split; [done|].
      assert (Hns : ~ smtpAddress m0 ∈ map mailbox (succeeded rs)).
      { intros H. apply list_elem_of_fmap in H as (o & Ho & Hino).
        apply Hfresh. rewrite Ho. apply Hrest. by left. }
      assert (Hnf : ~ smtpAddress m0 ∈ map mailbox (failed rs)).
      { intros H. apply list_elem_of_fmap in H as (o & Ho & Hino).
        apply Hfresh. rewrite Ho. apply Hrest. by right. }
      destruct r0 as [o|].
      * pose proof (Hbox _ _ Hm0) as Ho.
        destruct (truthy (error o)) eqn:E; simpl; split; split.
        -- done.
        -- intros (o' & [= <-] & E'). congruence.
        -- intros _. by exists o.
        -- intros _. rewrite <- Ho. by apply elem_of_cons; left.
        -- intros _. by exists o.
        -- intros _. rewrite <- Ho. by apply elem_of_cons; left.
        -- done.
        -- intros (o' & [= <-] & E'). congruence.
      * split; split; try done; by intros (o & ? & _).
    + destruct (IH Hnd Hin) as (r & Hr & HS & HFl). exists r. split; [done|].
      assert (Hne : smtpAddress m <> smtpAddress m0).
      { intros Heq. apply Hfresh. rewrite <- Heq. by apply list_elem_of_fmap_2. }
      destruct r0 as [o|]; [|done].
      pose proof (Hbox _ _ Hm0) as Ho.
      destruct (truthy (error o)); simpl; rewrite ?elem_of_cons; split; try done.
      * rewrite <- HFl. split; [|by right]. intros [H|H]; [congruence|done].
      * rewrite <- HS. split; [|by right]. intros [H|H]; [congruence|done].
Qed.

Lemma fold_add_counts (counts : list Z) (t : Z) :
  fold_left add (map Some counts) (Some t) = Some (t + sumZ counts).
Proof.
  revert t. induction counts as [|c counts IH]; intros t; simpl.
  - f_equal. lia.
  - rewrite IH. f_equal. unfold sumZ. simpl. lia.
Qed.
End Aggregation.

(* ===================================================================== *)
(** * Theorems: search and delete requests *)
(* ===================================================================== *)

Section Requests.
Import Js ExchangeService.
Context {Session : Type} (ews : Endpoint Session) (config : Config).
Context (DeleteMode_value : DeleteMode -> Z).
Context (WellKnownFolderName_value : WellKnownFolderName -> Z).
Context (localeCompare : string -> string -> Z).
Context (Date_parse : string -> option Z) (toISOString : Z -> string).

Local Abbreviation deleteMessages :=
  (deleteMessages Session ews config DeleteMode_value WellKnownFolderName_value
     localeCompare Date_parse toISOString).
Local Abbreviation searchMessages :=
  (searchMessages Session ews config WellKnownFolderName_value
     localeCompare Date_parse toISOString).
Local Abbreviation deleteTask := (deleteTask Session ews config).
Local Abbreviation searchTask := (searchTask Session ews config).
Local Abbreviation deleteForMailbox := (deleteForMailbox Session ews config).
Local Abbreviation getSearchableMailboxes := (getSearchableMailboxes Session ews config).
Local Abbreviation resolveFolders := (resolveFolders config WellKnownFolderName_value).
Local Abbreviation not_delete := (fun c : RemoteCall => negb (is_delete_call c) = true).

Lemma getSearchableMailboxes_calls ctx :
  filter not_delete (getSearchableMailboxes ctx).2 = (getSearchableMailboxes ctx).2.
Proof.
  unfold ExchangeService.getSearchableMailboxes, with_service.
  destruct (createService _ _ _ _) as [svc|e|] eqn:EC; try done.
  apply createService_fresh in EC as [EC _].
  unfold try_catch, bind, call_GetSearchableMailboxes.
  destruct (GetSearchableMailboxes ews _) as [[x|e] s]; simpl; rewrite EC; simpl.
  - by destruct x as [[boxes|]|].
  - done.
Qed.

Lemma deleteTask_calls fuel folders q limit dm sim ctx m :
  (deleteTask fuel folders q limit dm sim ctx m).2 =
  (deleteForMailbox fuel m folders q limit dm sim (deleteContext ctx m)).2.
Proof.
  unfold ExchangeService.deleteTask.
  destruct (deleteForMailbox _ _ _ _ _ _ _ _) as [[res|e|] cs]; try done.
  simpl. by destruct (Nat.eqb _ 0).
Qed.

(** What the task of a dry run resolves to deletes nothing. *)
Lemma deleteTask_dry fuel folders q limit dm ctx m o :
  (deleteTask fuel folders q limit dm true ctx m).1 = Resolved (Some o) ->
  truthy (error o) = false -> deleted o = Some 0.
Proof.
  unfold ExchangeService.deleteTask.
  destruct (deleteForMailbox_modes ews config fuel m folders q limit dm (deleteContext ctx m))
    as (_ & _ & Hdry & _).
  destruct (deleteForMailbox _ _ _ _ _ _ true _) as [[res|e|] cs] eqn:ED; simpl in *.
  - destruct (Nat.eqb _ 0); [done|]. intros [= <-] _. simpl. by rewrite (Hdry res).
  - intros [= <-]. simpl.
    apply deleteForMailbox_rejected in ED. unfold truthy in *. rewrite ED. done.
  - done.
Qed.


Lemma tasks_same_scan fuel folders q limit dm ctx mailboxes :
  concat (map snd (map (deleteTask fuel folders q limit dm true ctx) mailboxes)) =
  filter not_delete
    (concat (map snd (map (deleteTask fuel folders q limit dm false ctx) mailboxes))).
Proof.
  induction mailboxes as [|m mailboxes IH]; [done|]. simpl.
  rewrite filter_app, <- IH. f_equal. rewrite !deleteTask_calls.
  by destruct (deleteForMailbox_modes ews config fuel m folders q limit dm (deleteContext ctx m))
    as (_ & -> & _).
Qed.

(** The task [deleteMessages] queues for each mailbox. *)
Local Abbreviation queued fuel filters folders ctx :=
  (deleteTask fuel folders (deleteQuery Date_parse toISOString filters)
     (deleteLimit config filters)
     (resolveDeleteMode DeleteMode_value (default "softDelete" (f_deleteMode filters))).1
     (default true (f_simulate filters)) ctx).

Lemma length_zero_eq {A} (l : list A) : Nat.eqb (length l) 0 = true -> l = [].
Proof. by destruct l. Qed.

Lemma deleteMessages_calls fuel filters ctx :
  (deleteMessages fuel filters ctx).2 =
  match getSearchableMailboxes ctx, resolveFolders (f_folders filters) with
  | (Resolved mailboxes, cs0), inr folders =>
      cs0 ++ concat (map snd (map (queued fuel filters folders ctx) mailboxes))
  | (_, cs0), _ => cs0
  end.
Proof.
  unfold ExchangeService.deleteMessages.
  destruct (getSearchableMailboxes ctx) as [[mailboxes|e|] cs0]; try done.
  destruct (resolveFolders _) as [e|folders]; [done|].
  destruct (Nat.eqb (length mailboxes) 0) eqn:E0.
  - apply length_zero_eq in E0 as ->. simpl. by rewrite app_nil_r.
  - rewrite <- Promise_all_calls.
    destruct (Promise_all _) as [[rs|e|] css]; try done.
    by destruct (delete_partition rs) as [[a b] c].
Qed.

Lemma deleteMessages_resolved fuel filters ctx agg cs :
  deleteMessages fuel filters ctx = (Resolved agg, cs) ->
  exists mailboxes folders rs,
    (getSearchableMailboxes ctx).1 = Resolved mailboxes /\
    resolveFolders (f_folders filters) = inr folders /\
    Forall2 (fun m r => (queued fuel filters folders ctx m).1 = Resolved r) mailboxes rs /\
    results agg = sort (by_mailbox localeCompare) (succeeded rs) /\
    failures agg = failed rs /\
    totalDeleted (summary agg) = fold_left add (map deleted (succeeded rs)) (Some 0).
Proof.
  unfold ExchangeService.deleteMessages.
  destruct (getSearchableMailboxes ctx) as [[mailboxes|e|] cs0]; try done.
  destruct (resolveFolders _) as [e|folders]; [done|].
  destruct (Nat.eqb (length mailboxes) 0) eqn:E0.
  - apply length_zero_eq in E0 as ->. intros [= <- <-].
    exists [], folders, []. repeat split; by try constructor.
  - destruct (Promise_all _) as [[rs|e|] css] eqn:EP; try done.
    rewrite delete_partition_spec. intros [= <- <-].
    exists mailboxes, folders, rs. repeat split; try done.
    pose proof (Promise_all_resolved _ rs (f_equal fst EP)) as HF.
    by apply Forall2_fmap_l in HF.
Qed.

Lemma no_deletes_after_filter (cs : list RemoteCall) :
  Forall (fun c => is_delete_call c = false) (filter not_delete cs).
Proof.
  apply Forall_forall. intros c Hc. apply list_elem_of_filter in Hc as [Hc _].
  by apply negb_true_iff in Hc.
Qed.

(** C1. A delete request with [simulate = true] (the default) issues no
    [DeleteItems] call for any mailbox; its remote calls are exactly those
    of the same request run with [simulate = false], minus the delete
    calls, so scanning is identical; the aggregate it returns has
    [summary.totalDeleted = 0]; and [deleteForMailbox] itself, run with
    [simulate = true], issues no delete call and reports [deleted = 0]. *)
Theorem simulate_issues_no_delete fuel filters ctx :
  default true (f_simulate filters) = true ->
  let run := deleteMessages fuel filters ctx in
  let live := deleteMessages fuel (with_simulate false filters) ctx in
  Forall (fun c => is_delete_call c = false) run.2 /\
  run.2 = filter not_delete live.2 /\
  (forall agg, run.1 = Resolved agg -> totalDeleted (summary agg) = Some 0) /\
  (forall m folders q limit dm c,
      let task := deleteForMailbox fuel m folders q limit dm true c in
      Forall (fun c => is_delete_call c = false) task.2 /\
      forall res, task.1 = Resolved res -> dfm_deleted res = 0).
Proof.
  intros Hsim. cbv zeta.
  assert (Hscan : (deleteMessages fuel filters ctx).2 =
                  filter not_delete (deleteMessages fuel (with_simulate false filters) ctx).2).
  { rewrite !deleteMessages_calls. simpl f_folders.
    pose proof (getSearchableMailboxes_calls ctx) as Hcs0.
    destruct (getSearchableMailboxes ctx) as [[mailboxes|e|] cs0]; simpl in Hcs0; try done.
    destruct (resolveFolders _) as [e|folders]; [done|].
    rewrite filter_app, Hcs0. f_equal. rewrite Hsim.
    apply tasks_same_scan. }
  split; [rewrite Hscan; apply no_deletes_after_filter|].
  split; [exact Hscan|]. split.
  - intros agg Hrun.
    destruct (deleteMessages fuel filters ctx) as [r cs] eqn:ER. simpl in Hrun. subst r.
    apply deleteMessages_resolved in ER
      as (mailboxes & folders & rs & _ & _ & Htasks & _ & _ & ->).
    rewrite Hsim in Htasks.
    assert (Hall : Forall (fun o => deleted o = Some 0) (succeeded rs)).
    { eapply succeeded_Forall; [exact Htasks|].
      intros m o _ Hm E. eapply deleteTask_dry; [exact Hm | exact E]. }
    assert (Hzero : map deleted (succeeded rs) = map Some (map (fun _ => 0) (succeeded rs))).
    { induction Hall as [|o l Ho _ IH]; [done|]. simpl. by rewrite Ho, IH. }
    rewrite Hzero, fold_add_counts. f_equal.
    clear. induction (succeeded rs) as [|o l IH]; [done|]. unfold sumZ in *. simpl in *. lia.
  - intros m folders q limit dm c.
    destruct (deleteForMailbox_modes ews config fuel m folders q limit dm c)
      as (Hfinds & _ & Hdry & _).
    split; [|exact Hdry]. by apply find_not_delete in Hfinds as [_ ?].
Qed.

Lemma sumZ_perm (l l' : list Z) : l ≡ₚ l' -> sumZ l = sumZ l'.
Proof. unfold sumZ. induction 1; simpl; lia. Qed.


Local Abbreviation queuedSearch fuel filters folders ctx :=
  (searchTask fuel folders (searchQuery Date_parse toISOString filters)
     (searchLimit config filters) ctx).
Local Abbreviation collectMatchesForMailbox := (collectMatchesForMailbox Session ews config).

Lemma searchMessages_resolved fuel filters ctx agg cs :
  searchMessages fuel filters ctx = (Resolved agg, cs) ->
  exists mailboxes folders rs,
    (getSearchableMailboxes ctx).1 = Resolved mailboxes /\
    resolveFolders (f_folders filters) = inr folders /\
    Forall2 (fun m r => (queuedSearch fuel filters folders ctx m).1 = Resolved r) mailboxes rs /\
    results agg = sort (by_mailbox localeCompare) (succeeded rs) /\
    failures agg = failed rs.
Proof.
  unfold ExchangeService.searchMessages.
  destruct (getSearchableMailboxes ctx) as [[mailboxes|e|] cs0]; try done.
  destruct (resolveFolders _) as [e|folders]; [done|].
  destruct (Nat.eqb (length mailboxes) 0) eqn:E0.
  - apply length_zero_eq in E0 as ->. intros [= <- <-].
    exists [], folders, []. repeat split; by try constructor.
  - destruct (Promise_all _) as [[rs|e|] css] eqn:EP; try done.
    rewrite search_partition_spec. intros [= <- <-].
    exists mailboxes, folders, rs. repeat split; try done.
    pose proof (Promise_all_resolved _ rs (f_equal fst EP)) as HF.
    by apply Forall2_fmap_l in HF.
Qed.

(** What a search task resolves to, by the outcome of the mailbox's
    scan. *)
Lemma searchTask_outcome fuel folders q limit ctx m :
  match (collectMatchesForMailbox fuel m folders q limit (searchContext ctx m)).1 with
  | Rejected e =>
      exists o, (searchTask fuel folders q limit ctx m).1 = Resolved (Some o) /\
                truthy (error o) = true /\ mailbox o = smtpAddress m
  | Resolved [] => (searchTask fuel folders q limit ctx m).1 = Resolved None
  | Resolved (_ :: _) =>
      exists o, (searchTask fuel folders q limit ctx m).1 = Resolved (Some o) /\
                truthy (error o) = false /\ mailbox o = smtpAddress m
  | Unsettled => (searchTask fuel folders q limit ctx m).1 = Unsettled
  end.
Proof.
  unfold ExchangeService.searchTask.
  destruct (collectMatchesForMailbox _ _ _ _ _ _) as [[found|e|] cs] eqn:EC; simpl.
  - destruct found; simpl; [done|]. eexists. by split.
  - eexists. split; [done|]. split; [|done]. simpl.
    by apply collectMatchesForMailbox_rejected in EC.
  - done.
Qed.

Lemma deleteTask_outcome fuel folders q limit dm sim ctx m :
  match (deleteForMailbox fuel m folders q limit dm sim (deleteContext ctx m)).1 with
  | Rejected e =>
      exists o, (deleteTask fuel folders q limit dm sim ctx m).1 = Resolved (Some o) /\
                truthy (error o) = true /\ mailbox o = smtpAddress m
  | Resolved res =>
      match dfm_matches res with
      | [] => (deleteTask fuel folders q limit dm sim ctx m).1 = Resolved None
      | _ :: _ =>
          exists o, (deleteTask fuel folders q limit dm sim ctx m).1 = Resolved (Some o) /\
                    truthy (error o) = false /\ mailbox o = smtpAddress m
      end
  | Unsettled => (deleteTask fuel folders q limit dm sim ctx m).1 = Unsettled
  end.
Proof.
  unfold ExchangeService.deleteTask.
  destruct (deleteForMailbox _ _ _ _ _ _ _ _) as [[res|e|] cs] eqn:EC; simpl.
  - destruct (dfm_matches res); simpl; [done|]. eexists. by split.
  - eexists. split; [done|]. split; [|done]. simpl.
    by apply deleteForMailbox_rejected in EC.
  - done.
Qed.

Lemma searchTask_mailbox fuel folders q limit ctx m o :
  (searchTask fuel folders q limit ctx m).1 = Resolved (Some o) -> mailbox o = smtpAddress m.
Proof.
  unfold ExchangeService.searchTask.
  destruct (collectMatchesForMailbox _ _ _ _ _ _) as [[found|e|] cs]; simpl; try done.
  - destruct (Nat.eqb _ 0); [done|]. by intros [= <-].
  - by intros [= <-].
Qed.

Lemma deleteTask_mailbox fuel folders q limit dm sim ctx m o :
  (deleteTask fuel folders q limit dm sim ctx m).1 = Resolved (Some o) ->
  mailbox o = smtpAddress m.
Proof.
  unfold ExchangeService.deleteTask.
  destruct (deleteForMailbox _ _ _ _ _ _ _ _) as [[res|e|] cs]; simpl; try done.
  - destruct (Nat.eqb _ 0); [done|]. by intros [= <-].
  - by intros [= <-].
Qed.

Lemma elem_of_sorted_mailboxes addr (l : list ResultObject) :
  addr ∈ map mailbox (sort (by_mailbox localeCompare) l) <-> addr ∈ map mailbox l.
Proof.
  rewrite !list_elem_of_fmap. split; intros (o & Ho & Hin); exists o; split; try done.
  - by apply sort_elem_of in Hin.
  - by apply sort_elem_of.
Qed.

(** C3. Aggregation partitions the resolved mailboxes, for a search and
    for a delete request alike.  With addresses identifying mailboxes,
    a resolved mailbox whose task threw is in [failures] and not in
    [results]; one whose scan found at least one match, without error,
    is in [results] and not in [failures]; one with no match and no
    error is in neither. *)
Theorem aggregation_is_a_partition fuel filters ctx mailboxes folders m :
  (getSearchableMailboxes ctx).1 = Resolved mailboxes ->
  resolveFolders (f_folders filters) = inr folders ->
  NoDup (map smtpAddress mailboxes) ->
  m ∈ mailboxes ->
  (forall agg cs,
      searchMessages fuel filters ctx = (Resolved agg, cs) ->
      let inResults := smtpAddress m ∈ map mailbox (results agg) in
      let inFailures := smtpAddress m ∈ map mailbox (failures agg) in
      match (collectMatchesForMailbox fuel m folders
               (searchQuery Date_parse toISOString filters)
               (searchLimit config filters) (searchContext ctx m)).1 with
      | Rejected _ => inFailures /\ ~ inResults
      | Resolved [] => ~ inResults /\ ~ inFailures
      | Resolved (_ :: _) => inResults /\ ~ inFailures
      | Unsettled => False
      end) /\
  (forall agg cs,
      deleteMessages fuel filters ctx = (Resolved agg, cs) ->
      let inResults := smtpAddress m ∈ map mailbox (results agg) in
      let inFailures := smtpAddress m ∈ map mailbox (failures agg) in
      match (deleteForMailbox fuel m folders
               (deleteQuery Date_parse toISOString filters)
               (deleteLimit config filters)
               (resolveDeleteMode DeleteMode_value
                  (default "softDelete" (f_deleteMode filters))).1
               (default true (f_simulate filters)) (deleteContext ctx m)).1 with
      | Rejected _ => inFailures /\ ~ inResults
      | Resolved res =>
          match dfm_matches res with
          | [] => ~ inResults /\ ~ inFailures
          | _ :: _ => inResults /\ ~ inFailures
          end
      | Unsettled => False
      end).
Proof.
  intros Hmb Hfold Hnd Hin. split; intros agg cs ER; cbv zeta.
  - apply searchMessages_resolved in ER
      as (mailboxes' & folders' & rs & Hmb' & Hfold' & Htasks & -> & ->).
    rewrite Hmb in Hmb'. injection Hmb' as <-.
    rewrite Hfold in Hfold'. injection Hfold' as <-.
    destruct (partition_by_task _ _ _ m
                (fun m o => searchTask_mailbox fuel folders _ _ ctx m o) Htasks Hnd Hin)
      as (r & Hr & HS & HF).
    pose proof (searchTask_outcome fuel folders
                  (searchQuery Date_parse toISOString filters)
                  (searchLimit config filters) ctx m) as Hout.
    destruct (collectMatchesForMailbox _ _ _ _ _ _).1 as [[|x found]|e|].
    + rewrite Hout in Hr. injection Hr as <-. rewrite elem_of_sorted_mailboxes, HS, HF.
      split; by intros (o & ? & _).
    + destruct Hout as (o & Ho & E & _). rewrite Ho in Hr. injection Hr as <-.
      rewrite elem_of_sorted_mailboxes, HS, HF. split; [by exists o|]. intros (o' & [= <-] & E'). congruence.
    + destruct Hout as (o & Ho & E & _). rewrite Ho in Hr. injection Hr as <-.
      rewrite elem_of_sorted_mailboxes, HS, HF. split; [by exists o|]. intros (o' & [= <-] & E'). congruence.
    + congruence.
  - apply deleteMessages_resolved in ER
      as (mailboxes' & folders' & rs & Hmb' & Hfold' & Htasks & -> & -> & _).
    rewrite Hmb in Hmb'. injection Hmb' as <-.
    rewrite Hfold in Hfold'. injection Hfold' as <-.
    destruct (partition_by_task _ _ _ m
                (fun m o => deleteTask_mailbox fuel folders _ _ _ _ ctx m o) Htasks Hnd Hin)
      as (r & Hr & HS & HF).
    pose proof (deleteTask_outcome fuel folders
                  (deleteQuery Date_parse toISOString filters)
                  (deleteLimit config filters)
                  (resolveDeleteMode DeleteMode_value
                     (default "softDelete" (f_deleteMode filters))).1
                  (default true (f_simulate filters)) ctx m) as Hout.
    destruct (deleteForMailbox _ _ _ _ _ _ _ _).1 as [res|e|].
    + destruct (dfm_matches res) as [|x found].
      * rewrite Hout in Hr. injection Hr as <-. rewrite elem_of_sorted_mailboxes, HS, HF.
        split; by intros (o & ? & _).
      * destruct Hout as (o & Ho & E & _). rewrite Ho in Hr. injection Hr as <-.
        rewrite elem_of_sorted_mailboxes, HS, HF. split; [by exists o|]. intros (o' & [= <-] & E'). congruence.
    + destruct Hout as (o & Ho & E & _). rewrite Ho in Hr. injection Hr as <-.
      rewrite elem_of_sorted_mailboxes, HS, HF. split; [by exists o|]. intros (o' & [= <-] & E'). congruence.
    + congruence.
Qed.

Lemma StronglySorted_weaken {A} (R R' : A -> A -> Prop) (l : list A) :
  (forall a b, R a b -> R' a b) -> StronglySorted R l -> StronglySorted R' l.
Proof.
  intros HR. induction 1 as [|x l _ IH Hx]; constructor; [done|].
  eapply Forall_impl; [exact Hx|]. intros y. apply HR.
Qed.

(** C6 (amended).  Whatever the order in which the per-mailbox outcomes
    arrive, the [results] array of a search and of a delete aggregate is
    sorted ascending by mailbox address under the comparator the sort is
    given, the host's [localeCompare], taken to be a consistent
    comparator; and the sort is stable: it permutes the outcomes and
    keeps the relative order of outcomes whose addresses compare equal.
    The order is the case-sensitive lexicographic one when that
    comparator is comparison by character code. *)
Theorem results_sorted_by_mailbox :
  consistent localeCompare ->
  let ascending := StronglySorted (fun a b => localeCompare (mailbox a) (mailbox b) <= 0) in
  (forall fuel filters ctx agg cs,
      searchMessages fuel filters ctx = (Resolved agg, cs) -> ascending (results agg)) /\
  (forall fuel filters ctx agg cs,
      deleteMessages fuel filters ctx = (Resolved agg, cs) -> ascending (results agg)) /\
  (forall outcomes : list ResultObject,
      let sorted := sort (by_mailbox localeCompare) outcomes in
      ascending sorted /\ sorted ≡ₚ outcomes /\
      forall k,
        filter (fun o => by_mailbox localeCompare o k <= 0 /\ by_mailbox localeCompare k o <= 0) sorted =
        filter (fun o => by_mailbox localeCompare o k <= 0 /\ by_mailbox localeCompare k o <= 0) outcomes) /\
  (Collation.by_code localeCompare ->
   let lexical :=
     StronglySorted (fun a b => Collation.lexicographic (mailbox a) (mailbox b)) in
   (forall fuel filters ctx agg cs,
       searchMessages fuel filters ctx = (Resolved agg, cs) -> lexical (results agg)) /\
   (forall fuel filters ctx agg cs,
       deleteMessages fuel filters ctx = (Resolved agg, cs) -> lexical (results agg))).
Proof.
  intros [Htotal Htrans]. cbv zeta.
  assert (Hsorted : forall l,
             StronglySorted (fun a b => localeCompare (mailbox a) (mailbox b) <= 0)
               (sort (by_mailbox localeCompare) l)).
  { intros l. apply (sort_sorted (by_mailbox localeCompare)); unfold by_mailbox.
    - intros a b. apply Htotal.
    - intros a b c. apply Htrans. }
  assert (Hsearch : forall fuel filters ctx agg cs,
             searchMessages fuel filters ctx = (Resolved agg, cs) ->
             StronglySorted (fun a b => localeCompare (mailbox a) (mailbox b) <= 0)
               (results agg)).
  { intros fuel filters ctx agg cs ER.
    apply searchMessages_resolved in ER as (? & ? & rs & _ & _ & _ & -> & _).
    apply Hsorted. }
  assert (Hdelete : forall fuel filters ctx agg cs,
             deleteMessages fuel filters ctx = (Resolved agg, cs) ->
             StronglySorted (fun a b => localeCompare (mailbox a) (mailbox b) <= 0)
               (results agg)).
  { intros fuel filters ctx agg cs ER.
    apply deleteMessages_resolved in ER as (? & ? & rs & _ & _ & _ & -> & _).
    apply Hsorted. }
  split; [exact Hsearch|]. split; [exact Hdelete|]. split.
  - intros outcomes. split; [apply Hsorted|]. split; [apply sort_perm|].
    intros k. apply (sort_stable (by_mailbox localeCompare)); unfold by_mailbox.
    + intros a b. apply Htotal.
    + intros a b c. apply Htrans.
  - intros Hcode. split.
    + intros fuel filters ctx agg cs ER.
      eapply StronglySorted_weaken; [|exact (Hsearch _ _ _ _ _ ER)].
      intros a b. apply Hcode.
    + intros fuel filters ctx agg cs ER.
      eapply StronglySorted_weaken; [|exact (Hdelete _ _ _ _ _ ER)].
      intros a b. apply Hcode.
Qed.
End Requests.

(* ===================================================================== *)
(** * Theorems: the delete mode *)
(* ===================================================================== *)

Section DeleteModeResolution.
Import Js ExchangeService.
Context {Session : Type} (ews : Endpoint Session) (config : Config).
Context (DeleteMode_value : DeleteMode -> Z).
Context (WellKnownFolderName_value : WellKnownFolderName -> Z).
Context (localeCompare : string -> string -> Z).
Context (Date_parse : string -> option Z) (toISOString : Z -> string).

Local Abbreviation deleteMessages :=
  (deleteMessages Session ews config DeleteMode_value WellKnownFolderName_value
     localeCompare Date_parse toISOString).

Lemma DELETE_MODE_MAP_miss key :
  key ∉ ["softdelete"; "movetodeleteditems"; "harddelete"] ->
  DELETE_MODE_MAP DeleteMode_value !! key = None.
Proof.
  intros Hkey. unfold DELETE_MODE_MAP. simpl.
  rewrite !not_elem_of_cons in Hkey. destruct Hkey as (H1 & H2 & H3 & _).
  rewrite !lookup_insert_ne by done. apply lookup_empty.
Qed.

Lemma resolveDeleteMode_miss deleteMode :
  toLowerCase deleteMode ∉ ["softdelete"; "movetodeleteditems"; "harddelete"] ->
  toLowerCase deleteMode ∉ Object_prototype ->
  resolveDeleteMode DeleteMode_value deleteMode =
  (JsNumber (DeleteMode_value SoftDelete), "softdelete").
Proof.
  intros Hkey Hproto. unfold resolveDeleteMode, get, or_else.
  rewrite DELETE_MODE_MAP_miss by done.
  by rewrite bool_decide_eq_false_2.
Qed.

Lemma resolveDeleteMode_soft :
  resolveDeleteMode DeleteMode_value "softdelete" =
  (JsNumber (DeleteMode_value SoftDelete), "softdelete").
Proof.
  unfold resolveDeleteMode, get, or_else.
  change (toLowerCase "softdelete") with "softdelete".
  unfold DELETE_MODE_MAP. simpl. rewrite lookup_insert_eq. simpl.
  by destruct (_ =? 0).
Qed.

(** The reported mode is the second component of the resolution. *)
Lemma deleteMessages_mode fuel filters ctx agg :
  (deleteMessages fuel filters ctx).1 = Resolved agg ->
  mode (summary agg) =
  (resolveDeleteMode DeleteMode_value (default "softDelete" (f_deleteMode filters))).2.
Proof.
  unfold ExchangeService.deleteMessages.
  destruct (getSearchableMailboxes _ _ _ _) as [[mailboxes|e|] cs0]; try done.
  destruct (resolveFolders _ _ _) as [e|folders]; [done|].
  destruct (Nat.eqb (length mailboxes) 0); [by intros [= <-]|].
  destruct (Promise_all _) as [[rs|e|] css]; try done.
  destruct (delete_partition rs) as [[mailboxResults fails] total].
  by intros [= <-].
Qed.

(** C10 (amended).  A [deleteMode] whose lower-case form is neither one
    of the three keys of [DELETE_MODE_MAP] nor the name of a property
    every object inherits from [Object.prototype] resolves to soft
    delete.  A delete request with such a [deleteMode] is not rejected
    for it: it runs exactly as the same request with [deleteMode]
    ["softdelete"] does, call for call and result for result, and a
    resolved aggregate reports the mode ["softdelete"]. *)
Theorem deleteMode_fallback :
  (forall deleteMode,
      toLowerCase deleteMode ∉ ["softdelete"; "movetodeleteditems"; "harddelete"] ->
      toLowerCase deleteMode ∉ Object_prototype ->
      resolveDeleteMode DeleteMode_value deleteMode =
      (JsNumber (DeleteMode_value SoftDelete), "softdelete")) /\
  (forall fuel filters ctx deleteMode,
      f_deleteMode filters = Some deleteMode ->
      toLowerCase deleteMode ∉ ["softdelete"; "movetodeleteditems"; "harddelete"] ->
      toLowerCase deleteMode ∉ Object_prototype ->
      deleteMessages fuel filters ctx =
        deleteMessages fuel (with_deleteMode "softdelete" filters) ctx /\
      forall agg, (deleteMessages fuel filters ctx).1 = Resolved agg ->
                  mode (summary agg) = "softdelete").
Proof.
  split; [exact resolveDeleteMode_miss|].
  intros fuel filters ctx deleteMode Hmode Hkey Hproto. split.
  - unfold ExchangeService.deleteMessages.
    change (f_deleteMode (with_deleteMode "softdelete" filters)) with (Some "softdelete").
    rewrite Hmode.
    change (default "softDelete" (Some deleteMode)) with deleteMode.
    change (default "softDelete" (Some "softdelete")) with "softdelete".
    rewrite (resolveDeleteMode_miss deleteMode Hkey Hproto), resolveDeleteMode_soft.
    reflexivity.
  - intros agg Hagg. rewrite (deleteMessages_mode _ _ _ _ Hagg), Hmode.
    change (default "softDelete" (Some deleteMode)) with deleteMode.
    by rewrite (resolveDeleteMode_miss deleteMode Hkey Hproto).
Qed.
End DeleteModeResolution.

(* ===================================================================== *)
(** * Theorems: request validation *)
(* ===================================================================== *)

Section Validation.
Import Js ExchangeRoutes.
Context (is_email : string -> bool) (iso_date : Json -> option Z).
Context (to_number : Json -> option Z) (to_boolean : Json -> option bool).

Local Abbreviation validate := (validate is_email iso_date to_number to_boolean).
Local Abbreviation accepts := (accepts is_email iso_date to_number to_boolean).
Local Abbreviation well_formed := (well_formed is_email iso_date to_number to_boolean).

Lemma joi_string_absent key rule :
  joi_string true key rule None = ([{| code := "any.required"; path := key |}], None).
Proof. reflexivity. Qed.

Lemma joi_string_present required key rule s :
  s <> EmptyString -> rule s = None ->
  joi_string required key rule (Some (JString s)) = ([], Some s).
Proof.
  intros Hs Hr. unfold joi_string.
  apply String.eqb_neq in Hs. by rewrite Hs, Hr.
Qed.

Lemma joi_optional_present {A} key c (conv : Json -> option A) ok j a :
  conv j = Some a -> ok a = true -> joi_optional key c conv ok (Some j) = ([], Some a).
Proof. intros Hc Ho. unfold joi_optional. by rewrite Hc, Ho. Qed.

Lemma truthy_nonempty s : s <> EmptyString -> truthy (Some s) = true.
Proof. intros Hs. unfold truthy. apply String.eqb_neq in Hs. by rewrite Hs. Qed.

(** A delete request without [sender] is rejected, whatever else it
    carries. *)
Lemma delete_without_sender b :
  sender b = None -> accepts deleteSchema b = false.
Proof.
  intros Hs. unfold ExchangeRoutes.accepts, ExchangeRoutes.validate. simpl. rewrite Hs. simpl.
  repeat match goal with |- context [let '(_, _) := ?x in _] => destruct x end.
  reflexivity.
Qed.

(** A well-formed delete request that carries [sender] is accepted. *)
Lemma delete_with_sender b :
  well_formed b -> is_Some (sender b) -> accepts deleteSchema b = true.
Proof.
  intros (Hsender & Hsubject & Hfrom & Hto & Horder & Hmax & Hsim) [j Hj].
  unfold ExchangeRoutes.accepts, ExchangeRoutes.validate. simpl.
  rewrite Hj in *. destruct j as [s| | |]; try done. destruct Hsender as [Hne Hmail].
  rewrite joi_string_present by (done || by rewrite Hmail).
  assert (E2 : exists v, joi_string false "subject"
                 (fun s => if (String.length s <=? 256)%nat then None else Some "string.max")
                 (subject b) = ([], v)).
  { destruct (subject b) as [[s2| | |]|]; try done; [|by eexists].
    destruct Hsubject as [Hne2 Hlen]. eexists. apply joi_string_present; [done|].
    apply Nat.leb_le in Hlen. by rewrite Hlen. }
  destruct E2 as [v2 ->].
  assert (E3 : joi_optional "receivedFrom" "date.format" iso_date (fun _ => true) (receivedFrom b)
               = ([], receivedFrom b ≫= iso_date)).
  { destruct (receivedFrom b) as [j|]; [|done]. destruct Hfrom as [x Hx].
    unfold joi_optional. simpl. by rewrite Hx. }
  assert (E4 : joi_optional "receivedTo" "date.format" iso_date (fun _ => true) (receivedTo b)
               = ([], receivedTo b ≫= iso_date)).
  { destruct (receivedTo b) as [j|]; [|done]. destruct Hto as [x Hx].
    unfold joi_optional. simpl. by rewrite Hx. }
  rewrite E3, E4.
  assert (E5 : exists v, joi_optional "maxPerMailbox" "number.base" to_number
                 (fun n => (1 <=? n) && (n <=? 2000)) (maxPerMailbox b) = ([], v)).
  { destruct (maxPerMailbox b) as [j|]; [|by eexists].
    destruct Hmax as (n & Hn & Hrange). eexists. apply joi_optional_present; [exact Hn|].
    apply andb_true_iff. split; apply Z.leb_le; lia. }
  destruct E5 as [v5 ->].
  assert (E6 : exists v,
             (let '(e6, v_sim) :=
                match simulate b with
                | None => ([], Some true)
                | some => joi_optional "simulate" "boolean.base" to_boolean (fun _ => true) some
                end in (e6, v_sim)) = ([] : list Issue, v)).
  { destruct (simulate b) as [j|]; [|by eexists].
    destruct Hsim as [x Hx]. eexists. unfold joi_optional. by rewrite Hx. }
  destruct E6 as [v6 E6].
  destruct (match simulate b with Some _ => _ | None => _ end) as [e6 v_sim].
  injection E6 as -> ->. simpl.
  unfold filter_requirement, truthy. simpl.
  apply String.eqb_neq in Hne. rewrite Hne. simpl.
  destruct (receivedFrom b) as [f|]; simpl; [|done].
  destruct (iso_date f) as [x|]; simpl; [|done].
  destruct (receivedTo b) as [t|]; simpl; [|done].
  destruct (iso_date t) as [y|]; simpl; [|done].
  assert (E : (x >? y) = false) by lia. by rewrite E.
Qed.

(** C9 (amended).  A delete request passes validation, as far as the
    primary filter goes, exactly when [sender] is present: the delete
    schema makes [sender] required, so a request that supplies a subject
    but no sender is rejected. *)
Theorem delete_requires_sender (b : Body) :
  (well_formed b -> (accepts deleteSchema b = true <-> is_Some (sender b))) /\
  (sender b = None -> accepts deleteSchema b = false).
Proof.
  split; [|apply delete_without_sender].
  intros Hwf. split; [|by apply delete_with_sender].
  intros Hacc. destruct (sender b) eqn:E; [by eexists|].
  rewrite delete_without_sender in Hacc; done.
Qed.
End Validation.

(* ===================================================================== *)
(** * Theorems: purge operations *)
(* ===================================================================== *)

Section PurgeOperations.
Import Js ExchangeRoutes PurgeTrace.
Context (affectedMailboxes : string -> list string).

Local Abbreviation handle := (handle affectedMailboxes).
Local Abbreviation run := (run affectedMailboxes).
Local Abbreviation onClose := (onClose affectedMailboxes).

(** The cancel route, by what it reads.  An unknown identifier (or a
    registered context that holds no child) is answered 404 [not-found]
    and changes nothing; a child whose [exitCode] is set is answered 409
    [already-finished], never [cancelling], and its registry entry is
    removed; for a child whose [exitCode] is [null] the context is marked
    cancelled, with reason [user_requested] unless a reason is already
    recorded, and the answer is [cancelling] when [kill()] returned true
    and [pending] otherwise. *)
Lemma cancel_by_identifier from target kill sv :
  let sv' := cancel from target kill sv in
  match activePurges_get sv target with
  | None => sv' = send from [JsonResponse 404 "not-found" None] sv
  | Some (ref, op) =>
      match child (context op), exitCode (process op) with
      | None, _ => sv' = send from [JsonResponse 404 "not-found" None] sv
      | Some _, Some _ =>
          sent sv' = sent sv ++ [(from, JsonResponse 409 "already-finished" None)] /\
          activePurges sv' !! target = None /\
          activePurges_get sv' target = None /\
          operations sv' = operations sv
      | Some _, None =>
          sent sv' = sent sv ++
            [(from, JsonResponse 200 (if killed kill then "cancelling" else "pending") None)] /\
          activePurges sv' = activePurges sv /\
          exists op', operations sv' !! ref = Some op' /\
            cancelled (context op') = true /\
            cancelReason (context op') =
              (if truthy (cancelReason (context op)) then cancelReason (context op)
               else Some "user_requested") /\
            process op' = process op
      end
  end.
Proof.
  cbv zeta. unfold cancel.
  destruct (activePurges_get sv target) as [[ref op]|]; [|done].
  destruct (child (context op)) as [[]|]; [|by destruct (exitCode (process op))].
  destruct (exitCode (process op)) as [c|] eqn:E.
  - rewrite bool_decide_eq_true_2 by (by eexists). simpl.
    split; [done|]. split; [apply lookup_delete_eq|]. split; [|done].
    unfold activePurges_get. simpl. by rewrite lookup_delete_eq.
  - rewrite bool_decide_eq_false_2 by (by intros [? ?]). simpl.
    split; [done|]. split; [done|].
    eexists. split; [apply lookup_insert_eq|]. by simpl.
Qed.

(** C5 (the code misses a case).  The cancel route takes a process for
    finished when its [exitCode] is set.  A child that was ended by a
    signal has exited while its [exitCode] is still [null]: a cancel
    request that names it and arrives before its [close] event is not
    answered 409 [already-finished].  It is answered 200, [cancelling]
    or [pending] as [kill()] returns, the registry entry stays, and the
    context is marked cancelled.  After an exit with a code the same
    request is answered 409 and the registry entry is removed. *)
Theorem cancel_after_signal_exit from kill rid sv op :
  activePurges sv !! rid = Some rid ->
  operations sv !! rid = Some op ->
  child (context op) = Some OwnChild ->
  (let sv' := run rid [Exited None; CancelRequest from rid kill] sv in
   sent sv' =
     sent sv ++
     [(from, JsonResponse 200 (if killed kill then "cancelling" else "pending") None)] /\
   activePurges sv' !! rid = Some rid /\
   exists op', operations sv' !! rid = Some op' /\ cancelled (context op') = true) /\
  (forall code,
     let sv' := run rid [Exited (Some code); CancelRequest from rid kill] sv in
     sent sv' = sent sv ++ [(from, JsonResponse 409 "already-finished" None)] /\
     activePurges sv' !! rid = None).
Proof.
  intros Hreg Hop Hchild.
  assert (Hget : forall code,
            activePurges_get (handle rid (Exited code) sv) rid =
            Some (rid, set_exitCode code op)).
  { intros code. unfold ExchangeRoutes.handle. rewrite Hop.
    unfold activePurges_get. simpl. rewrite Hreg. simpl. by rewrite lookup_insert_eq. }
  assert (Hsent : forall code, sent (handle rid (Exited code) sv) = sent sv).
  { intros code. unfold ExchangeRoutes.handle. by rewrite Hop. }
  assert (Hact : forall code, activePurges (handle rid (Exited code) sv) = activePurges sv).
  { intros code. unfold ExchangeRoutes.handle. by rewrite Hop. }
  split.
  - cbv zeta. unfold ExchangeRoutes.run. cbn [fold_left].
    change (handle rid (CancelRequest from rid kill) (handle rid (Exited None) sv))
      with (cancel from rid kill (handle rid (Exited None) sv)).
    specialize (Hget None). specialize (Hsent None). specialize (Hact None).
    set (ended := handle rid (Exited None) sv) in *. clearbody ended.
    pose proof (cancel_by_identifier from rid kill ended) as H.
    cbv zeta in H. rewrite Hget in H. simpl in H. rewrite Hchild in H.
    destruct H as (Hs & Ha & op' & Hop' & Hc & _).
    split; [by rewrite Hs, Hsent|]. split; [by rewrite Ha, Hact|]. by exists op'.
  - intros code. cbv zeta. unfold ExchangeRoutes.run. cbn [fold_left].
    change (handle rid (CancelRequest from rid kill) (handle rid (Exited (Some code)) sv))
      with (cancel from rid kill (handle rid (Exited (Some code)) sv)).
    specialize (Hget (Some code)). specialize (Hsent (Some code)).
    set (ended := handle rid (Exited (Some code)) sv) in *. clearbody ended.
    pose proof (cancel_by_identifier from rid kill ended) as H.
    cbv zeta in H. rewrite Hget in H. simpl in H. rewrite Hchild in H.
    destruct H as (Hs & Ha & _).
    split; [by rewrite Hs, Hsent|done].
Qed.

Lemma cancel_frame from target kill sv :
  logFile (cancel from target kill sv) = logFile sv /\
  forall rid, is_Some (operations sv !! rid) ->
              is_Some (operations (cancel from target kill sv) !! rid).
Proof.
  unfold cancel.
  destruct (activePurges_get sv target) as [[ref op]|]; [|done].
  destruct (child (context op)) as [[]|]; [|done].
  destruct (bool_decide _); simpl; [done|]. split; [done|].
  intros rid H. destruct (decide (ref = rid)) as [->|Hne].
  - rewrite lookup_insert_eq. by eexists.
  - by rewrite lookup_insert_ne.
Qed.

(** Before the close event nothing is written to the log, and the
    closure of the operation stays. *)
Lemma handle_frame rid ev sv :
  is_close ev = false ->
  is_Some (operations sv !! rid) ->
  logFile (handle rid ev sv) = logFile sv /\
  is_Some (operations (handle rid ev sv) !! rid).
Proof.
  intros Hev [op Hop].
  assert (Hins : forall op' s0, is_Some (operations (set_operation rid op' s0) !! rid)).
  { intros op' s0. simpl. rewrite lookup_insert_eq. by eexists. }
  destruct ev; try done; unfold ExchangeRoutes.handle; rewrite ?Hop.
  - destruct (wantsStream (context op)); simpl; by rewrite lookup_insert_eq.
  - destruct (wantsStream (context op)); simpl; by rewrite lookup_insert_eq.
  - split; [done|]. apply Hins.
  - unfold onRequestClosed. destruct (_ && _); [|by rewrite Hop].
    split; [done|]. apply Hins.
  - unfold onError. destruct (wantsStream (context op)); simpl; by rewrite lookup_insert_eq.
  - destruct (cancel_frame from target kill sv) as [Hl Ho]. split; [done|].
    apply Ho. by eexists.
Qed.

Lemma run_frame rid pre sv :
  Forall (fun ev => is_close ev = false) pre ->
  is_Some (operations sv !! rid) ->
  logFile (run rid pre sv) = logFile sv /\
  is_Some (operations (run rid pre sv) !! rid).
Proof.
  intros Hpre. revert sv. induction Hpre as [|ev pre Hev _ IH]; intros sv Hop; [done|].
  simpl. destruct (handle_frame rid ev sv Hev Hop) as [Hl Ho].
  destruct (IH _ Ho) as [Hl' Ho']. split; [|done].
  etrans; [exact Hl'|exact Hl].
Qed.



Local Ltac closure_kept :=
  unfold stdout_of, stderr_of; simpl; rewrite ?app_nil_r; by repeat split.
Local Ltac closure_done := eexists; split; [reflexivity|]; closure_kept.

Lemma handle_closure rid ev sv op :
  is_close ev = false -> operations sv !! rid = Some op ->
  exists op', operations (handle rid ev sv) !! rid = Some op' /\
    request op' = request op /\ startedAt op' = startedAt op /\
    stdout op' = stdout op ++ stdout_of [ev] /\
    stderr op' = stderr op ++ stderr_of [ev] /\
    wantsStream (context op') = wantsStream (context op) /\
    logFile (handle rid ev sv) = logFile sv.
Proof.
  intros Hev Hop.
  destruct ev; try done; unfold ExchangeRoutes.handle; rewrite ?Hop.
  - destruct (wantsStream (context op)) eqn:Ew; simpl; rewrite lookup_insert_eq;
      closure_done.
  - destruct (wantsStream (context op)) eqn:Ew; simpl; rewrite lookup_insert_eq;
      closure_done.
  - simpl. rewrite lookup_insert_eq. closure_done.
  - unfold onRequestClosed. destruct (_ && _).
    + simpl. rewrite lookup_insert_eq. closure_done.
    + exists op; closure_kept.
  - unfold onError. destruct (wantsStream (context op)) eqn:Ew; simpl; rewrite lookup_insert_eq;
      closure_done.
  - unfold cancel.
    destruct (activePurges_get sv target) as [[ref' op0]|] eqn:EG;
      [|exists op; closure_kept].
    destruct (child (context op0)) as [[]|];
      [|exists op; closure_kept].
    destruct (bool_decide _); simpl; [exists op; closure_kept|].
    destruct (decide (ref' = rid)) as [->|Hneq].
    + rewrite lookup_insert_eq. eexists. split; [reflexivity|].
      unfold activePurges_get in EG.
      destruct (activePurges sv !! target) as [r|]; [|done]. simpl in EG.
      destruct (operations sv !! r) as [o|] eqn:Eo; [|done]. simpl in EG.
      injection EG as -> ->. rewrite Hop in Eo. injection Eo as <-.
      closure_kept.
    + rewrite lookup_insert_ne by done. exists op; closure_kept.
Qed.

Lemma run_closure rid pre sv op :
  Forall (fun ev => is_close ev = false) pre -> operations sv !! rid = Some op ->
  exists op', operations (run rid pre sv) !! rid = Some op' /\
    request op' = request op /\ startedAt op' = startedAt op /\
    stdout op' = stdout op ++ stdout_of pre /\
    stderr op' = stderr op ++ stderr_of pre /\
    wantsStream (context op') = wantsStream (context op) /\
    logFile (run rid pre sv) = logFile sv.
Proof.
  intros Hpre. revert sv op. induction Hpre as [|ev pre Hev _ IH]; intros sv op Hop.
  - exists op. by repeat split; rewrite ?app_nil_r.
  - destruct (handle_closure rid ev sv op Hev Hop)
      as (op1 & Hop1 & Hreq & Hstart & Hout & Herr & Hstream & Hlog).
    destruct (IH _ _ Hop1) as (op2 & Hop2 & Hreq2 & Hstart2 & Hout2 & Herr2 & Hstream2 & Hlog2).
    exists op2. unfold ExchangeRoutes.run in *. simpl.
    split; [done|]. split; [congruence|]. split; [congruence|].
    split; [rewrite Hout2, Hout; unfold stdout_of; simpl; by rewrite app_nil_r, app_assoc|].
    split; [rewrite Herr2, Herr; unfold stderr_of; simpl; by rewrite app_nil_r, app_assoc|].
    split; congruence.
Qed.

End PurgeOperations.

(* ===================================================================== *)
(** * The theorems at work on the sample deployment *)
(* ===================================================================== *)

Section SampleRuns.
Import Js ExchangeService.


Lemma sample_localeCompare_by_code : Collation.by_code Sample.localeCompare.
Proof.
  intros a b. unfold Sample.localeCompare, Collation.lexicographic.
  destruct (String_as_OT.compare_spec a b) as [Heq|Hlt|Hgt]; split; try lia; auto.
  intros [->|Hlt]; exfalso.
  - by apply (StrictOrder_Irreflexive b).
  - apply (StrictOrder_Irreflexive a). by etrans.
Qed.

Lemma sample_localeCompare_consistent : consistent Sample.localeCompare.
Proof.
  assert (Hle : forall a b, Sample.localeCompare a b <= 0 <-> a = b \/ String_as_OT.lt a b).
  { exact sample_localeCompare_by_code. }
  split.
  - intros a b. rewrite !Hle.
    destruct (String_as_OT.compare_spec a b) as [Heq|Hlt|Hgt]; auto.
  - intros a b c. rewrite !Hle. intros [->|H1] [->|H2]; auto.
    right. by etrans.
Qed.

(** A dry run on the sample deployment. *)
Lemma simulate_issues_no_delete_witness :
  let run := Sample.deleteMessages 5 (Sample.request None None) Sample.no_context in
  default true (f_simulate (Sample.request None None)) = true /\
  Forall (fun c => is_delete_call c = false) run.2 /\
  exists agg, run.1 = Resolved agg /\ totalDeleted (summary agg) = Some 0.
Proof.
  cbv zeta.
  assert (H : default true (f_simulate (Sample.request None None)) = true) by reflexivity.
  destruct (simulate_issues_no_delete Sample.endpoint Sample.config Sample.DeleteMode_value
              Sample.WellKnownFolderName_value Sample.localeCompare Sample.Date_parse
              Sample.toISOString 5 (Sample.request None None) Sample.no_context H)
    as (H1 & _ & H3 & _).
  split; [exact H|]. split; [exact H1|].
  assert (E : exists agg,
             (Sample.deleteMessages 5 (Sample.request None None) Sample.no_context).1 =
             Resolved agg) by (vm_compute; eexists; reflexivity).
  destruct E as [agg E]. exists agg. split; [exact E|]. apply H3. exact E.
Defined.


(** The mailbox whose client cannot be set up lands in [failures]
    only. *)
Lemma aggregation_is_a_partition_witness :
  exists agg cs,
    Sample.searchMessages 5 (Sample.request None None) Sample.no_context = (Resolved agg, cs) /\
    "c@x.com" ∈ map mailbox (failures agg) /\
    ~ "c@x.com" ∈ map mailbox (results agg).
Proof.
  assert (E : exists agg cs,
             Sample.searchMessages 5 (Sample.request None None) Sample.no_context =
             (Resolved agg, cs)) by (vm_compute; eexists; eexists; reflexivity).
  destruct E as (agg & cs & E). exists agg, cs. split; [exact E|].
  assert (Hmb : (getSearchableMailboxes unit Sample.endpoint Sample.config Sample.no_context).1 =
                Resolved Sample.directory) by (vm_compute; reflexivity).
  assert (Hfold : resolveFolders Sample.config Sample.WellKnownFolderName_value
                    (f_folders (Sample.request None None)) = inr [Sample.inbox])
    by (vm_compute; reflexivity).
  assert (Hnd : NoDup (map smtpAddress Sample.directory))
    by (apply (bool_decide_unpack _); vm_compute; exact I).
  assert (Hin : Sample.entry "c@x.com" ∈ Sample.directory)
    by (unfold Sample.directory; rewrite !elem_of_cons; auto).
  pose proof (proj1 (aggregation_is_a_partition Sample.endpoint Sample.config
                       Sample.DeleteMode_value Sample.WellKnownFolderName_value
                       Sample.localeCompare Sample.Date_parse Sample.toISOString
                       5 (Sample.request None None) Sample.no_context
                       Sample.directory [Sample.inbox] (Sample.entry "c@x.com")
                       Hmb Hfold Hnd Hin) agg cs E) as P.
  cbv zeta in P.
  remember (collectMatchesForMailbox unit Sample.endpoint Sample.config 5
              (Sample.entry "c@x.com") [Sample.inbox]
              (searchQuery Sample.Date_parse Sample.toISOString (Sample.request None None))
              (searchLimit Sample.config (Sample.request None None))
              (searchContext Sample.no_context (Sample.entry "c@x.com"))).1 as outcome eqn:Ho.
  vm_compute in Ho. subst outcome. exact P.
Defined.

(** The sample comparator is consistent, so the sample results are
    sorted. *)
Lemma results_sorted_by_mailbox_witness :
  consistent Sample.localeCompare /\ Collation.by_code Sample.localeCompare /\
  exists agg cs,
    Sample.searchMessages 5 (Sample.request None None) Sample.no_context = (Resolved agg, cs) /\
    StronglySorted (fun a b => Sample.localeCompare (mailbox a) (mailbox b) <= 0) (results agg) /\
    StronglySorted (fun a b => Collation.lexicographic (mailbox a) (mailbox b)) (results agg).
Proof.
  split; [exact sample_localeCompare_consistent|].
  split; [exact sample_localeCompare_by_code|].
  assert (E : exists agg cs,
             Sample.searchMessages 5 (Sample.request None None) Sample.no_context =
             (Resolved agg, cs)) by (vm_compute; eexists; eexists; reflexivity).
  destruct E as (agg & cs & E). exists agg, cs. split; [exact E|].
  destruct (results_sorted_by_mailbox Sample.endpoint Sample.config
              Sample.DeleteMode_value Sample.WellKnownFolderName_value
              Sample.localeCompare Sample.Date_parse Sample.toISOString
              sample_localeCompare_consistent) as (Hsearch & _ & _ & Hcode).
  split.
  - exact (Hsearch 5%nat _ _ agg cs E).
  - exact (proj1 (Hcode sample_localeCompare_by_code) 5%nat _ _ agg cs E).
Defined.

(** On a host whose comparator ignores letter case the results of the
    search over the directory [B@x.com], [a@x.com] come back as
    [a@x.com], [B@x.com]: sorted for the comparator, and not in
    case-sensitive lexicographic order, where [B] comes before [a]. *)
Lemma results_not_lexicographic :
  consistent Fixtures.caseless /\
  exists agg cs,
    searchMessages unit Fixtures.two_cases Sample.config Sample.WellKnownFolderName_value
      Fixtures.caseless Sample.Date_parse Sample.toISOString
      5 (Sample.request None None) Sample.no_context = (Resolved agg, cs) /\
    map mailbox (results agg) = ["a@x.com"; "B@x.com"] /\
    ~ StronglySorted (fun a b => Collation.lexicographic (mailbox a) (mailbox b))
        (results agg).
Proof.
  split.
  { destruct sample_localeCompare_consistent as [Htotal Htrans]. split.
    - intros a b. apply Htotal.
    - intros a b c. apply Htrans. }
  assert (E : exists agg cs,
             searchMessages unit Fixtures.two_cases Sample.config
               Sample.WellKnownFolderName_value Fixtures.caseless Sample.Date_parse
               Sample.toISOString 5 (Sample.request None None) Sample.no_context =
             (Resolved agg, cs) /\
             map mailbox (results agg) = ["a@x.com"; "B@x.com"])
    by (vm_compute; eexists; eexists; split; reflexivity).
  destruct E as (agg & cs & E & Hmap). exists agg, cs.
  split; [exact E|]. split; [exact Hmap|].
  intros Hsorted.
  destruct (results agg) as [|o1 [|o2 [|o3 rest]]]; try discriminate Hmap.
  injection Hmap as H1 H2.
  apply StronglySorted_inv in Hsorted as [_ Hfirst].
  apply Forall_cons in Hfirst as [Hle _]. rewrite H1, H2 in Hle.
  destruct Hle as [Heq|Hlt]; [discriminate Heq|].
  apply (StrictOrder_Irreflexive "a@x.com").
  transitivity "B@x.com"; [exact Hlt|]. by vm_compute.
Qed.


(** An unknown mode falls back to soft delete: the live sample request
    with [deleteMode] [Purge] runs as a soft delete. *)
Lemma deleteMode_fallback_witness :
  resolveDeleteMode Sample.DeleteMode_value "Purge" = (JsNumber 1, "softdelete") /\
  Sample.deleteMessages 5 (Sample.request (Some false) (Some "Purge")) Sample.no_context =
  Sample.deleteMessages 5
    (with_deleteMode "softdelete" (Sample.request (Some false) (Some "Purge")))
    Sample.no_context.
Proof.
  assert (Hkey : toLowerCase "Purge" ∉ ["softdelete"; "movetodeleteditems"; "harddelete"])
    by (apply (bool_decide_unpack _); vm_compute; exact I).
  assert (Hproto : toLowerCase "Purge" ∉ Object_prototype)
    by (apply (bool_decide_unpack _); vm_compute; exact I).
  destruct (deleteMode_fallback Sample.endpoint Sample.config Sample.DeleteMode_value
              Sample.WellKnownFolderName_value Sample.localeCompare Sample.Date_parse
              Sample.toISOString) as [Hresolve Hrun].
  split.
  - exact (Hresolve "Purge" Hkey Hproto).
  - exact (proj1 (Hrun 5%nat (Sample.request (Some false) (Some "Purge")) Sample.no_context
                    "Purge" eq_refl Hkey Hproto)).
Defined.

(** The request [{ deleteMode: "constructor", simulate: false }] on the
    sample deployment: [constructor] is none of the three modes, yet the
    aggregate reports the mode ["constructor"], not ["softdelete"], and
    the delete calls carry the inherited function as their mode. *)
Lemma constructor_mode_is_reported :
  (toLowerCase "constructor" ∉ ["softdelete"; "movetodeleteditems"; "harddelete"]) /\
  exists agg cs,
    Sample.deleteMessages 5 (Sample.request (Some false) (Some "constructor"))
      Sample.no_context = (Resolved agg, cs) /\
    mode (summary agg) = "constructor" /\
    mode (summary agg) <> "softdelete" /\
    CallDeleteItems (Some "d@x.com") [Some {| UniqueId := "id-7"; ChangeKey := "ck" |}]
      (JsInherited "constructor") ∈ cs.
Proof.
  split; [apply (bool_decide_unpack _); vm_compute; exact I|].
  eexists. eexists. split; [vm_compute; reflexivity|]. split; [reflexivity|].
  split; [discriminate|].
  rewrite !elem_of_cons. auto.
Qed.

Import ExchangeRoutes.


(** The sample operation ends on a signal; the cancel request that
    follows is answered 200 [pending] and the operation stays
    registered. *)
Lemma cancel_after_signal_exit_witness :
  let sv' := Sample.run "op-1" [Exited None; CancelRequest "c-1" "op-1" KillFalse]
               Sample.spawned in
  sent sv' = sent Sample.spawned ++ [("c-1", JsonResponse 200 "pending" None)] /\
  activePurges sv' !! "op-1" = Some "op-1".
Proof.
  cbv zeta.
  assert (E : exists op, operations Sample.spawned !! "op-1" = Some op /\
                         child (context op) = Some OwnChild)
    by (vm_compute; eexists; split; reflexivity).
  destruct E as (op & Hop & Hchild).
  assert (Hreg : activePurges Sample.spawned !! "op-1" = Some "op-1")
    by (vm_compute; reflexivity).
  destruct (proj1 (cancel_after_signal_exit Sample.affected "c-1" KillFalse "op-1"
                     Sample.spawned op Hreg Hop Hchild)) as (Hsent & Hact & _).
  split; [exact Hsent | exact Hact].
Defined.


(** A failed spawn on the sample server: the [error] handler answers and
    deregisters, and persists nothing itself; the entry is written when
    [close] follows. *)
Example spawn_failure_then_close :
  let failed := Sample.run "op-1" [ChildError "spawn powershell.exe ENOENT"] Sample.spawned in
  let closed := Sample.run "op-1" [ChildClose (Some (-2)) None 2000 FsOk "u-1"] failed in
  activePurges failed !! "op-1" = None /\ logFile failed = [] /\
  map log_status (logFile closed) = ["failed"].
Proof. by vm_compute. Qed.

(** Cancel requests against the sample operation: accepted while it
    runs, not found for another identifier, already finished once the
    process has exited with a code. *)
Example cancel_requests_on_sample :
  let sv := Sample.run "op-1"
              [CancelRequest "c-1" "op-1" KillTrue; CancelRequest "c-2" "op-9" KillTrue;
               Exited (Some 1); CancelRequest "c-3" "op-1" KillTrue] Sample.spawned in
  map snd (sent sv) =
    [JsonResponse 200 "cancelling" None; JsonResponse 404 "not-found" None;
     JsonResponse 409 "already-finished" None] /\
  activePurges sv !! "op-1" = None.
Proof. by vm_compute. Qed.

Lemma sample_subject_only_well_formed : Sample.well_formed Sample.subject_only.
Proof.
  unfold Sample.well_formed, well_formed. simpl.
  repeat split; try done. lia.
Qed.

Lemma sample_sender_only_well_formed : Sample.well_formed Sample.sender_only.
Proof.
  unfold Sample.well_formed, well_formed. simpl.
  repeat split; try done. exists 50. split; [done|lia].
Qed.

(** The delete request [{ subject: "Invoice" }] is well formed and
    carries a subject, yet it does not pass validation: acceptance is not
    "sender or subject present". *)
Lemma subject_only_delete_rejected :
  ~ (forall b : Body,
        Sample.well_formed b ->
        (Sample.accepts deleteSchema b = true <->
         is_Some (sender b) \/ is_Some (subject b))).
Proof.
  intros H. destruct (H Sample.subject_only sample_subject_only_well_formed) as [_ Hacc].
  assert (Hno : Sample.accepts deleteSchema Sample.subject_only = false) by reflexivity.
  rewrite Hacc in Hno; [discriminate|]. right. by eexists.
Qed.

(** The delete request [{ sender: "evil@x.com", maxPerMailbox: 50 }]
    passes. *)
Lemma delete_requires_sender_witness :
  Sample.well_formed Sample.sender_only /\
  (Sample.accepts deleteSchema Sample.sender_only = true <->
   is_Some (sender Sample.sender_only)) /\
  sender Sample.subject_only = None /\
  Sample.accepts deleteSchema Sample.subject_only = false.
Proof.
  destruct (delete_requires_sender Sample.is_email Sample.iso_date Sample.to_number
              Sample.to_boolean Sample.sender_only) as [Hiff _].
  destruct (delete_requires_sender Sample.is_email Sample.iso_date Sample.to_number
              Sample.to_boolean Sample.subject_only) as [_ Hnone].
  split; [exact sample_sender_only_well_formed|].
  split; [exact (Hiff sample_sender_only_well_formed)|].
  split; [reflexivity | exact (Hnone eq_refl)].
Defined.

(** The query of the request [{ sender: "evil@x.com", keywords:
    ["invoice", (empty), "urgent"], hasAttachments: true }]: the empty
    keyword is dropped. *)
Example query_of_sample_filter :
  QueryBuilder.buildAqsQuery Sample.Date_parse Sample.toISOString
    {| QueryBuilder.sender := Some "evil@x.com"; QueryBuilder.subject := None;
       QueryBuilder.body := None;
       QueryBuilder.keywords := Some ["invoice"; EmptyString; "urgent"];
       QueryBuilder.receivedFrom := None; QueryBuilder.receivedTo := None;
       QueryBuilder.hasAttachments := Some true; QueryBuilder.importance := None |} =
  join " AND "
    [ "from:" +:+ QueryBuilder.quoted "evil@x.com"; QueryBuilder.quoted "invoice";
      QueryBuilder.quoted "urgent"; "hasattachment:true" ].
Proof. reflexivity. Qed.
End SampleRuns.


(* ===================================================================== *)
(** * Further properties: the query compiler *)
(* ===================================================================== *)

Section QueryCompilerMore.
Import Js QueryBuilder.
Variable Date_parse : string -> option Z.
Variable toISOString : Z -> string.

Lemma escapeValue_quote_preceded (value : string) (n : nat) :
  String.get n (escapeValue value) = Some dquote ->
  exists m, n = S m /\ String.get m (escapeValue value) = Some backslash.
Proof.
  revert n. induction value as [|c r IH]; intros n; simpl; [by destruct n|].
  destruct (Ascii.eqb c dquote) eqn:E.
  - destruct n as [|[|k]]; simpl.
    + discriminate.
    + intros _. by exists 0%nat.
    + intros H. destruct (IH k H) as (m & -> & Hm). by exists (S (S m)).
  - destruct n as [|k]; simpl.
    + intros [= ->]. by rewrite Ascii.eqb_refl in E.
    + intros H. destruct (IH k H) as (m & -> & Hm). by exists (S m).
Qed.

(** X1. In the output of [escapeValue] every double quote is immediately
    preceded by a backslash; in particular the output never starts with a
    double quote. *)
Theorem escapeValue_quotes_escaped (value : string) (n : nat) :
  String.get n (escapeValue value) = Some dquote ->
  exists m, n = S m /\ String.get m (escapeValue value) = Some backslash.
Proof. eapply escapeValue_quote_preceded; eauto. Qed.

Lemma escapeValue_head c r : escapeValue (String c r) <> EmptyString.
Proof. simpl. by destruct (Ascii.eqb c dquote). Qed.

Lemma escapeValue_not_quote_first value rest :
  escapeValue value <> String dquote rest.
Proof.
  intros H.
  destruct (escapeValue_quote_preceded value 0) as (m & Hm & _); [by rewrite H|done].
Qed.

(** X2. [escapeValue] is injective: two different values never escape to
    the same text. *)
Theorem escapeValue_injective (a b : string) :
  escapeValue a = escapeValue b -> a = b.
Proof.
  revert b. induction a as [|c r IH]; intros [|d s] H.
  - done.
  - symmetry in H. by apply escapeValue_head in H.
  - by apply escapeValue_head in H.
  - simpl in H.
    destruct (Ascii.eqb c dquote) eqn:Ec, (Ascii.eqb d dquote) eqn:Ed.
    + apply Ascii.eqb_eq in Ec, Ed. subst. injection H as H. f_equal. by apply IH.
    + injection H as _ H. symmetry in H. by apply escapeValue_not_quote_first in H.
    + injection H as _ H. by apply escapeValue_not_quote_first in H.
    + injection H as -> H. f_equal. by apply IH.
Qed.

(** The first character of a string, if any. *)
Lemma join_first sep c r l :
  exists rest, join sep (String c r :: l) = String c rest.
Proof. destruct l; simpl; by eexists. Qed.

Lemma atoms_first (f : AqsFilter) :
  Forall (fun atom => exists c rest, atom = String c rest /\ c <> "k"%char)
    (spec_atoms Date_parse toISOString f).
Proof.
  unfold spec_atoms. repeat apply Forall_app_2.
  - unfold spec_sender, when. destruct (truthy _); repeat constructor.
    by exists "f"%char, ("rom:" +:+ quoted (opt_str (sender f))).
  - unfold spec_subject, when. destruct (truthy _); repeat constructor.
    by exists "s"%char, ("ubject:" +:+ quoted (opt_str (subject f))).
  - unfold spec_body, when. destruct (truthy _); repeat constructor.
    by exists "b"%char, ("ody:" +:+ quoted (opt_str (body f))).
  - unfold spec_keywords. apply Forall_fmap, Forall_forall. intros w _. simpl.
    by exists dquote, (escapeValue w +:+ String dquote EmptyString).
  - unfold spec_received_after, when. destruct (truthy _); repeat constructor.
    by exists "r"%char,
      ("eceived>=" +:+ opt_str (toDatePart Date_parse toISOString (receivedFrom f))).
  - unfold spec_received_before, when. destruct (truthy _); repeat constructor.
    by exists "r"%char,
      ("eceived<=" +:+ opt_str (toDatePart Date_parse toISOString (receivedTo f))).
  - unfold spec_attachment. destruct (hasAttachments f); repeat constructor.
    by exists "h"%char, ("asattachment:" +:+ string_of_bool b).
  - unfold spec_importance, when. destruct (truthy _); repeat constructor.
    by exists "i"%char, ("mportance:" +:+ toLowerCase (opt_str (importance f))).
Qed.

(** The compiled query, by its atoms (the declarative reading of
    [buildAqsQuery]). *)
Lemma buildAqsQuery_atoms (f : AqsFilter) :
  buildAqsQuery Date_parse toISOString f =
  match spec_atoms Date_parse toISOString f with
  | [] => DEFAULT_QUERY
  | atoms => join " AND " atoms
  end.
Proof.
  rewrite buildAqsQuery_clauses. cbv zeta. rewrite keyword_slot.
  unfold spec_atoms.
  set (pre := spec_sender f ++ spec_subject f ++ spec_body f).
  set (post := spec_received_after _ _ f ++ _).
  replace (spec_sender f ++ spec_subject f ++ spec_body f ++ spec_keywords f ++ post)
    with (pre ++ spec_keywords f ++ post) by (unfold pre; by rewrite <- !app_assoc).
  destruct (spec_keywords f) as [|k ks] eqn:E.
  - by destruct (pre ++ [] ++ post).
  - rewrite join_nested by done.
    destruct pre; reflexivity.
Qed.

(** The default query is returned exactly when no atom applies, and the
    compiled query is never empty. *)
Lemma buildAqsQuery_default_atoms (f : AqsFilter) :
  buildAqsQuery Date_parse toISOString f <> EmptyString /\
  (buildAqsQuery Date_parse toISOString f = DEFAULT_QUERY <->
   spec_atoms Date_parse toISOString f = []).
Proof.
  rewrite buildAqsQuery_atoms. pose proof (atoms_first f) as Hall.
  destruct (spec_atoms Date_parse toISOString f) as [|atom atoms]; [done|].
  apply Forall_cons in Hall as [(c & rest & -> & Hc) _].
  destruct (join_first " AND " c rest atoms) as [tail ->].
  split; [done|]. split; [|done].
  unfold DEFAULT_QUERY. intros [= -> _]. done.
Qed.

Lemma when_nil (guard : bool) (atom : string) : when guard [atom] = [] <-> guard = false.
Proof. by destruct guard. Qed.

Lemma spec_keywords_nil (f : AqsFilter) :
  spec_keywords f = [] <-> Forall (fun w => w = EmptyString) (default [] (keywords f)).
Proof.
  unfold spec_keywords. induction (default [] (keywords f)) as [|w ws IH]; [done|].
  rewrite (filter_cons _ w). destruct (String.eqb_spec w EmptyString) as [->|Hne].
  - rewrite decide_False by done. rewrite IH. split; [by constructor|].
    by intros [_ ?]%Forall_cons.
  - apply String.eqb_neq in Hne as Hb. rewrite decide_True.
    + split; [done|]. by intros [? _]%Forall_cons.
    + cbv beta. by destruct (String.eqb w EmptyString).
Qed.

Lemma buildAqsQuery_default_fields (f : AqsFilter) :
  buildAqsQuery Date_parse toISOString f <> EmptyString /\
  (buildAqsQuery Date_parse toISOString f = DEFAULT_QUERY <->
   truthy (sender f) = false /\ truthy (subject f) = false /\ truthy (body f) = false /\
   Forall (fun w => w = EmptyString) (default [] (keywords f)) /\
   truthy (toDatePart Date_parse toISOString (receivedFrom f)) = false /\
   truthy (toDatePart Date_parse toISOString (receivedTo f)) = false /\
   hasAttachments f = None /\ truthy (importance f) = false).
Proof.
  destruct (buildAqsQuery_default_atoms f) as [Hne Hiff]. split; [done|].
  rewrite Hiff. unfold spec_atoms.
  rewrite !app_nil. unfold spec_sender, spec_subject, spec_body, spec_received_after,
    spec_received_before, spec_importance. rewrite !when_nil, spec_keywords_nil.
  unfold spec_attachment. destruct (hasAttachments f); [|tauto].
  split; [by intros (_ & _ & _ & _ & _ & _ & ? & _)|by intros (_ & _ & _ & _ & _ & _ & ? & _)].
Qed.

(** X3.  The match-everything query.  [buildAqsQuery] never returns the
    empty string, and it returns the default query [kind:email] exactly
    when nothing in the filter applies: sender, subject, body and
    importance are absent or empty, every keyword is empty, neither date
    yields a date part, and [hasAttachments] is not a boolean. *)
Theorem buildAqsQuery_default_iff (f : AqsFilter) :
  buildAqsQuery Date_parse toISOString f <> EmptyString /\
  (buildAqsQuery Date_parse toISOString f = DEFAULT_QUERY <->
   truthy (sender f) = false /\ truthy (subject f) = false /\ truthy (body f) = false /\
   Forall (fun w => w = EmptyString) (default [] (keywords f)) /\
   truthy (toDatePart Date_parse toISOString (receivedFrom f)) = false /\
   truthy (toDatePart Date_parse toISOString (receivedTo f)) = false /\
   hasAttachments f = None /\ truthy (importance f) = false).
Proof. eapply buildAqsQuery_default_fields; eauto. Qed.
End QueryCompilerMore.


(* ===================================================================== *)
(** * Further properties: scanning a mailbox *)
(* ===================================================================== *)

Section ScanMore.
Import Js ExchangeService Trace.
Context {Session : Type} (ews : Endpoint Session) (config : Config).

Local Abbreviation pageLoop := (pageLoop Session ews config).
Local Abbreviation findItemsInFolder := (findItemsInFolder Session ews config).
Local Abbreviation call_FindItems := (call_FindItems Session ews).
Local Abbreviation collectLoop := (collectLoop Session ews config).
Local Abbreviation deleteLoop := (deleteLoop Session ews config).

Lemma extends_with_refl (P : RemoteCall -> Prop) (svc : Service Session) :
  extends_with P svc svc.
Proof. split; [done|]. exists []. by rewrite app_nil_r. Qed.

Lemma extends_with_trans (P : RemoteCall -> Prop) (a b c : Service Session) :
  extends_with P a b -> extends_with P b c -> extends_with P a c.
Proof.
  intros [Hi1 (c1 & H1 & F1)] [Hi2 (c2 & H2 & F2)]. split; [congruence|].
  exists (c1 ++ c2). rewrite H2, H1, app_assoc. split; [done|].
  by apply Forall_app.
Qed.

Lemma extends_with_impl (P Q : RemoteCall -> Prop) (a b : Service Session) :
  (forall c, P c -> Q c) -> extends_with P a b -> extends_with Q a b.
Proof.
  intros HPQ [Hi (cs & Hcs & HF)]. split; [done|]. exists cs. split; [done|].
  eapply Forall_impl; [exact HF|exact HPQ].
Qed.

Lemma call_FindItems_extends (P : RemoteCall -> Prop) fid q view svc r svc' :
  call_FindItems fid q view svc = (r, svc') ->
  P (CallFindItems (ImpersonatedUserId svc) fid q view) ->
  extends_with P svc svc'.
Proof.
  intros H HP. apply call_FindItems_effect in H as [Hc Hi]. split; [done|].
  eexists. split; [exact Hc|]. by constructor.
Qed.

(** Every call of the paging loop asks for a page within the limit and
    the configured page size. *)
Lemma pageLoop_calls fuel fid q limit t results items svc r svc' :
  pageLoop fuel fid q limit t results items svc = (r, svc') ->
  extends_with (scan_call (ImpersonatedUserId svc) [fid] q limit (pageSize config)) svc svc'.
Proof.
  revert results items svc.
  induction fuel as [|fuel IH]; intros results items svc; simpl;
    destruct (moreAvailable results && (Z.of_nat (length items) <? limit)) eqn:E;
    try (intros [= <- <-]; apply extends_with_refl).
  apply andb_true_iff in E as [_ E]. apply Z.ltb_lt in E.
  unfold bind at 1.
  destruct (call_FindItems _ _ _ svc) as [[x|e|] s1] eqn:EC.
  - assert (Hstep : extends_with
                      (scan_call (ImpersonatedUserId svc) [fid] q limit (pageSize config)) svc s1).
    { eapply call_FindItems_extends; [exact EC|]. simpl.
      split; [done|]. split; [by apply list_elem_of_singleton|]. split; [done|]. lia. }
    unfold bind, lift_throwing.
    destruct (appendResults limit t x items) as [items1|]; simpl.
    + intros H. apply IH in H. destruct Hstep as [Hi Hcs].
      rewrite Hi in H. eapply extends_with_trans; [|exact H]. by split.
    + by intros [= <- <-].
  - intros [= <- <-]. eapply call_FindItems_extends; [exact EC|]. simpl.
    split; [done|]. split; [by apply list_elem_of_singleton|]. split; [done|]. lia.
  - intros [= <- <-]. eapply call_FindItems_extends; [exact EC|]. simpl.
    split; [done|]. split; [by apply list_elem_of_singleton|]. split; [done|]. lia.
Qed.

Lemma findItemsInFolder_calls fuel fd q limit mbx ctx svc r svc' :
  findItemsInFolder fuel fd q limit mbx ctx svc = (r, svc') ->
  extends_with (scan_call (ImpersonatedUserId svc) [folderId fd] q limit (pageSize config))
    svc svc'.
Proof.
  unfold ExchangeService.findItemsInFolder. destruct (limit <=? 0) eqn:E0.
  - intros [= <- <-]. apply extends_with_refl.
  - apply Z.leb_gt in E0. unfold try_catch, bind at 1.
    destruct (call_FindItems _ _ _ svc) as [[x|e|] s1] eqn:EC.
    + assert (Hstep : extends_with
                        (scan_call (ImpersonatedUserId svc) [folderId fd] q limit (pageSize config))
                        svc s1).
      { eapply call_FindItems_extends; [exact EC|]. simpl.
        split; [done|]. split; [by apply list_elem_of_singleton|]. split; [done|]. lia. }
      unfold bind, lift_throwing.
      destruct (appendResults limit _ x []) as [items1|]; simpl.
      * destruct (pageLoop _ _ _ _ _ _ _ _) as [[o|e|] s2] eqn:EL;
          apply pageLoop_calls in EL; destruct Hstep as [Hi Hcs];
          rewrite Hi in EL; intros [= <- <-];
          (eapply extends_with_trans; [|exact EL]); by split.
      * by intros [= <- <-].
    + intros [= <- <-]. eapply call_FindItems_extends; [exact EC|]. simpl.
      split; [done|]. split; [by apply list_elem_of_singleton|]. split; [done|]. lia.
    + intros [= <- <-]. eapply call_FindItems_extends; [exact EC|]. simpl.
      split; [done|]. split; [by apply list_elem_of_singleton|]. split; [done|]. lia.
Qed.

Lemma appendItems_tagged limit mbx fld its items items' :
  appendItems limit (buildTransform mbx fld) its items = Some items' ->
  Forall (tagged mbx fld) items -> Forall (tagged mbx fld) items'.
Proof.
  revert items. induction its as [|it its IH]; intros items; simpl.
  - by intros [= <-].
  - destruct (Z.of_nat (length items) >=? limit); [apply IH|].
    destruct (buildTransform mbx fld it) as [md|] eqn:ET; [|done].
    intros H HF. apply (IH _ H). apply Forall_app. split; [done|].
    constructor; [|done]. unfold buildTransform in ET.
    destruct (DateTimeReceived it) as [[iso|]|]; try done; by injection ET as <-.
Qed.

Lemma appendResults_tagged limit mbx fld results items items' :
  appendResults limit (buildTransform mbx fld) results items = Some items' ->
  Forall (tagged mbx fld) items -> Forall (tagged mbx fld) items'.
Proof.
  unfold appendResults. destruct results as [r|]; [destruct (Items r)|];
    try (by intros [= <-]).
  apply appendItems_tagged.
Qed.

Lemma pageLoop_tagged fuel fid q limit mbx fld results items svc out svc' :
  pageLoop fuel fid q limit (buildTransform mbx fld) results items svc = (Resolved out, svc') ->
  Forall (tagged mbx fld) items -> Forall (tagged mbx fld) out.
Proof.
  revert results items svc.
  induction fuel as [|fuel IH]; intros results items svc; simpl;
    destruct (moreAvailable results && (Z.of_nat (length items) <? limit));
    try discriminate;
    try (intros [= <- <-] HF; unfold slice0; by apply Forall_take).
  unfold bind at 1.
  destruct (call_FindItems _ _ _ svc) as [[r|e|] s1]; try discriminate.
  unfold bind, lift_throwing.
  destruct (appendResults limit _ r items) as [items1|] eqn:EA; simpl; [|discriminate].
  intros H HF. eapply IH; [exact H|]. by eapply appendResults_tagged.
Qed.

Lemma findItemsInFolder_entries fuel fd q limit mbx ctx svc out svc' :
  findItemsInFolder fuel fd q limit mbx ctx svc = (Resolved out, svc') ->
  Forall (tagged mbx (name fd)) out.
Proof.
  unfold ExchangeService.findItemsInFolder. destruct (limit <=? 0).
  - intros [= <- <-]. constructor.
  - unfold try_catch, bind at 1.
    destruct (call_FindItems _ _ _ svc) as [[r|e|] s1]; try discriminate.
    unfold bind, lift_throwing.
    destruct (appendResults limit _ r []) as [items1|] eqn:EA; simpl; [|discriminate].
    destruct (pageLoop _ _ _ _ _ _ _ _) as [[o|e|] s2] eqn:EL; try discriminate.
    intros [= <- <-]. eapply pageLoop_tagged; [exact EL|].
    eapply appendResults_tagged; [exact EA|constructor].
Qed.

(** X4. Every record a folder scan returns is tagged with the mailbox
    and the folder name it was asked for, and carries the identifier of
    the remote item it was made from. *)
Theorem findItemsInFolder_tagged fuel fd q limit mbx ctx svc out svc' :
  findItemsInFolder fuel fd q limit mbx ctx svc = (Resolved out, svc') ->
  Forall (tagged mbx (name fd)) out.
Proof. eapply findItemsInFolder_entries; eauto. Qed.

(** X5. A scan that fails does so with an error of status 502 that is
    exposed to the client and names the mailbox and the folder. *)
Theorem findItemsInFolder_error_context fuel fd q limit mbx ctx svc e svc' :
  findItemsInFolder fuel fd q limit mbx ctx svc = (Rejected e, svc') ->
  status e = Some 502 /\ expose e = true /\
  message e = "Failed to search mailbox folder" /\
  ("mailbox", mbx) ∈ details e /\ ("folder", name fd) ∈ details e.
Proof.
  unfold ExchangeService.findItemsInFolder. destruct (limit <=? 0); [done|].
  unfold try_catch.
  destruct (bind _ _ svc) as [[x|e'|] s]; try done.
  unfold throw. intros [= <- <-]. simpl. repeat split; try done.
  - by apply elem_of_cons; left.
  - apply elem_of_cons; right. by apply elem_of_cons; left.
Qed.

(** What a record of a mailbox task looks like: it belongs to the mailbox
    and to one of the target folders. *)
Local Abbreviation of_mailbox := (fun (mbx : MailboxEntry) (names : list string) (m : MatchRecord) =>
  in_mailbox m = smtpAddress mbx /\ in_folder m ∈ names).

(** The folder loop of [deleteForMailbox], in full: the calls it makes,
    the cap on what it collects, where its records come from, and the
    identifiers it collects. *)
Lemma deleteLoop_full fuel folders fids names q limit mbx ctx found ids svc r svc' :
  Forall (fun f => folderId f ∈ fids /\ name f ∈ names) folders ->
  deleteLoop fuel folders q limit mbx ctx found ids svc = (r, svc') ->
  extends_with (scan_call (ImpersonatedUserId svc) fids q limit (pageSize config)) svc svc' /\
  forall found' ids', r = Resolved (found', ids') ->
    (Z.of_nat (length found) <= limit -> Z.of_nat (length found') <= limit) /\
    (Forall (of_mailbox mbx names) found -> Forall (of_mailbox mbx names) found') /\
    (map id found = map (fmap UniqueId) ids -> map id found' = map (fmap UniqueId) ids').
Proof.
  intros Hfolders. revert found ids svc.
  induction Hfolders as [|folder rest [Hfid Hname] _ IH]; intros found ids svc; simpl.
  - intros [= <- <-]. split; [apply extends_with_refl|]. by intros ?? [= <- <-].
  - unfold bind at 1.
    destruct (findItemsInFolder _ _ _ _ _ _ svc) as [[items|e|] s1] eqn:EF.
    + pose proof (findItemsInFolder_entries _ _ _ _ _ _ _ _ _ EF) as Htag.
      pose proof (findItemsInFolder_bound _ _ _ _ _ _ _ _ _ _ _ EF) as [Hbound _].
      apply findItemsInFolder_calls in EF.
      assert (Hstep : extends_with
                        (scan_call (ImpersonatedUserId svc) fids q limit (pageSize config)) svc s1).
      { eapply extends_with_impl; [|exact EF]. intros [| |]; simpl; try done.
        intros (? & Hin & ? & ? & ? & ?). apply list_elem_of_singleton in Hin. subst.
        repeat split; try done. lia. }
      assert (Hcap : Z.of_nat (length found) <= limit ->
                     Z.of_nat (length (found ++ map metadata items)) <= limit).
      { rewrite length_app, length_map. lia. }
      assert (Hrec : Forall (of_mailbox mbx names) found ->
                     Forall (of_mailbox mbx names) (found ++ map metadata items)).
      { intros HF. apply Forall_app. split; [done|]. apply Forall_fmap.
        eapply Forall_impl; [exact Htag|]. intros en (Hm & Hf & _). simpl.
        split; [done|]. by rewrite Hf. }
      assert (Hids : map id found = map (fmap UniqueId) ids ->
                     map id (found ++ map metadata items) =
                     map (fmap UniqueId) (ids ++ map (fun en => Id (item en)) items)).
      { intros Heq. rewrite !map_app, Heq. f_equal. rewrite !map_map.
        clear -Htag. induction Htag as [|en l (_ & _ & Hid) _ IHl]; [done|].
        simpl. by rewrite Hid, IHl. }
      destruct (_ >=? limit).
      * intros [= <- <-]. split; [done|]. intros ?? [= <- <-]. by repeat split.
      * intros H. apply IH in H as [Hs Hr]. destruct Hstep as [Hi Hcs].
        rewrite Hi in Hs. split; [eapply extends_with_trans; [|exact Hs]; by split|].
        intros found' ids' ->. destruct (Hr found' ids' eq_refl) as (H1 & H2 & H3).
        repeat split; auto.
    + apply findItemsInFolder_calls in EF. intros [= <- <-]. split; [|done].
      eapply extends_with_impl; [|exact EF]. intros [| |]; simpl; try done.
      intros (? & Hin & ? & ? & ? & ?). apply list_elem_of_singleton in Hin. subst.
      repeat split; try done. lia.
    + apply findItemsInFolder_calls in EF. intros [= <- <-]. split; [|done].
      eapply extends_with_impl; [|exact EF]. intros [| |]; simpl; try done.
      intros (? & Hin & ? & ? & ? & ?). apply list_elem_of_singleton in Hin. subst.
      repeat split; try done. lia.
Qed.

Lemma collectLoop_deleteLoop fuel folders q limit mbx ctx found ids svc :
  match deleteLoop fuel folders q limit mbx ctx found ids svc with
  | (Resolved (found', _), svc') =>
      collectLoop fuel folders q limit mbx ctx found svc = (Resolved found', svc')
  | (Rejected e, svc') =>
      collectLoop fuel folders q limit mbx ctx found svc = (Rejected e, svc')
  | (Unsettled, svc') =>
      collectLoop fuel folders q limit mbx ctx found svc = (Unsettled, svc')
  end.
Proof.
  revert found ids svc. induction folders as [|folder rest IH]; intros found ids svc; simpl.
  - done.
  - unfold bind.
    destruct (findItemsInFolder _ _ _ _ _ _ svc) as [[items|e|] s1]; try done.
    destruct (_ >=? limit); [done|]. apply IH.
Qed.

(** X6. The folder loop of a search and the folder loop of a delete scan
    alike: from the same service object they make the same calls, settle
    the same way and collect the same records. *)
Theorem collectLoop_as_deleteLoop fuel folders q limit mbx ctx found ids svc :
  match deleteLoop fuel folders q limit mbx ctx found ids svc with
  | (Resolved (found', _), svc') =>
      collectLoop fuel folders q limit mbx ctx found svc = (Resolved found', svc')
  | (Rejected e, svc') =>
      collectLoop fuel folders q limit mbx ctx found svc = (Rejected e, svc')
  | (Unsettled, svc') =>
      collectLoop fuel folders q limit mbx ctx found svc = (Unsettled, svc')
  end.
Proof. eapply collectLoop_deleteLoop; eauto. Qed.
End ScanMore.


(* ===================================================================== *)
(** * Further properties: mailbox tasks *)
(* ===================================================================== *)

Section TasksMore.
Import Js ExchangeService Trace.
Context {Session : Type} (ews : Endpoint Session) (config : Config).

Local Abbreviation deleteForMailbox := (deleteForMailbox Session ews config).
Local Abbreviation collectMatchesForMailbox := (collectMatchesForMailbox Session ews config).
Local Abbreviation createService := (createService Session ews config).

Lemma folders_covered (folders : list FolderDescriptor) :
  Forall (fun f => folderId f ∈ map folderId folders /\ name f ∈ map name folders) folders.
Proof.
  apply Forall_forall. intros f Hf. split; by apply list_elem_of_fmap_2.
Qed.

Lemma deleteForMailbox_sends fuel mbx folders q limit deleteMode sim ctx :
  0 <= limit ->
  let run := deleteForMailbox fuel mbx folders q limit deleteMode sim ctx in
  exists scans deletes,
    run.2 = scans ++ deletes /\
    Forall (scan_call (Some (smtpAddress mbx)) (map folderId folders) q limit (pageSize config))
      scans /\
    (deletes = [] \/
     exists ids, sim = false /\ ids <> [] /\ Z.of_nat (length ids) <= limit /\
       deletes = [CallDeleteItems (Some (smtpAddress mbx)) ids deleteMode] /\
       forall res, run.1 = Resolved res ->
         map id (dfm_matches res) = map (fmap UniqueId) ids) /\
    forall res, run.1 = Resolved res ->
      Z.of_nat (length (dfm_matches res)) <= limit /\
      Forall (fun m => in_mailbox m = smtpAddress mbx /\ in_folder m ∈ map name folders)
        (dfm_matches res) /\
      (sim = false -> dfm_matches res <> [] -> deletes <> []).
Proof.
  intros Hlimit. cbv zeta. rewrite deleteForMailbox_unfold.
  destruct (createService _) as [svc|e|] eqn:EC;
    try (exists [], []; simpl; split; [done|]; split; [constructor|]; split; [by left|done]).
  apply createService_fresh in EC as [Hcalls _].
  destruct (deleteLoop _ _ _ _ _ _ _ _ _ _ _ _) as [r svc1] eqn:EL.
  destruct (deleteLoop_full ews config _ _ _ _ _ _ _ _ _ _ _ _ _ (folders_covered folders) EL)
    as [[Hi (cs & Hcs & Hscan)] Hres].
  simpl in Hi, Hcs, Hscan. rewrite Hcalls in Hcs. simpl in Hcs.
  destruct r as [[found ids]|e|];
    try (exists cs, []; simpl; rewrite app_nil_r;
         split; [done|]; split; [done|]; split; [by left|done]).
  destruct (Hres found ids eq_refl) as (Hcap & Hrec & Hids).
  specialize (Hcap Hlimit). specialize (Hrec ltac:(constructor)). specialize (Hids eq_refl).
  assert (Hlen : Z.of_nat (length ids) <= limit).
  { apply (f_equal length) in Hids. rewrite !length_map in Hids. by rewrite <- Hids. }
  destruct (negb sim && negb (Nat.eqb (length ids) 0)) eqn:Elive.
  - apply andb_true_iff in Elive as [Hsim Hne].
    apply negb_true_iff in Hsim. apply negb_true_iff, Nat.eqb_neq in Hne.
    exists cs, [CallDeleteItems (Some (smtpAddress mbx)) ids deleteMode].
    rewrite Hi.
    destruct (DeleteItems ews _ _ _ _).1; simpl; rewrite Hcs.
    + split; [done|]. split; [done|]. split.
      * right. exists ids. repeat split; try done.
        -- intros ->. done.
        -- by intros res [= <-].
      * by intros res [= <-].
    + split; [done|]. split; [done|]. split; [|done].
      right. exists ids. repeat split; try done. intros ->. done.
  - exists cs, []. simpl. rewrite app_nil_r, Hcs.
    split; [done|]. split; [done|]. split; [by left|].
    intros res [= <-]. simpl. split; [done|]. split; [done|].
    intros -> Hfound. simpl in Elive. apply negb_false_iff, Nat.eqb_eq in Elive.
    destruct found, ids; simpl in *; done.
Qed.

(** X7. What [deleteForMailbox] sends to the endpoint: page requests made
    as the mailbox, on the target folders, with the given query and within
    the limit and the page size; then, on a live run with at least one
    match, one [DeleteItems] call, made as the mailbox with the given mode,
    and nothing after it.  When it resolves, it reports at most [limit]
    matches, all of that mailbox and of the target folders, and the
    identifiers it has sent for deletion are those of the reported
    matches, in order. *)
Theorem deleteForMailbox_protocol fuel mbx folders q limit deleteMode sim ctx :
  0 <= limit ->
  let run := deleteForMailbox fuel mbx folders q limit deleteMode sim ctx in
  exists scans deletes,
    run.2 = scans ++ deletes /\
    Forall (scan_call (Some (smtpAddress mbx)) (map folderId folders) q limit (pageSize config))
      scans /\
    (deletes = [] \/
     exists ids, sim = false /\ ids <> [] /\ Z.of_nat (length ids) <= limit /\
       deletes = [CallDeleteItems (Some (smtpAddress mbx)) ids deleteMode] /\
       forall res, run.1 = Resolved res ->
         map id (dfm_matches res) = map (fmap UniqueId) ids) /\
    forall res, run.1 = Resolved res ->
      Z.of_nat (length (dfm_matches res)) <= limit /\
      Forall (fun m => in_mailbox m = smtpAddress mbx /\ in_folder m ∈ map name folders)
        (dfm_matches res) /\
      (sim = false -> dfm_matches res <> [] -> deletes <> []).
Proof. eapply deleteForMailbox_sends; eauto. Qed.

(** The search counterpart: what [collectMatchesForMailbox] sends and
    returns. *)
Lemma collectMatchesForMailbox_protocol fuel mbx folders q limit ctx :
  0 <= limit ->
  let run := collectMatchesForMailbox fuel mbx folders q limit ctx in
  Forall (scan_call (Some (smtpAddress mbx)) (map folderId folders) q limit (pageSize config))
    run.2 /\
  forall found, run.1 = Resolved found ->
    Z.of_nat (length found) <= limit /\
    Forall (fun m => in_mailbox m = smtpAddress mbx /\ in_folder m ∈ map name folders) found.
Proof.
  intros Hlimit. cbv zeta. unfold ExchangeService.collectMatchesForMailbox, with_service.
  destruct (createService _) as [svc|e|] eqn:EC; try (split; [constructor|done]).
  apply createService_fresh in EC as [Hcalls _].
  pose proof (collectLoop_deleteLoop ews config fuel folders q limit mbx ctx [] []
                (impersonateMailbox Session svc (smtpAddress mbx))) as Hsame.
  destruct (deleteLoop _ _ _ _ _ _ _ _ _ _ _ _) as [r svc1] eqn:EL.
  destruct (deleteLoop_full ews config _ _ _ _ _ _ _ _ _ _ _ _ _ (folders_covered folders) EL)
    as [[Hi (cs & Hcs & Hscan)] Hres].
  simpl in Hi, Hcs, Hscan. rewrite Hcalls in Hcs. simpl in Hcs.
  destruct r as [[found ids]|e|]; rewrite Hsame; simpl; rewrite Hcs;
    (split; [done|]); try done.
  intros ? [= <-]. destruct (Hres found ids eq_refl) as (Hcap & Hrec & _).
  split; [by apply Hcap|]. apply Hrec. constructor.
Qed.
End TasksMore.


(* ===================================================================== *)
(** * Further properties: search and delete requests *)
(* ===================================================================== *)

Section RequestsMore.
Import Js ExchangeService Trace.
Context {Session : Type} (ews : Endpoint Session) (config : Config).
Context (DeleteMode_value : DeleteMode -> Z).
Context (WellKnownFolderName_value : WellKnownFolderName -> Z).
Context (localeCompare : string -> string -> Z).
Context (Date_parse : string -> option Z) (toISOString : Z -> string).

Local Abbreviation deleteMessages :=
  (deleteMessages Session ews config DeleteMode_value WellKnownFolderName_value
     localeCompare Date_parse toISOString).
Local Abbreviation searchMessages :=
  (searchMessages Session ews config WellKnownFolderName_value
     localeCompare Date_parse toISOString).
Local Abbreviation searchTask := (searchTask Session ews config).
Local Abbreviation deleteTask := (deleteTask Session ews config).
Local Abbreviation getSearchableMailboxes := (getSearchableMailboxes Session ews config).
Local Abbreviation resolveFolders := (resolveFolders config WellKnownFolderName_value).
Local Abbreviation searchQuery := (searchQuery Date_parse toISOString).
Local Abbreviation deleteQuery := (deleteQuery Date_parse toISOString).
Local Abbreviation searchLimit := (searchLimit config).
Local Abbreviation deleteLimit := (deleteLimit config).
Local Abbreviation modeOf filters :=
  (resolveDeleteMode DeleteMode_value (default "softDelete" (f_deleteMode filters))).

Lemma searchLimit_bounds filters : 1 <= searchLimit filters <= 1000.
Proof. unfold ExchangeService.searchLimit. lia. Qed.

Lemma deleteLimit_bounds filters : 1 <= deleteLimit filters <= 2000.
Proof. unfold ExchangeService.deleteLimit. lia. Qed.

Lemma searchTask_calls fuel folders q limit ctx m :
  (searchTask fuel folders q limit ctx m).2 =
  (collectMatchesForMailbox Session ews config fuel m folders q limit (searchContext ctx m)).2.
Proof.
  unfold ExchangeService.searchTask.
  destruct (collectMatchesForMailbox _ _ _ _ _ _ _ _ _) as [[found|e|] cs]; try done.
  simpl. by destruct (Nat.eqb _ 0).
Qed.

(** Everything a search request sends, and what it resolves to. *)
Lemma searchMessages_run fuel filters ctx :
  match getSearchableMailboxes ctx, resolveFolders (f_folders filters) with
  | (Resolved mailboxes, cs0), inr folders =>
      let tasks := map (searchTask fuel folders (searchQuery filters) (searchLimit filters) ctx)
                     mailboxes in
      (searchMessages fuel filters ctx).2 = cs0 ++ concat (map snd tasks) /\
      (forall e, (searchMessages fuel filters ctx).1 <> Rejected e) /\
      forall agg, (searchMessages fuel filters ctx).1 = Resolved agg ->
        exists rs,
          Forall2 (fun t r => t.1 = Resolved r) tasks rs /\
          results agg = sort (by_mailbox localeCompare) (succeeded rs) /\
          failures agg = failed rs /\
          totalMailboxesScanned (summary agg) = Z.of_nat (length mailboxes) /\
          mailboxesWithMatches (summary agg) = Z.of_nat (length (succeeded rs)) /\
          totalMessages (summary agg) = sum_totalMatches (succeeded rs) /\
          (mailboxes <> [] -> query agg = Some (searchQuery filters)) /\
          (mailboxes = [] -> query agg = None)
  | (Resolved _, cs0), inl e => searchMessages fuel filters ctx = (Rejected e, cs0)
  | (Rejected e, cs0), _ => searchMessages fuel filters ctx = (Rejected e, cs0)
  | (Unsettled, cs0), _ => searchMessages fuel filters ctx = (Unsettled, cs0)
  end.
Proof.
  unfold ExchangeService.searchMessages.
  destruct (getSearchableMailboxes ctx) as [[mailboxes|e|] cs0]; try done.
  destruct (resolveFolders _) as [e|folders]; [done|].
  destruct (Nat.eqb (length mailboxes) 0) eqn:E0.
  - apply length_zero_eq in E0 as ->. cbv zeta. simpl. split; [by rewrite app_nil_r|].
    split; [done|]. intros agg [= <-]. exists []. repeat split; by try constructor.
  - cbv zeta. rewrite <- Promise_all_calls.
    destruct (Promise_all _) as [[rs|e|] css] eqn:EP.
    + rewrite search_partition_spec. simpl. split; [done|]. split; [done|].
      intros agg [= <-]. exists rs. simpl. repeat split; try done.
      * exact (Promise_all_resolved _ rs (f_equal fst EP)).
      * intros ->. done.
    + exfalso. clear -EP. revert e css EP.
      induction mailboxes as [|m mailboxes IH]; intros e css; simpl; [done|].
      unfold ExchangeService.searchTask at 1.
      destruct (collectMatchesForMailbox _ _ _ _ _ _ _ _ _) as [[found|e'|] cs].
      * destruct (Nat.eqb _ 0);
          destruct (Promise_all _) as [[l|e2|] css2]; try done;
          intros _; by eapply IH.
      * destruct (Promise_all _) as [[l|e2|] css2]; try done; intros _; by eapply IH.
      * destruct (Promise_all _) as [[l|e2|] css2]; try done; intros _; by eapply IH.
    + simpl. split; [done|]. split; done.
Qed.

Lemma deleteTask_calls_eq fuel folders q limit dm sim ctx m :
  (deleteTask fuel folders q limit dm sim ctx m).2 =
  (deleteForMailbox Session ews config fuel m folders q limit dm sim (deleteContext ctx m)).2.
Proof.
  unfold ExchangeService.deleteTask.
  destruct (deleteForMailbox _ _ _ _ _ _ _ _ _ _ _) as [[res|e|] cs]; try done.
  simpl. by destruct (Nat.eqb _ 0).
Qed.

Lemma Promise_all_never_rejects (tasks : list (Completion (option ResultObject) * list RemoteCall)) :
  Forall (fun t => forall e, t.1 <> Rejected e) tasks ->
  forall e, (Promise_all tasks).1 <> Rejected e.
Proof.
  induction 1 as [|[r cs] tasks Hr _ IH]; intros e; simpl; [done|].
  destruct (Promise_all tasks) as [[l|e2|] css]; simpl in *.
  - destruct r; try done. intros [= ->]. by eapply Hr.
  - by exfalso; eapply IH.
  - destruct r; try done. intros [= ->]. by eapply Hr.
Qed.

Lemma searchTask_never_rejects fuel folders q limit ctx m e :
  (searchTask fuel folders q limit ctx m).1 <> Rejected e.
Proof.
  unfold ExchangeService.searchTask.
  destruct (collectMatchesForMailbox _ _ _ _ _ _ _ _ _) as [[found|e'|] cs]; try done.
  by destruct (Nat.eqb _ 0).
Qed.

Lemma deleteTask_never_rejects fuel folders q limit dm sim ctx m e :
  (deleteTask fuel folders q limit dm sim ctx m).1 <> Rejected e.
Proof.
  unfold ExchangeService.deleteTask.
  destruct (deleteForMailbox _ _ _ _ _ _ _ _ _ _ _) as [[res|e'|] cs]; try done.
  by destruct (Nat.eqb _ 0).
Qed.

(** Everything a delete request sends, and what it resolves to. *)
Lemma deleteMessages_run fuel filters ctx :
  match getSearchableMailboxes ctx, resolveFolders (f_folders filters) with
  | (Resolved mailboxes, cs0), inr folders =>
      let tasks := map (deleteTask fuel folders (deleteQuery filters) (deleteLimit filters)
                          (modeOf filters).1 (default true (f_simulate filters)) ctx)
                     mailboxes in
      (deleteMessages fuel filters ctx).2 = cs0 ++ concat (map snd tasks) /\
      (forall e, (deleteMessages fuel filters ctx).1 <> Rejected e) /\
      forall agg, (deleteMessages fuel filters ctx).1 = Resolved agg ->
        exists rs,
          Forall2 (fun t r => t.1 = Resolved r) tasks rs /\
          results agg = sort (by_mailbox localeCompare) (succeeded rs) /\
          failures agg = failed rs /\
          d_totalMailboxesScanned (summary agg) = Z.of_nat (length mailboxes) /\
          d_mailboxesWithMatches (summary agg) = Z.of_nat (length (succeeded rs)) /\
          d_totalMatches (summary agg) = sum_totalMatches (succeeded rs) /\
          totalDeleted (summary agg) = fold_left add (map deleted (succeeded rs)) (Some 0) /\
          mode (summary agg) = (modeOf filters).2 /\
          simulate (summary agg) = default true (f_simulate filters) /\
          (mailboxes <> [] -> query agg = Some (deleteQuery filters)) /\
          (mailboxes = [] -> query agg = None)
  | (Resolved _, cs0), inl e => deleteMessages fuel filters ctx = (Rejected e, cs0)
  | (Rejected e, cs0), _ => deleteMessages fuel filters ctx = (Rejected e, cs0)
  | (Unsettled, cs0), _ => deleteMessages fuel filters ctx = (Unsettled, cs0)
  end.
Proof.
  unfold ExchangeService.deleteMessages.
  destruct (getSearchableMailboxes ctx) as [[mailboxes|e|] cs0]; try done.
  destruct (resolveFolders _) as [e|folders]; [done|].
  destruct (Nat.eqb (length mailboxes) 0) eqn:E0.
  - apply length_zero_eq in E0 as ->. cbv zeta. simpl. split; [by rewrite app_nil_r|].
    split; [done|]. intros agg [= <-]. exists []. repeat split; by try constructor.
  - cbv zeta. rewrite <- Promise_all_calls.
    destruct (Promise_all _) as [[rs|e|] css] eqn:EP.
    + rewrite delete_partition_spec. simpl. split; [done|]. split; [done|].
      intros agg [= <-]. exists rs. simpl. repeat split; try done.
      * exact (Promise_all_resolved _ rs (f_equal fst EP)).
      * intros ->. done.
    + exfalso. apply (f_equal fst) in EP. simpl in EP. revert EP.
      apply Promise_all_never_rejects. apply Forall_fmap, Forall_forall.
      intros m _ e'. apply deleteTask_never_rejects.
    + simpl. split; [done|]. split; done.
Qed.

Lemma getSearchableMailboxes_directory ctx : directory_calls (getSearchableMailboxes ctx).2.
Proof.
  unfold ExchangeService.getSearchableMailboxes, with_service.
  destruct (createService _ _ _ _) as [svc|e|] eqn:EC; try by left.
  apply createService_fresh in EC as [EC _].
  unfold try_catch, bind, call_GetSearchableMailboxes.
  destruct (GetSearchableMailboxes ews _) as [[x|e] s]; simpl; rewrite EC; simpl.
  - destruct x as [[boxes|]|]; by right.
  - by right.
Qed.

Lemma unique_spec (seen l : list string) :
  NoDup (unique seen l) /\ forall x, x ∈ unique seen l <-> x ∈ l /\ x ∉ seen.
Proof.
  revert seen. induction l as [|y l IH]; intros seen; simpl.
  - split; [constructor|]. intros x. split; [by intros ?%elem_of_nil|]. by intros [?%elem_of_nil _].
  - case_bool_decide as Hy.
    + destruct (IH seen) as [Hnd Hin]. split; [done|]. intros x. rewrite Hin, elem_of_cons.
      split; [tauto|]. intros [[->|?] ?]; tauto.
    + destruct (IH (y :: seen)) as [Hnd Hin]. split.
      * constructor; [|done]. rewrite Hin, elem_of_cons. tauto.
      * intros x. rewrite !elem_of_cons, Hin, elem_of_cons.
        destruct (decide (x = y)) as [->|Hne]; [tauto|]. tauto.
Qed.

Lemma unique_spec_nil (l : list string) :
  NoDup (unique [] l) /\ forall x, x ∈ unique [] l <-> x ∈ l.
Proof.
  destruct (unique_spec [] l) as [Hnd Hin]. split; [done|]. intros x. rewrite Hin.
  split; [tauto|]. intros ?. split; [done|]. apply not_elem_of_nil.
Qed.

Lemma outcomes_length (rs : list (option ResultObject)) :
  (length (succeeded rs) + length (failed rs) <= length rs)%nat.
Proof.
  unfold succeeded, failed. induction rs as [|[o|] rs IH].
  - done.
  - change (omap (fun r => r) (Some o :: rs)) with (o :: omap (fun r : option ResultObject => r) rs).
    rewrite !(filter_cons _ o). destruct (truthy (error o)) eqn:E.
    + rewrite decide_False by done. rewrite decide_True by done.
      cbn [length]. cbn [length] in IH. lia.
    + rewrite decide_True by done. rewrite decide_False by done.
      cbn [length]. cbn [length] in IH. lia.
  - change (omap (fun r => r) (None :: rs)) with (omap (fun r : option ResultObject => r) rs).
    cbn [length]. lia.
Qed.

Lemma failed_Forall {A} (task : A -> Completion (option ResultObject))
    (P : ResultObject -> Prop) (ms : list A) rs :
  Forall2 (fun m r => task m = Resolved r) ms rs ->
  (forall m o, m ∈ ms -> task m = Resolved (Some o) -> truthy (error o) = true -> P o) ->
  Forall P (failed rs).
Proof.
  intros HF HP. apply Forall_forall. intros o Ho.
  destruct (succeeded_origin task ms rs o HF (or_intror Ho)) as (m & Hm & Ht).
  apply (HP m o Hm Ht). unfold failed in Ho. by apply list_elem_of_filter in Ho as [? _].
Qed.

Lemma sum_totalMatches_counts (os : list ResultObject) :
  Forall (fun o => exists found, matches o = Some found /\
                     totalMatches o = Some (Z.of_nat (length found))) os ->
  sum_totalMatches os = Some (sumZ (map matchCount os)).
Proof.
  unfold sum_totalMatches. intros H.
  assert (G : forall t, fold_left (fun acc r => add acc (totalMatches r)) os (Some t) =
                        Some (t + sumZ (map matchCount os))); [|by rewrite G].
  induction H as [|o os (found & Hm & Ht) _ IH]; intros t; simpl.
  - f_equal. unfold sumZ. simpl. lia.
  - rewrite Ht. simpl. rewrite IH. f_equal. unfold sumZ, matchCount. simpl. rewrite Hm. simpl. lia.
Qed.

Lemma searchTask_success fuel folders q limit ctx mailboxes m o :
  0 <= limit -> m ∈ mailboxes ->
  (searchTask fuel folders q limit ctx m).1 = Resolved (Some o) ->
  truthy (error o) = false ->
  success_of mailboxes (map name folders) limit o /\ deleted o = None /\
  ExchangeService.folders o = None.
Proof.
  intros Hlimit Hm. unfold ExchangeService.searchTask.
  pose proof (collectMatchesForMailbox_protocol ews config fuel m folders q limit
                (searchContext ctx m) Hlimit) as [_ Hres]. cbv zeta in Hres.
  destruct (collectMatchesForMailbox _ _ _ _ _ _ _ _ _) as [[found|e|] cs] eqn:EC; simpl.
  - destruct (Hres found eq_refl) as [Hcap Hrec].
    destruct (Nat.eqb _ 0) eqn:E0; simpl; [done|]. intros [= <-] _. simpl.
    split; [|done]. split; [done|]. split; [by exists m|].
    exists found. repeat split; try done. intros ->. done.
  - intros [= <-] He. apply collectMatchesForMailbox_rejected in EC.
    unfold failureObject in He. cbn [error] in He. congruence.
  - done.
Qed.

Lemma searchTask_failure fuel folders q limit ctx mailboxes m o :
  m ∈ mailboxes ->
  (searchTask fuel folders q limit ctx m).1 = Resolved (Some o) ->
  truthy (error o) = true -> failure_of mailboxes o.
Proof.
  intros Hm. unfold ExchangeService.searchTask.
  destruct (collectMatchesForMailbox _ _ _ _ _ _ _ _ _) as [[found|e|] cs] eqn:EC; simpl.
  - destruct (Nat.eqb _ 0); simpl; [done|]. by intros [= <-].
  - intros [= <-] He. split; [done|]. split; [by exists m|]. done.
  - done.
Qed.

Lemma searchMessages_sends fuel filters ctx :
  let run := searchMessages fuel filters ctx in
  Forall (fun c => is_delete_call c = false) run.2 /\
  exists dir segs,
    run.2 = dir ++ concat segs /\ directory_calls dir /\
    (segs = [] \/
     exists mailboxes fds,
       (getSearchableMailboxes ctx).1 = Resolved mailboxes /\
       resolveFolders (f_folders filters) = inr fds /\
       Forall2 (search_segment (map folderId fds) (searchQuery filters)
                  (searchLimit filters) (pageSize config)) mailboxes segs).
Proof.
  cbv zeta.
  assert (H : exists dir segs,
    (searchMessages fuel filters ctx).2 = dir ++ concat segs /\ directory_calls dir /\
    (segs = [] \/
     exists mailboxes fds,
       (getSearchableMailboxes ctx).1 = Resolved mailboxes /\
       resolveFolders (f_folders filters) = inr fds /\
       Forall2 (search_segment (map folderId fds) (searchQuery filters)
                  (searchLimit filters) (pageSize config)) mailboxes segs)).
  { pose proof (searchMessages_run fuel filters ctx) as Hrun.
    pose proof (getSearchableMailboxes_directory ctx) as Hdir.
    destruct (getSearchableMailboxes ctx) as [[mailboxes|e|] cs0]; simpl in Hdir.
    - destruct (resolveFolders _) as [e|fds] eqn:ER.
      + exists cs0, []. rewrite Hrun. simpl. rewrite app_nil_r. repeat split; try done. by left.
      + destruct Hrun as [Hcalls _]. eexists cs0, _. split; [exact Hcalls|]. split; [done|].
        right. exists mailboxes, fds. split; [done|]. split; [done|].
        rewrite map_map. apply Forall2_fmap_r, Forall_Forall2_diag, Forall_forall.
        intros m _. cbn. rewrite searchTask_calls.
        apply (collectMatchesForMailbox_protocol ews config fuel m fds).
        pose proof (searchLimit_bounds filters). lia.
    - exists cs0, []. rewrite Hrun. simpl. rewrite app_nil_r. repeat split; try done. by left.
    - exists cs0, []. rewrite Hrun. simpl. rewrite app_nil_r. repeat split; try done. by left. }
  split; [|exact H].
  destruct H as (dir & segs & -> & Hdir & Hsegs). apply Forall_app. split.
  - destruct Hdir as [->| ->]; repeat constructor.
  - destruct Hsegs as [->|(mailboxes & fds & _ & _ & HF)]; [constructor|].
    apply Forall_concat. clear -HF. induction HF as [|m seg ms segs Hseg _ IH]; constructor; [|done].
    eapply Forall_impl; [exact Hseg|]. by intros [| |].
Qed.


Lemma searchMessages_reports fuel filters ctx agg :
  (searchMessages fuel filters ctx).1 = Resolved agg ->
  exists mailboxes fds,
    (getSearchableMailboxes ctx).1 = Resolved mailboxes /\
    resolveFolders (f_folders filters) = inr fds /\
    1 <= searchLimit filters <= 1000 /\
    Forall (success_of mailboxes (map name fds) (searchLimit filters)) (results agg) /\
    Forall (failure_of mailboxes) (failures agg) /\
    totalMailboxesScanned (summary agg) = Z.of_nat (length mailboxes) /\
    mailboxesWithMatches (summary agg) = Z.of_nat (length (results agg)) /\
    totalMessages (summary agg) = Some (sumZ (map matchCount (results agg))) /\
    (length (results agg) + length (failures agg) <= length mailboxes)%nat.
Proof.
  intros Hagg. pose proof (searchMessages_run fuel filters ctx) as Hrun.
  destruct (getSearchableMailboxes ctx) as [[mailboxes|e|] cs0];
    [|rewrite Hrun in Hagg; done|rewrite Hrun in Hagg; done].
  destruct (resolveFolders _) as [e|fds] eqn:ER; [rewrite Hrun in Hagg; done|].
  destruct Hrun as (_ & _ & Hres).
  destruct (Hres agg Hagg) as (rs & HF & Hresults & Hfail & Hscanned & Hwith & Htotal & _ & _).
  apply Forall2_fmap_l in HF.
  pose proof (searchLimit_bounds filters) as Hlimit.
  assert (Hsucc : Forall (success_of mailboxes (map name fds) (searchLimit filters))
                    (succeeded rs)).
  { eapply (succeeded_Forall (fun m => (searchTask fuel fds (searchQuery filters)
                                          (searchLimit filters) ctx m).1)); [exact HF|].
    intros m o Hm Ht He. eapply searchTask_success; eauto. lia. }
  assert (Hlen : length (results agg) = length (succeeded rs)).
  { rewrite Hresults. apply Permutation_length, sort_perm. }
  exists mailboxes, fds. split; [done|]. split; [done|]. split; [done|].
  split; [rewrite Hresults; by apply sort_Forall|].
  split.
  { rewrite Hfail.
    eapply (failed_Forall (fun m => (searchTask fuel fds (searchQuery filters)
                                       (searchLimit filters) ctx m).1)); [exact HF|].
    intros m o Hm Ht He. eapply searchTask_failure; eauto. }
  split; [done|]. split; [by rewrite Hwith, Hlen|].
  split.
  { rewrite Htotal, sum_totalMatches_counts.
    - f_equal. apply sumZ_perm. rewrite Hresults. apply fmap_Permutation. symmetry. apply sort_perm.
    - eapply Forall_impl; [exact Hsucc|]. intros o (_ & _ & found & Hm & _ & Ht & _). by exists found. }
  rewrite Hlen, Hfail. pose proof (outcomes_length rs).
  apply Forall2_length in HF. lia.
Qed.

(** X9.  What a resolved search reports.  Every entry of [results] is a
    success object of a mailbox of the directory: it has no [error], its
    [matches] are at least one and at most the per-mailbox limit (itself
    between 1 and 1000), every one of them is tagged with the object's own
    mailbox and with one of the resolved folder names, and [totalMatches]
    is their number.  Every entry of [failures] carries a non-empty error
    message and no matches.  The summary agrees with the lists: the
    scanned count is the size of the directory, [mailboxesWithMatches] is
    the number of results, [totalMessages] is the sum of the listed
    matches, and results and failures together never outnumber the
    mailboxes scanned. *)
Theorem searchMessages_outcomes fuel filters ctx agg :
  (searchMessages fuel filters ctx).1 = Resolved agg ->
  exists mailboxes fds,
    (getSearchableMailboxes ctx).1 = Resolved mailboxes /\
    resolveFolders (f_folders filters) = inr fds /\
    1 <= searchLimit filters <= 1000 /\
    Forall (success_of mailboxes (map name fds) (searchLimit filters)) (results agg) /\
    Forall (failure_of mailboxes) (failures agg) /\
    totalMailboxesScanned (summary agg) = Z.of_nat (length mailboxes) /\
    mailboxesWithMatches (summary agg) = Z.of_nat (length (results agg)) /\
    totalMessages (summary agg) = Some (sumZ (map matchCount (results agg))) /\
    (length (results agg) + length (failures agg) <= length mailboxes)%nat.
Proof. eapply searchMessages_reports; eauto. Qed.

Lemma deleteTask_success fuel fds q limit dm sim ctx mailboxes m o :
  0 <= limit -> m ∈ mailboxes ->
  (deleteTask fuel fds q limit dm sim ctx m).1 = Resolved (Some o) ->
  truthy (error o) = false ->
  success_of mailboxes (map name fds) limit o /\ delete_report sim o.
Proof.
  intros Hlimit Hm. unfold ExchangeService.deleteTask.
  pose proof (deleteForMailbox_sends ews config fuel m fds q limit dm sim
                (deleteContext ctx m) Hlimit) as (scans & deletes & _ & _ & _ & Hres).
  pose proof (deleteForMailbox_modes ews config fuel m fds q limit dm (deleteContext ctx m))
    as (_ & _ & Hdry & Hlive). cbv zeta in Hres, Hdry, Hlive.
  destruct (deleteForMailbox _ _ _ _ _ _ _ _ _ _ _) as [[res|e|] cs] eqn:EC; simpl.
  - destruct (Hres res eq_refl) as (Hcap & Hrec & _).
    destruct (Nat.eqb _ 0) eqn:E0; simpl; [done|]. intros [= <-] _.
    split.
    + split; [done|]. split; [by exists m|].
      exists (dfm_matches res). repeat split; try done. intros E. by rewrite E in E0.
    + split.
      * unfold matchCount. cbn [deleted matches default]. f_equal.
        destruct sim; rewrite EC in *; simpl in *.
        -- by apply Hdry.
        -- by apply Hlive.
      * eexists. split; [done|]. apply unique_spec_nil.
  - intros [= <-] He. apply deleteForMailbox_rejected in EC.
    unfold failureObject in He. cbn [error] in He. congruence.
  - done.
Qed.

Lemma deleteTask_failure fuel fds q limit dm sim ctx mailboxes m o :
  m ∈ mailboxes ->
  (deleteTask fuel fds q limit dm sim ctx m).1 = Resolved (Some o) ->
  truthy (error o) = true -> failure_of mailboxes o.
Proof.
  intros Hm. unfold ExchangeService.deleteTask.
  destruct (deleteForMailbox _ _ _ _ _ _ _ _ _ _ _) as [[res|e|] cs] eqn:EC; simpl.
  - destruct (Nat.eqb _ 0); simpl; [done|]. by intros [= <-].
  - intros [= <-] He. split; [done|]. split; [by exists m|]. done.
  - done.
Qed.

Lemma deleteMessages_sends fuel filters ctx :
  exists dir segs,
    (deleteMessages fuel filters ctx).2 = dir ++ concat segs /\ directory_calls dir /\
    1 <= deleteLimit filters <= 2000 /\
    (segs = [] \/
     exists mailboxes fds,
       (getSearchableMailboxes ctx).1 = Resolved mailboxes /\
       resolveFolders (f_folders filters) = inr fds /\
       Forall2 (delete_segment (map folderId fds) (deleteQuery filters)
                  (deleteLimit filters) (pageSize config) (modeOf filters).1
                  (default true (f_simulate filters))) mailboxes segs).
Proof.
  pose proof (deleteMessages_run fuel filters ctx) as Hrun.
  pose proof (getSearchableMailboxes_directory ctx) as Hdir.
  pose proof (deleteLimit_bounds filters) as Hlimit.
  destruct (getSearchableMailboxes ctx) as [[mailboxes|e|] cs0]; simpl in Hdir.
  - destruct (resolveFolders _) as [e|fds] eqn:ER.
    + exists cs0, []. rewrite Hrun. simpl. rewrite app_nil_r.
      split; [done|]. split; [done|]. split; [done|]. by left.
    + destruct Hrun as [Hcalls _]. eexists cs0, _. split; [exact Hcalls|]. split; [done|].
      split; [done|].
      right. exists mailboxes, fds. split; [done|]. split; [done|].
      rewrite map_map. apply Forall2_fmap_r, Forall_Forall2_diag, Forall_forall.
      intros m _. cbn. rewrite deleteTask_calls_eq.
      assert (H0 : 0 <= deleteLimit filters) by lia.
      destruct (deleteForMailbox_sends ews config fuel m fds (deleteQuery filters)
                  (deleteLimit filters) (modeOf filters).1 (default true (f_simulate filters))
                  (deleteContext ctx m) H0) as (scans & deletes & Hcs & Hscans & Hdel & _).
      exists scans, deletes. split; [done|]. split; [done|].
      destruct Hdel as [->|(ids & ? & ? & ? & ? & _)]; [by left|].
      right. by exists ids.
  - exists cs0, []. rewrite Hrun. simpl. rewrite app_nil_r.
      split; [done|]. split; [done|]. split; [done|]. by left.
  - exists cs0, []. rewrite Hrun. simpl. rewrite app_nil_r.
      split; [done|]. split; [done|]. split; [done|]. by left.
Qed.


(** X11.  What a resolved delete reports.  Every entry of [results] is a
    success object of a mailbox of the directory with between one and the
    per-mailbox limit of matches (the limit itself between 1 and 2000),
    all tagged with the object's mailbox and a resolved folder name; its
    [deleted] count is zero for a simulation and the number of its matches
    otherwise, and its [folders] list names each folder of its matches
    exactly once.  Every entry of [failures] carries a non-empty error
    message and no matches.  In the summary the scanned count is the size
    of the directory, [mailboxesWithMatches] the number of results,
    [totalMatches] the sum of the listed matches, [totalDeleted] zero for a
    simulation and equal to [totalMatches] otherwise, and [simulate]
    reports the flag the request ran with, true when it was absent. *)
Theorem deleteMessages_outcomes fuel filters ctx agg :
  (deleteMessages fuel filters ctx).1 = Resolved agg ->
  let sim := default true (f_simulate filters) in
  exists mailboxes fds,
    (getSearchableMailboxes ctx).1 = Resolved mailboxes /\
    resolveFolders (f_folders filters) = inr fds /\
    Forall (success_of mailboxes (map name fds) (deleteLimit filters)) (results agg) /\
    Forall (delete_report sim) (results agg) /\
    Forall (failure_of mailboxes) (failures agg) /\
    d_totalMailboxesScanned (summary agg) = Z.of_nat (length mailboxes) /\
    d_mailboxesWithMatches (summary agg) = Z.of_nat (length (results agg)) /\
    d_totalMatches (summary agg) = Some (sumZ (map matchCount (results agg))) /\
    totalDeleted (summary agg) = (if sim then Some 0 else d_totalMatches (summary agg)) /\
    simulate (summary agg) = sim /\
    (length (results agg) + length (failures agg) <= length mailboxes)%nat.
Proof.
  intros Hagg sim. pose proof (deleteMessages_run fuel filters ctx) as Hrun.
  destruct (getSearchableMailboxes ctx) as [[mailboxes|e|] cs0];
    [|rewrite Hrun in Hagg; done|rewrite Hrun in Hagg; done].
  destruct (resolveFolders _) as [e|fds] eqn:ER; [rewrite Hrun in Hagg; done|].
  destruct Hrun as (_ & _ & Hres).
  destruct (Hres agg Hagg)
    as (rs & HF & Hresults & Hfail & Hscanned & Hwith & Htotal & Hdeleted & _ & Hsim & _ & _).
  apply Forall2_fmap_l in HF.
  pose proof (deleteLimit_bounds filters) as Hlimit.
  assert (Hsucc : Forall (fun o => success_of mailboxes (map name fds) (deleteLimit filters) o /\
                                   delete_report sim o) (succeeded rs)).
  { eapply (succeeded_Forall (fun m => (deleteTask fuel fds (deleteQuery filters)
                                          (deleteLimit filters) (modeOf filters).1 sim ctx m).1));
      [exact HF|].
    intros m o Hm Ht He. eapply deleteTask_success; eauto. lia. }
  apply Forall_and in Hsucc as [Hsucc Hrep].
  assert (Hlen : length (results agg) = length (succeeded rs)).
  { rewrite Hresults. apply Permutation_length, sort_perm. }
  assert (Hsum : sum_totalMatches (succeeded rs) = Some (sumZ (map matchCount (succeeded rs)))).
  { apply sum_totalMatches_counts.
    eapply Forall_impl; [exact Hsucc|]. intros o (_ & _ & found & Hm & _ & Ht & _). by exists found. }
  assert (Hperm : sumZ (map matchCount (succeeded rs)) = sumZ (map matchCount (results agg))).
  { apply sumZ_perm. rewrite Hresults. apply fmap_Permutation. symmetry. apply sort_perm. }
  exists mailboxes, fds. split; [done|]. split; [done|].
  split; [rewrite Hresults; by apply sort_Forall|].
  split; [rewrite Hresults; by apply sort_Forall|].
  split.
  { rewrite Hfail.
    eapply (failed_Forall (fun m => (deleteTask fuel fds (deleteQuery filters)
                                       (deleteLimit filters) (modeOf filters).1 sim ctx m).1));
      [exact HF|].
    intros m o Hm Ht He. eapply deleteTask_failure; eauto. }
  split; [done|]. split; [by rewrite Hwith, Hlen|].
  split; [by rewrite Htotal, Hsum, Hperm|].
  split.
  { rewrite Hdeleted, Htotal, Hsum.
    assert (G : fold_left add (map deleted (succeeded rs)) (Some 0) =
                Some (sumZ (map (fun o => if sim then 0 else matchCount o) (succeeded rs)))).
    { replace (map deleted (succeeded rs))
        with (map Some (map (fun o => if sim then 0 else matchCount o) (succeeded rs))).
      - by rewrite fold_add_counts.
      - rewrite map_map. apply Forall_fmap_ext_1.
        eapply Forall_impl; [exact Hrep|]. intros o [Hd _]. by rewrite Hd. }
    rewrite G. destruct sim; [|done]. f_equal.
    clear. induction (succeeded rs) as [|o l IH]; [done|]. unfold sumZ in *. simpl. lia. }
  split; [done|].
  rewrite Hlen, Hfail. pose proof (outcomes_length rs).
  apply Forall2_length in HF. lia.
Qed.

Lemma requests_reject_iff fuel filters ctx e :
  let upfront :=
    (getSearchableMailboxes ctx).1 = Rejected e \/
    exists mailboxes, (getSearchableMailboxes ctx).1 = Resolved mailboxes /\
                      resolveFolders (f_folders filters) = inl e in
  ((searchMessages fuel filters ctx).1 = Rejected e <-> upfront) /\
  ((deleteMessages fuel filters ctx).1 = Rejected e <-> upfront) /\
  (upfront ->
   (searchMessages fuel filters ctx).2 = (getSearchableMailboxes ctx).2 /\
   (deleteMessages fuel filters ctx).2 = (getSearchableMailboxes ctx).2 /\
   directory_calls (getSearchableMailboxes ctx).2).
Proof.
  cbv zeta.
  pose proof (searchMessages_run fuel filters ctx) as Hs.
  pose proof (deleteMessages_run fuel filters ctx) as Hd.
  pose proof (getSearchableMailboxes_directory ctx) as Hdir.
  destruct (getSearchableMailboxes ctx) as [[mailboxes|e0|] cs0]; simpl in *.
  - destruct (resolveFolders _) as [e1|fds] eqn:ER.
    + rewrite Hs, Hd. simpl. split; [|split].
      * split; [intros [= ->]; right; by exists mailboxes|].
        by intros [?|(? & _ & [= ->])].
      * split; [intros [= ->]; right; by exists mailboxes|].
        by intros [?|(? & _ & [= ->])].
      * done.
    + destruct Hs as (_ & Hs & _), Hd as (_ & Hd & _). split; [|split].
      * split; [by intros ?%Hs|]. by intros [?|(? & _ & ?)].
      * split; [by intros ?%Hd|]. by intros [?|(? & _ & ?)].
      * by intros [?|(? & _ & ?)].
  - rewrite Hs, Hd. simpl. split; [|split].
    + split; [intros [= ->]; by left|]. by intros [[= ->]|(? & ? & _)].
    + split; [intros [= ->]; by left|]. by intros [[= ->]|(? & ? & _)].
    + done.
  - rewrite Hs, Hd. simpl. split; [|split].
    + split; [done|]. by intros [?|(? & ? & _)].
    + split; [done|]. by intros [?|(? & ? & _)].
    + done.
Qed.

(** X12.  Failures of single mailboxes never fail a request.  A search
    or delete request is rejected in exactly two situations: the
    directory lookup was rejected, or it succeeded and one of the
    requested folder names is not supported; the request is then rejected
    with that very error.  In both situations nothing but the directory
    lookup was sent to the server: no mailbox was scanned and nothing was
    deleted. *)
Theorem requests_reject_upfront fuel filters ctx e :
  let upfront :=
    (getSearchableMailboxes ctx).1 = Rejected e \/
    exists mailboxes, (getSearchableMailboxes ctx).1 = Resolved mailboxes /\
                      resolveFolders (f_folders filters) = inl e in
  ((searchMessages fuel filters ctx).1 = Rejected e <-> upfront) /\
  ((deleteMessages fuel filters ctx).1 = Rejected e <-> upfront) /\
  (upfront ->
   (searchMessages fuel filters ctx).2 = (getSearchableMailboxes ctx).2 /\
   (deleteMessages fuel filters ctx).2 = (getSearchableMailboxes ctx).2 /\
   directory_calls (getSearchableMailboxes ctx).2).
Proof. eapply requests_reject_iff; eauto. Qed.
End RequestsMore.


(* ===================================================================== *)
(** * Further properties: configuration, folders and delete modes *)
(* ===================================================================== *)

Section ConfigurationMore.
Import Js ExchangeService Trace.
Context {Session : Type} (ews : Endpoint Session) (config : Config).
Context (DeleteMode_value : DeleteMode -> Z).
Context (WellKnownFolderName_value : WellKnownFolderName -> Z).
Context (localeCompare : string -> string -> Z).
Context (Date_parse : string -> option Z) (toISOString : Z -> string).

Local Abbreviation deleteMessages :=
  (deleteMessages Session ews config DeleteMode_value WellKnownFolderName_value
     localeCompare Date_parse toISOString).
Local Abbreviation searchMessages :=
  (searchMessages Session ews config WellKnownFolderName_value
     localeCompare Date_parse toISOString).
Local Abbreviation createService := (createService Session ews config).
Local Abbreviation getSearchableMailboxes := (getSearchableMailboxes Session ews config).
Local Abbreviation resolveFolders := (resolveFolders config WellKnownFolderName_value).
Local Abbreviation ensureFolder := (ensureFolder WellKnownFolderName_value).
Local Abbreviation FOLDER_MAP := (FOLDER_MAP WellKnownFolderName_value).
Local Abbreviation resolveDeleteMode := (resolveDeleteMode DeleteMode_value).

Lemma createService_unconfigured ctx :
  truthy (username config) = false \/ truthy (password config) = false \/
  (truthy (ewsUrl config) = false /\ truthy (autodiscoverEmail config) = false) ->
  exists e, createService ctx = Rejected e /\ status e = Some 500 /\ expose e = true /\
            forall ctx', createService ctx' = Rejected e.
Proof.
  unfold ExchangeService.createService, ensureCredentialsConfigured.
  intros [Hu|[Hp|[Hurl Hauto]]].
  - rewrite Hu. simpl. eexists. by repeat split.
  - rewrite Hp, orb_true_r. eexists. by repeat split.
  - destruct (negb (truthy (username config)) || negb (truthy (password config))).
    + eexists. by repeat split.
    + rewrite Hurl, Hauto. simpl. eexists. by repeat split.
Qed.

(** X13.  Without credentials nothing is sent.  When the user name or
    the password is not configured, or neither the service address nor an
    autodiscover address is, a search and a delete request are both
    rejected with status 500, the same error whatever the request, and
    not a single call reaches the server. *)
Theorem unconfigured_requests_send_nothing :
  truthy (username config) = false \/ truthy (password config) = false \/
  (truthy (ewsUrl config) = false /\ truthy (autodiscoverEmail config) = false) ->
  exists e, status e = Some 500 /\ expose e = true /\
    forall fuel filters ctx,
      searchMessages fuel filters ctx = (Rejected e, []) /\
      deleteMessages fuel filters ctx = (Rejected e, []).
Proof.
  intros H.
  destruct (createService_unconfigured
              {| requestId := None; operation := None; ctx_mailbox := None; ctx_folder := None |} H)
    as (e & _ & Hs & Hx & He).
  exists e. split; [done|]. split; [done|]. intros fuel filters ctx.
  unfold ExchangeService.searchMessages, ExchangeService.deleteMessages,
    ExchangeService.getSearchableMailboxes, with_service.
  by rewrite He.
Qed.

Lemma map_ensureFolder_spec (targets : list string) :
  match map_ensureFolder WellKnownFolderName_value targets with
  | inr fds =>
      map name fds = targets /\
      Forall (fun d => is_truthy (folderId d) = true /\
                       folderId d = get FOLDER_MAP (toLowerCase (name d))) fds
  | inl e =>
      exists before f after,
        targets = before ++ f :: after /\
        Forall (fun g => is_truthy (get FOLDER_MAP (toLowerCase g)) = true) before /\
        is_truthy (get FOLDER_MAP (toLowerCase f)) = false /\
        e = {| status := Some 400; message := "Unsupported folder specified: " +:+ f;
               details := []; expose := true |}
  end.
Proof.
  induction targets as [|f rest IH]; simpl.
  - split; [done|constructor].
  - unfold ExchangeService.ensureFolder at 1.
    destruct (is_truthy (get FOLDER_MAP (toLowerCase f))) eqn:Ef; simpl.
    + destruct (map_ensureFolder _ rest) as [e|fds].
      * destruct IH as (before & g & after & -> & Hb & Hg & ->).
        exists (f :: before), g, after. repeat split; try done. by constructor.
      * destruct IH as [Hn Hf]. simpl. split; [by rewrite Hn|]. by constructor.
    + exists [], f, rest. repeat split; try done.
Qed.

(** X14.  Folder resolution.  The folders a request names (the
    configured default folders when it names none, or an empty list) are
    resolved in order.  On success there is one descriptor per name, in
    the same order and under the name as the request spelled it, each with
    the table entry of the lower-cased name as its identifier.  On failure
    the error has status 400 and names the first folder of the list whose
    lower-cased name has no usable table entry; every folder before it
    would have resolved. *)
Theorem resolveFolders_spec (requested : option (list string)) :
  let targets := match requested with
                 | Some (f :: rest) => f :: rest
                 | _ => defaultFolders config
                 end in
  match resolveFolders requested with
  | inr fds =>
      map name fds = targets /\
      Forall (fun d => is_truthy (folderId d) = true /\
                       folderId d = get FOLDER_MAP (toLowerCase (name d))) fds
  | inl e =>
      exists before f after,
        targets = before ++ f :: after /\
        Forall (fun g => is_truthy (get FOLDER_MAP (toLowerCase g)) = true) before /\
        is_truthy (get FOLDER_MAP (toLowerCase f)) = false /\
        e = {| status := Some 400; message := "Unsupported folder specified: " +:+ f;
               details := []; expose := true |}
  end.
Proof. cbv zeta. unfold ExchangeService.resolveFolders. apply map_ensureFolder_spec. Qed.

Lemma FOLDER_MAP_lookup key w :
  (key, w) ∈ [("inbox", Inbox); ("junkemail", JunkEmail); ("deleteditems", DeletedItems);
              ("sentitems", SentItems); ("drafts", Drafts); ("archive", ArchiveRoot)] ->
  FOLDER_MAP !! key = Some (JsNumber (WellKnownFolderName_value w)).
Proof.
  rewrite !elem_of_cons, elem_of_nil.
  intros [[= -> ->]|[[= -> ->]|[[= -> ->]|[[= -> ->]|[[= -> ->]|[[= -> ->]|[]]]]]]];
    unfold ExchangeService.FOLDER_MAP; simpl;
    repeat (rewrite lookup_insert_ne by done); by rewrite lookup_insert_eq.
Qed.

Lemma FOLDER_MAP_miss key :
  key ∉ ["inbox"; "junkemail"; "deleteditems"; "sentitems"; "drafts"; "archive"] ->
  FOLDER_MAP !! key = None.
Proof.
  intros Hkey. unfold ExchangeService.FOLDER_MAP. simpl.
  rewrite !not_elem_of_cons in Hkey. destruct Hkey as (H1 & H2 & H3 & H4 & H5 & H6 & _).
  rewrite !lookup_insert_ne by done. apply lookup_empty.
Qed.

(** X15.  Which folder names are supported.  A folder name is looked up
    without regard to letter case.  A name whose lower-case form is one
    of the six table keys resolves to that well-known folder, provided the
    numeric value of the folder is not zero: a zero identifier is treated
    as missing and the folder is rejected as unsupported.  A name whose
    lower-case form is neither a table key nor a property every object
    inherits is rejected with status 400.  A lower-case form that is such
    an inherited property name is accepted, with the inherited value as
    the folder identifier. *)
Theorem ensureFolder_supported (folder : string) :
  (forall w,
      (toLowerCase folder, w) ∈
        [("inbox", Inbox); ("junkemail", JunkEmail); ("deleteditems", DeletedItems);
         ("sentitems", SentItems); ("drafts", Drafts); ("archive", ArchiveRoot)] ->
      ensureFolder folder =
      if WellKnownFolderName_value w =? 0
      then inl {| status := Some 400; message := "Unsupported folder specified: " +:+ folder;
                  details := []; expose := true |}
      else inr {| name := folder; folderId := JsNumber (WellKnownFolderName_value w) |}) /\
  (toLowerCase folder ∉ ["inbox"; "junkemail"; "deleteditems"; "sentitems"; "drafts"; "archive"] ->
   ensureFolder folder =
   if bool_decide (toLowerCase folder ∈ Object_prototype)
   then inr {| name := folder; folderId := JsInherited (toLowerCase folder) |}
   else inl {| status := Some 400; message := "Unsupported folder specified: " +:+ folder;
               details := []; expose := true |}).
Proof.
  split.
  - intros w Hw. unfold ExchangeService.ensureFolder, get.
    rewrite (FOLDER_MAP_lookup _ w Hw). simpl. by destruct (_ =? 0).
  - intros Hmiss. unfold ExchangeService.ensureFolder, get.
    rewrite FOLDER_MAP_miss by done. by case_bool_decide.
Qed.

Lemma DELETE_MODE_MAP_lookup key k :
  (key, k) ∈ [("softdelete", SoftDelete); ("movetodeleteditems", MoveToDeletedItems);
              ("harddelete", HardDelete)] ->
  DELETE_MODE_MAP DeleteMode_value !! key = Some (JsNumber (DeleteMode_value k)).
Proof.
  rewrite !elem_of_cons, elem_of_nil.
  intros [[= -> ->]|[[= -> ->]|[[= -> ->]|[]]]];
    unfold DELETE_MODE_MAP; simpl;
    repeat (rewrite lookup_insert_ne by done); by rewrite lookup_insert_eq.
Qed.

Lemma resolveDeleteMode_known (deleteMode : string) (k : DeleteMode) :
  (toLowerCase deleteMode, k) ∈
    [("softdelete", SoftDelete); ("movetodeleteditems", MoveToDeletedItems);
     ("harddelete", HardDelete)] ->
  resolveDeleteMode deleteMode =
  if DeleteMode_value k =? 0
  then (JsNumber (DeleteMode_value SoftDelete), "softdelete")
  else (JsNumber (DeleteMode_value k), toLowerCase deleteMode).
Proof.
  intros Hk. unfold ExchangeService.resolveDeleteMode, get, or_else.
  rewrite (DELETE_MODE_MAP_lookup _ k Hk). simpl. by destruct (_ =? 0).
Qed.

(** X16.  The three delete modes.  A [deleteMode] is matched without
    regard to letter case.  When its lower-case form is one of the three
    table keys, the mode passed to the server and the mode reported are
    that key's, provided the numeric value of the mode is not zero; a
    mode whose numeric value is zero is treated as missing, and the
    request runs and reports as a soft delete instead. *)
Theorem deleteMode_known (deleteMode : string) (k : DeleteMode) :
  (toLowerCase deleteMode, k) ∈
    [("softdelete", SoftDelete); ("movetodeleteditems", MoveToDeletedItems);
     ("harddelete", HardDelete)] ->
  resolveDeleteMode deleteMode =
  if DeleteMode_value k =? 0
  then (JsNumber (DeleteMode_value SoftDelete), "softdelete")
  else (JsNumber (DeleteMode_value k), toLowerCase deleteMode).
Proof. eapply resolveDeleteMode_known; eauto. Qed.
End ConfigurationMore.


(* ===================================================================== *)
(** * Further properties: the search and delete routes *)
(* ===================================================================== *)

Section RoutesMore.
Import Js ExchangeService ExchangeRoutes Trace Api.
Context {Session : Type} (ews : Endpoint Session) (config : Config).
Context (DeleteMode_value : DeleteMode -> Z).
Context (WellKnownFolderName_value : WellKnownFolderName -> Z).
Context (localeCompare : string -> string -> Z).
Context (Date_parse : string -> option Z) (toISOString : Z -> string).
Context (is_email : string -> bool) (iso_date : Json -> option Z).
Context (to_number : Json -> option Z) (to_boolean : Json -> option bool).

Local Abbreviation validate := (validate is_email iso_date to_number to_boolean).
Local Abbreviation accepts := (accepts is_email iso_date to_number to_boolean).
Local Abbreviation post_search :=
  (post_search Session ews config WellKnownFolderName_value localeCompare
     Date_parse toISOString is_email iso_date to_number to_boolean).
Local Abbreviation post_delete :=
  (post_delete Session ews config DeleteMode_value WellKnownFolderName_value localeCompare
     Date_parse toISOString is_email iso_date to_number to_boolean).
Local Abbreviation deleteMessages :=
  (deleteMessages Session ews config DeleteMode_value WellKnownFolderName_value
     localeCompare Date_parse toISOString).
Local Abbreviation searchMessages :=
  (searchMessages Session ews config WellKnownFolderName_value
     localeCompare Date_parse toISOString).

Lemma joi_string_ok required key rule v r :
  joi_string required key rule v = ([], r) ->
  match r with
  | Some s => v = Some (JString s) /\ s <> EmptyString /\ rule s = None
  | None => v = None /\ required = false
  end.
Proof.
  unfold joi_string. destruct v as [[s| | |]|]; try done.
  - destruct (String.eqb_spec s EmptyString) as [->|Hne]; [done|].
    destruct (rule s) eqn:Er; [done|]. by intros [= <-].
  - destruct required; [done|]. by intros [= <-].
Qed.

Lemma joi_optional_ok {A} key c (conv : Json -> option A) ok v r :
  joi_optional key c conv ok v = ([], r) ->
  match r with
  | Some a => exists j, v = Some j /\ conv j = Some a /\ ok a = true
  | None => v = None
  end.
Proof.
  unfold joi_optional. destruct v as [j|]; [|by intros [= <-]].
  destruct (conv j) as [a|] eqn:Ec; [|done].
  destruct (ok a) eqn:Eo; [|done]. intros [= <-]. by exists j.
Qed.

Lemma validate_sound (schema : Schema) (b : Body) (p : Payload) :
  validate schema b = Accepted p ->
  (truthy (p_sender p) = true \/ truthy (p_subject p) = true) /\
  (sender_required schema = true -> truthy (p_sender p) = true) /\
  (forall s, p_sender p = Some s ->
     sender b = Some (JString s) /\ s <> EmptyString /\ is_email s = true) /\
  (forall s, p_subject p = Some s ->
     subject b = Some (JString s) /\ s <> EmptyString /\ (String.length s <= 256)%nat) /\
  (forall n, p_maxPerMailbox p = Some n -> 1 <= n <= 2000) /\
  (forall x y, p_receivedFrom p = Some x -> p_receivedTo p = Some y -> x <= y) /\
  (if simulate_key schema
   then exists v, p_simulate p = Some v /\
          ((simulate b = None /\ v = true) \/
           exists j, simulate b = Some j /\ to_boolean j = Some v)
   else p_simulate p = None).
Proof.
  unfold ExchangeRoutes.validate.
  destruct (joi_string _ "sender" _ _) as [e1 v1] eqn:E1.
  destruct (joi_string _ "subject" _ _) as [e2 v2] eqn:E2.
  destruct (joi_optional "receivedFrom" _ _ _ _) as [e3 v3] eqn:E3.
  destruct (joi_optional "receivedTo" _ _ _ _) as [e4 v4] eqn:E4.
  destruct (joi_optional "maxPerMailbox" _ _ _ _) as [e5 v5] eqn:E5.
  destruct (if simulate_key schema then _ else _) as [e6 v6] eqn:E6.
  destruct (e1 ++ e2 ++ e3 ++ e4 ++ e5 ++ e6) eqn:Eapp; [|done].
  apply app_eq_nil in Eapp as [-> Eapp]. apply app_eq_nil in Eapp as [-> Eapp].
  apply app_eq_nil in Eapp as [-> Eapp]. apply app_eq_nil in Eapp as [-> Eapp].
  apply app_eq_nil in Eapp as [-> ->].
  destruct (filter_requirement _) eqn:EF; [|done]. intros [= <-]. simpl.
  apply joi_string_ok in E1, E2. apply joi_optional_ok in E3, E4, E5.
  unfold filter_requirement in EF. simpl in EF.
  destruct (truthy v1 || truthy v2) eqn:Eprimary; [|done]. simpl in EF.
  split; [by apply orb_true_iff|].
  split.
  { intros Hreq. destruct v1 as [s|]; [|destruct E1 as [_ E1]; congruence].
    destruct E1 as (_ & Hne & _). by apply truthy_nonempty. }
  split.
  { intros s ->. destruct E1 as (? & ? & Hrule). repeat split; try done.
    by destruct (is_email s). }
  split.
  { intros s ->. destruct E2 as (? & ? & Hrule). repeat split; try done.
    destruct (Nat.leb_spec (String.length s) 256); [done|done]. }
  split.
  { intros n ->. destruct E5 as (j & _ & _ & Hok). apply andb_true_iff in Hok as [H1 H2]. lia. }
  split.
  { intros x y -> ->. destruct (x >? y) eqn:Exy; [done|]. lia. }
  destruct (simulate_key schema).
  - destruct (simulate b) as [j|] eqn:Es.
    + apply joi_optional_ok in E6. destruct v6 as [v|]; [|done].
      destruct E6 as (j' & [= <-] & Hconv & _). exists v. split; [done|]. right. by exists j.
    + injection E6 as <-. exists true. split; [done|]. by left.
  - by injection E6 as <-.
Qed.

(** X17.  What validation guarantees.  A payload that passed either
    schema carries a non-empty sender or a non-empty subject, and a
    non-empty sender when the schema requires it.  Its sender is the
    string of the body and passed the email rule; its subject is the
    string of the body and has at most 256 characters; its
    [maxPerMailbox] lies between 1 and 2000; its dates are in order.
    Under the delete schema [simulate] is always set: to [true] when the
    body has no such key, otherwise to the boolean the key converts to.
    Under the search schema [simulate] is never set. *)
Theorem validated_payload (schema : Schema) (b : Body) (p : Payload) :
  validate schema b = Accepted p ->
  (truthy (p_sender p) = true \/ truthy (p_subject p) = true) /\
  (sender_required schema = true -> truthy (p_sender p) = true) /\
  (forall s, p_sender p = Some s ->
     sender b = Some (JString s) /\ s <> EmptyString /\ is_email s = true) /\
  (forall s, p_subject p = Some s ->
     subject b = Some (JString s) /\ s <> EmptyString /\ (String.length s <= 256)%nat) /\
  (forall n, p_maxPerMailbox p = Some n -> 1 <= n <= 2000) /\
  (forall x y, p_receivedFrom p = Some x -> p_receivedTo p = Some y -> x <= y) /\
  (if simulate_key schema
   then exists v, p_simulate p = Some v /\
          ((simulate b = None /\ v = true) \/
           exists j, simulate b = Some j /\ to_boolean j = Some v)
   else p_simulate p = None).
Proof. eapply validate_sound; eauto. Qed.

Lemma concat_segments {A} (P : RemoteCall -> Prop) (Q : A -> list RemoteCall -> Prop)
    (ms : list A) (segs : list (list RemoteCall)) :
  (forall m seg, Q m seg -> Forall P seg) ->
  Forall2 Q ms segs -> Forall P (concat segs).
Proof.
  intros HQ HF. apply Forall_concat.
  induction HF as [|m seg ms segs Hseg _ IH]; constructor; eauto.
Qed.

Lemma toFilters_query_sender (p : Payload) q :
  truthy (p_sender p) = true \/ truthy (p_subject p) = true ->
  q = searchQuery Date_parse toISOString (toFilters p) \/
  (q = deleteQuery Date_parse toISOString (toFilters p) ) ->
  q <> QueryBuilder.DEFAULT_QUERY.
Proof.
  intros Hprimary [->| ->]; unfold searchQuery, deleteQuery;
    intros Hq; apply buildAqsQuery_default_fields in Hq as (Hs & Hj & _); simpl in Hs, Hj;
    destruct Hprimary; congruence.
Qed.

Lemma softDelete_default :
  resolveDeleteMode DeleteMode_value "softDelete" =
  (JsNumber (DeleteMode_value SoftDelete), "softdelete").
Proof.
  rewrite (resolveDeleteMode_known DeleteMode_value "softDelete" SoftDelete)
    by (apply elem_of_cons; by left).
  destruct (_ =? 0); done.
Qed.

(** X18.  The delete route is guarded.  A body the delete schema does
    not accept is answered with the validation error and nothing is sent
    to the server.  Otherwise every call the route causes is the
    directory lookup, a scan whose query is not the match-everything
    default, or a deletion in soft-delete mode; and a deletion is only
    ever sent when the body carries a [simulate] key that converts to
    [false].  The mode reported in the answer is always [softdelete], and
    the reported query is never the default query: the hard-delete and
    move modes of the service cannot be reached through this route. *)
Theorem post_delete_guarded (fuel : nat) (requestId : string) (body : Body) :
  let run := post_delete fuel requestId body in
  (accepts deleteSchema body = false -> exists issues, run = (BadRequest issues, [])) /\
  Forall (fun c =>
            c = CallGetSearchableMailboxes \/
            (exists q, scans_with q c /\ q <> QueryBuilder.DEFAULT_QUERY) \/
            (deletes_with (JsNumber (DeleteMode_value SoftDelete)) c /\
             exists j, simulate body = Some j /\ to_boolean j = Some false)) run.2 /\
  (forall data, run.1 = Replied data ->
     mode (summary data) = "softdelete" /\
     query data <> Some QueryBuilder.DEFAULT_QUERY).
Proof.
  cbv zeta. unfold Api.post_delete, ExchangeRoutes.accepts.
  destruct (validate deleteSchema body) as [p|issues] eqn:EV.
  2:{ split; [intros _; by eexists|]. split; [constructor|done]. }
  split; [done|].
  destruct (validate_sound _ _ _ EV) as (Hprimary & _ & _ & _ & _ & _ & Hsim).
  simpl in Hsim. destruct Hsim as (v & Hv & Hsim).
  pose proof (deleteMessages_sends ews config DeleteMode_value WellKnownFolderName_value
                localeCompare Date_parse toISOString fuel (toFilters p) (requestContext requestId))
    as (dir & segs & Hcalls & Hdir & _ & Hsegs).
  pose proof (deleteMessages_run ews config DeleteMode_value WellKnownFolderName_value
                localeCompare Date_parse toISOString fuel (toFilters p) (requestContext requestId))
    as Hrun.
  assert (Hq : deleteQuery Date_parse toISOString (toFilters p) <> QueryBuilder.DEFAULT_QUERY).
  { eapply toFilters_query_sender; [exact Hprimary|by right]. }
  split.
  - destruct (deleteMessages _ _ _) as [r cs]. simpl in Hcalls. subst cs.
    assert (G : Forall (fun c =>
              c = CallGetSearchableMailboxes \/
              (exists q, scans_with q c /\ q <> QueryBuilder.DEFAULT_QUERY) \/
              (deletes_with (JsNumber (DeleteMode_value SoftDelete)) c /\
               exists j, simulate body = Some j /\ to_boolean j = Some false))
              (dir ++ concat segs)).
    { apply Forall_app. split.
      - destruct Hdir as [->| ->]; repeat constructor.
      - destruct Hsegs as [->|(mailboxes & fds & _ & _ & HF)]; [constructor|].
        eapply concat_segments; [|exact HF]. clear HF.
        intros m seg (scans & deletes & -> & Hscans & Hdel). apply Forall_app. split.
        + eapply Forall_impl; [exact Hscans|]. intros [| |]; simpl; try done.
          intros (_ & _ & -> & _). right. left. eexists. by split.
        + destruct Hdel as [->|(ids & Hlive & _ & _ & ->)]; [constructor|].
          constructor; [|constructor]. right. right. cbn [deletes_with].
          change (default "softDelete" (f_deleteMode (toFilters p))) with "softDelete".
          rewrite softDelete_default. split; [done|].
          simpl in Hlive. rewrite Hv in Hlive. simpl in Hlive. subst v.
          destruct Hsim as [[_ ?]|?]; [done|done]. }
    by destruct r.
  - intros data Hdata.
    destruct (getSearchableMailboxes _ _ _ _) as [[mailboxes|e|] cs0];
      [|rewrite Hrun in Hdata; done|rewrite Hrun in Hdata; done].
    destruct (resolveFolders _ _ _) as [e|fds]; [rewrite Hrun in Hdata; done|].
    destruct Hrun as (_ & _ & Hres).
    destruct (deleteMessages _ _ _) as [[agg|e|] cs]; try done.
    simpl in Hdata. injection Hdata as <-.
    destruct (Hres agg eq_refl) as (rs & _ & _ & _ & _ & _ & _ & _ & Hmode & _ & Hquery).
    split.
    + rewrite Hmode.
      change (default "softDelete" (f_deleteMode (toFilters p))) with "softDelete".
      by rewrite softDelete_default.
    + destruct Hquery as [Hsome Hnone]. destruct mailboxes as [|m ms].
      * by rewrite Hnone.
      * rewrite Hsome by done. by intros [= ?].
Qed.

(** X19.  The search route is guarded.  A body the search schema does
    not accept is answered with the validation error and nothing is sent
    to the server.  Otherwise every call the route causes is the
    directory lookup or a scan whose query is not the match-everything
    default; nothing is ever deleted.  The reported query is never the
    default query, no result lists more than 1000 matches, and no
    [simulate] flag reaches the service. *)
Theorem post_search_guarded (fuel : nat) (requestId : string) (body : Body) :
  let run := post_search fuel requestId body in
  (accepts filterBaseSchema body = false -> exists issues, run = (BadRequest issues, [])) /\
  Forall (fun c =>
            c = CallGetSearchableMailboxes \/
            exists q, scans_with q c /\ q <> QueryBuilder.DEFAULT_QUERY) run.2 /\
  (forall data, run.1 = Replied data ->
     query data <> Some QueryBuilder.DEFAULT_QUERY /\
     Forall (fun o => 1 <= matchCount o <= 1000) (results data)).
Proof.
  cbv zeta. unfold Api.post_search, ExchangeRoutes.accepts.
  destruct (validate filterBaseSchema body) as [p|issues] eqn:EV.
  2:{ split; [intros _; by eexists|]. split; [constructor|done]. }
  split; [done|].
  destruct (validate_sound _ _ _ EV) as (Hprimary & _).
  pose proof (searchMessages_sends ews config WellKnownFolderName_value
                localeCompare Date_parse toISOString fuel (toFilters p) (requestContext requestId))
    as (_ & dir & segs & Hcalls & Hdir & Hsegs).
  pose proof (searchMessages_run ews config WellKnownFolderName_value
                localeCompare Date_parse toISOString fuel (toFilters p) (requestContext requestId))
    as Hrun.
  pose proof (searchMessages_reports ews config WellKnownFolderName_value
                localeCompare Date_parse toISOString fuel (toFilters p) (requestContext requestId))
    as Hout.
  assert (Hq : searchQuery Date_parse toISOString (toFilters p) <> QueryBuilder.DEFAULT_QUERY).
  { eapply toFilters_query_sender; [exact Hprimary|by left]. }
  split.
  - destruct (searchMessages _ _ _) as [r cs]. simpl in Hcalls. subst cs.
    assert (G : Forall (fun c =>
              c = CallGetSearchableMailboxes \/
              exists q, scans_with q c /\ q <> QueryBuilder.DEFAULT_QUERY)
              (dir ++ concat segs)).
    { apply Forall_app. split.
      - destruct Hdir as [->| ->]; repeat constructor.
      - destruct Hsegs as [->|(mailboxes & fds & _ & _ & HF)]; [constructor|].
        eapply concat_segments; [|exact HF]. clear HF.
        intros m seg Hscans.
        eapply Forall_impl; [exact Hscans|]. intros [| |]; simpl; try done.
        intros (_ & _ & -> & _). right. eexists. by split. }
    by destruct r.
  - intros data Hdata.
    destruct (getSearchableMailboxes _ _ _ _) as [[mailboxes|e|] cs0];
      [|rewrite Hrun in Hdata; done|rewrite Hrun in Hdata; done].
    destruct (resolveFolders _ _ _) as [e|fds]; [rewrite Hrun in Hdata; done|].
    destruct Hrun as (_ & _ & Hres).
    destruct (searchMessages _ _ _) as [[agg|e|] cs]; try done.
    simpl in Hdata. injection Hdata as <-.
    destruct (Hres agg eq_refl) as (rs & _ & _ & _ & _ & _ & _ & Hsome & Hnone).
    split.
    + destruct mailboxes as [|m ms].
      * by rewrite Hnone.
      * rewrite Hsome by done. by intros [= ?].
    + destruct (Hout agg eq_refl) as (ms & fds' & _ & _ & Hlim & Hsucc & _).
      eapply Forall_impl; [exact Hsucc|].
      intros o (_ & _ & found & Hm & Hne & _ & Hcap & _). unfold matchCount. rewrite Hm. simpl.
      destruct found; [done|]. simpl in *. lia.
Qed.

Lemma validate_complete (schema : Schema) (b : Body) :
  well_formed is_email iso_date to_number to_boolean b ->
  (sender_required schema = true -> is_Some (sender b)) ->
  is_Some (sender b) \/ is_Some (subject b) ->
  accepts schema b = true.
Proof.
  intros (Hsender & Hsubject & Hfrom & Hto & Horder & Hmax & Hsim) Hreq Hprimary.
  unfold ExchangeRoutes.accepts, ExchangeRoutes.validate.
  assert (E1 : exists v, joi_string (sender_required schema) "sender"
                 (fun s => if is_email s then None else Some "string.email")
                 (sender b) = ([], v) /\ (is_Some (sender b) -> truthy v = true)).
  { destruct (sender b) as [[s| | |]|] eqn:Es; try done.
    - destruct Hsender as [Hne Hmail]. exists (Some s). split.
      + apply joi_string_present; [done|]. by rewrite Hmail.
      + intros _. by apply truthy_nonempty.
    - exists None. split.
      + simpl. destruct (sender_required schema); [|done].
        destruct (Hreq eq_refl) as [? ?]. done.
      + by intros [? ?]. }
  destruct E1 as (v1 & -> & Hv1).
  assert (E2 : exists v, joi_string false "subject"
                 (fun s => if (String.length s <=? 256)%nat then None else Some "string.max")
                 (subject b) = ([], v) /\ (is_Some (subject b) -> truthy v = true)).
  { destruct (subject b) as [[s2| | |]|]; try done.
    - destruct Hsubject as [Hne2 Hlen]. exists (Some s2). split.
      + apply joi_string_present; [done|]. apply Nat.leb_le in Hlen. by rewrite Hlen.
      + intros _. by apply truthy_nonempty.
    - exists None. split; [done|]. by intros [? ?]. }
  destruct E2 as (v2 & -> & Hv2).
  assert (E3 : joi_optional "receivedFrom" "date.format" iso_date (fun _ => true) (receivedFrom b)
               = ([], receivedFrom b ≫= iso_date)).
  { destruct (receivedFrom b) as [j|]; [|done]. destruct Hfrom as [x Hx].
    unfold joi_optional. simpl. by rewrite Hx. }
  assert (E4 : joi_optional "receivedTo" "date.format" iso_date (fun _ => true) (receivedTo b)
               = ([], receivedTo b ≫= iso_date)).
  { destruct (receivedTo b) as [j|]; [|done]. destruct Hto as [x Hx].
    unfold joi_optional. simpl. by rewrite Hx. }
  rewrite E3, E4.
  assert (E5 : exists v, joi_optional "maxPerMailbox" "number.base" to_number
                 (fun n => (1 <=? n) && (n <=? 2000)) (maxPerMailbox b) = ([], v)).
  { destruct (maxPerMailbox b) as [j|]; [|by eexists].
    destruct Hmax as (n & Hn & Hrange). eexists. apply joi_optional_present; [exact Hn|].
    apply andb_true_iff. split; apply Z.leb_le; lia. }
  destruct E5 as [v5 ->].
  assert (E6 : exists v,
             (if simulate_key schema then
                match simulate b with
                | None => ([], Some true)
                | some => joi_optional "simulate" "boolean.base" to_boolean (fun _ => true) some
                end
              else ([], None)) = ([] : list Issue, v)).
  { destruct (simulate_key schema); [|by eexists].
    destruct (simulate b) as [j|]; [|by eexists].
    destruct Hsim as [x Hx]. eexists. unfold joi_optional. by rewrite Hx. }
  destruct E6 as [v6 ->]. simpl.
  unfold filter_requirement. simpl.
  assert (Ep : truthy v1 || truthy v2 = true).
  { apply orb_true_iff. destruct Hprimary; [left|right]; auto. }
  rewrite Ep. simpl.
  destruct (receivedFrom b) as [f|]; simpl; [|done].
  destruct (iso_date f) as [x|]; simpl; [|done].
  destruct (receivedTo b) as [t|]; simpl; [|done].
  destruct (iso_date t) as [y|]; simpl; [|done].
  assert (E : (x >? y) = false) by lia. by rewrite E.
Qed.

(** X20.  What the search schema asks for.  Among well-formed bodies
    the search schema accepts exactly those that carry a sender or a
    subject.  Whatever else a body carries, the search schema rejects it
    when it has neither sender nor subject, and both schemas reject a body
    whose two dates convert but are out of order. *)
Theorem schemas_primary_filter (b : Body) :
  (well_formed is_email iso_date to_number to_boolean b ->
   (accepts filterBaseSchema b = true <-> is_Some (sender b) \/ is_Some (subject b))) /\
  (sender b = None -> subject b = None -> accepts filterBaseSchema b = false) /\
  (forall schema f t x y,
      receivedFrom b = Some f -> receivedTo b = Some t ->
      iso_date f = Some x -> iso_date t = Some y -> y < x ->
      accepts schema b = false).
Proof.
  assert (Hsound : forall schema, accepts schema b = true ->
            (is_Some (sender b) \/ is_Some (subject b)) /\
            (sender_required schema = true -> is_Some (sender b)) /\
            (forall f t x y, receivedFrom b = Some f -> receivedTo b = Some t ->
               iso_date f = Some x -> iso_date t = Some y -> x <= y)).
  { intros schema. unfold ExchangeRoutes.accepts.
    destruct (validate schema b) as [p|] eqn:EV; [|done]. intros _.
    destruct (validate_sound _ _ _ EV) as (Hp & Hreq & Hs & Hj & _ & Hord & _).
    assert (Hsnd : truthy (p_sender p) = true -> is_Some (sender b)).
    { destruct (p_sender p) as [s|] eqn:E; [|done]. intros _.
      destruct (Hs s eq_refl) as [-> _]. by eexists. }
    assert (Hsub : truthy (p_subject p) = true -> is_Some (subject b)).
    { destruct (p_subject p) as [s|] eqn:E; [|done]. intros _.
      destruct (Hj s eq_refl) as [-> _]. by eexists. }
    split; [destruct Hp; auto|]. split; [auto|].
    intros f t x y Hf Ht Hx Hy. apply Hord.
    - generalize EV. unfold ExchangeRoutes.validate.
      destruct (joi_string _ "sender" _ _) as [e1 v1].
      destruct (joi_string _ "subject" _ _) as [e2 v2].
      destruct (joi_optional "receivedFrom" _ _ _ _) as [e3 v3] eqn:E3.
      destruct (joi_optional "receivedTo" _ _ _ _) as [e4 v4].
      destruct (joi_optional "maxPerMailbox" _ _ _ _) as [e5 v5].
      destruct (if simulate_key schema then _ else _) as [e6 v6].
      destruct (e1 ++ e2 ++ e3 ++ e4 ++ e5 ++ e6); [|done].
      destruct (filter_requirement _); [|done]. intros [= <-]. simpl.
      rewrite Hf in E3. unfold joi_optional in E3. rewrite Hx in E3. by injection E3 as _ <-.
    - generalize EV. unfold ExchangeRoutes.validate.
      destruct (joi_string _ "sender" _ _) as [e1 v1].
      destruct (joi_string _ "subject" _ _) as [e2 v2].
      destruct (joi_optional "receivedFrom" _ _ _ _) as [e3 v3].
      destruct (joi_optional "receivedTo" _ _ _ _) as [e4 v4] eqn:E4.
      destruct (joi_optional "maxPerMailbox" _ _ _ _) as [e5 v5].
      destruct (if simulate_key schema then _ else _) as [e6 v6].
      destruct (e1 ++ e2 ++ e3 ++ e4 ++ e5 ++ e6); [|done].
      destruct (filter_requirement _); [|done]. intros [= <-]. simpl.
      rewrite Ht in E4. unfold joi_optional in E4. rewrite Hy in E4. by injection E4 as _ <-. }
  split; [|split].
  - intros Hwf. split; [by intros [? _]%Hsound|]. intros Hp. by apply validate_complete.
  - intros Hs Hj. destruct (accepts filterBaseSchema b) eqn:E; [|done].
    apply Hsound in E as [[[? ?]|[? ?]] _]; congruence.
  - intros schema f t x y Hf Ht Hx Hy Hlt. destruct (accepts schema b) eqn:E; [|done].
    apply Hsound in E as (_ & _ & Hord). specialize (Hord f t x y Hf Ht Hx Hy). lia.
Qed.

Lemma getSearchableMailboxes_error ctx e :
  (getSearchableMailboxes Session ews config ctx).1 = Rejected e ->
  (status e = Some 500 \/ status e = Some 502) /\ expose e = true /\
  message e <> EmptyString.
Proof.
  unfold ExchangeService.getSearchableMailboxes, with_service, ExchangeService.createService,
    ensureCredentialsConfigured.
  destruct (negb (truthy (username config)) || negb (truthy (password config))).
  { intros [= <-]. simpl. by repeat split; [left|..]. }
  destruct (negb (truthy (ewsUrl config)) && negb (truthy (autodiscoverEmail config))).
  { intros [= <-]. simpl. by repeat split; [left|..]. }
  destruct (connect ews _) as [s|err].
  - unfold try_catch, bind, call_GetSearchableMailboxes.
    destruct (GetSearchableMailboxes ews _) as [[x|err] s']; simpl.
    + by destruct x as [[boxes|]|].
    + intros [= <-]. simpl. by repeat split; [right|..].
  - intros [= <-]. simpl. by repeat split; [right|..].
Qed.

Lemma resolveFolders_error requested e :
  resolveFolders config WellKnownFolderName_value requested = inl e ->
  status e = Some 400 /\ expose e = true /\ message e <> EmptyString.
Proof.
  intros He. unfold ExchangeService.resolveFolders in He.
  pose proof (map_ensureFolder_spec WellKnownFolderName_value
                (match requested with
                 | Some (f :: rest) => f :: rest
                 | _ => defaultFolders config
                 end)) as H.
  rewrite He in H. destruct H as (before & f & after & _ & _ & _ & ->).
  by repeat split.
Qed.

(** X26.  Errors of a request reach the client as they are.  When the
    search or the delete route fails after validation, the error carries
    status 400, 500 or 502, is marked as exposed and has a non-empty
    message; the error-handling middleware therefore answers with that
    very status and message and never with the generic
    [Unexpected server error]. *)
Theorem request_errors_are_reported (fuel : nat) (requestId : string) (body : Body)
    (e : JsError) :
  (post_search fuel requestId body).1 = Failed e \/
  (post_delete fuel requestId body).1 = Failed e ->
  exists s, s ∈ [400; 500; 502] /\ status e = Some s /\ message e <> EmptyString /\
    errorHandler requestId e =
    {| http := s; answer_message := message e; answer_status := s;
       answer_requestId := requestId |}.
Proof.
  intros Hfail.
  assert (Hup : exists filters ctx,
            (getSearchableMailboxes Session ews config ctx).1 = Rejected e \/
            resolveFolders config WellKnownFolderName_value (f_folders filters) = inl e).
  { destruct Hfail as [Hfail|Hfail].
    - unfold Api.post_search in Hfail.
      destruct (validate filterBaseSchema body) as [p|]; [|done].
      exists (toFilters p), (requestContext requestId).
      destruct (requests_reject_iff ews config DeleteMode_value WellKnownFolderName_value
                  localeCompare Date_parse toISOString fuel (toFilters p)
                  (requestContext requestId) e) as ([Hs _] & _).
      destruct (searchMessages _ _ _) as [[agg|e'|] cs]; try done.
      simpl in Hfail. injection Hfail as ->.
      destruct (Hs eq_refl) as [?|(? & _ & ?)]; auto.
    - unfold Api.post_delete in Hfail.
      destruct (validate deleteSchema body) as [p|]; [|done].
      exists (toFilters p), (requestContext requestId).
      destruct (requests_reject_iff ews config DeleteMode_value WellKnownFolderName_value
                  localeCompare Date_parse toISOString fuel (toFilters p)
                  (requestContext requestId) e) as (_ & [Hd _] & _).
      destruct (deleteMessages _ _ _) as [[agg|e'|] cs]; try done.
      simpl in Hfail. injection Hfail as ->.
      destruct (Hd eq_refl) as [?|(? & _ & ?)]; auto. }
  destruct Hup as (filters & ctx & [Hdir|Hfold]).
  - apply getSearchableMailboxes_error in Hdir as ([Hs|Hs] & Hx & Hm).
    + exists 500. split; [rewrite !elem_of_cons; auto|]. split; [done|]. split; [done|].
      unfold errorHandler. rewrite Hs, Hx. simpl.
      apply String.eqb_neq in Hm. by rewrite Hm.
    + exists 502. split; [rewrite !elem_of_cons; auto|]. split; [done|]. split; [done|].
      unfold errorHandler. rewrite Hs, Hx. simpl.
      apply String.eqb_neq in Hm. by rewrite Hm.
  - apply resolveFolders_error in Hfold as (Hs & Hx & Hm).
    exists 400. split; [rewrite !elem_of_cons; auto|]. split; [done|]. split; [done|].
    unfold errorHandler. rewrite Hs, Hx. simpl.
    apply String.eqb_neq in Hm. by rewrite Hm.
Qed.
End RoutesMore.


(* ===================================================================== *)
(** * Further properties: the log store *)
(* ===================================================================== *)

Section LogStoreMore.
Import Js ExchangeRoutes LogStore.

Local Abbreviation newer := (fun a b : LogEntry => log_timestamp b <= log_timestamp a).

Lemma newest_first_sorted (l : list LogEntry) : StronglySorted newer (sort newest_first l).
Proof.
  rewrite <- (list_fmap_id (sort newest_first l)).
  eapply StronglySorted_fmap; [|apply (sort_sorted newest_first)].
  - intros a b. unfold newest_first. simpl. lia.
  - intros a b. unfold newest_first. lia.
  - intros a b c. unfold newest_first. lia.
Qed.

Lemma slice_to_take {A} (limit : Z) (l : list A) : exists n, slice_to limit l = take n l.
Proof. unfold slice_to. destruct (limit <? 0); by eexists. Qed.

Lemma omap_written (file : list LogEntry) :
  omap (fun line : option LogEntry => line) (map Some file) = file.
Proof. induction file as [|x file IH]; [done|]. simpl. f_equal. exact IH. Qed.

Lemma sort_newest_last (file : list LogEntry) (record : LogEntry) :
  Forall (fun x => log_timestamp x < log_timestamp record) file ->
  sort newest_first (file ++ [record]) = record :: sort newest_first file.
Proof.
  induction 1 as [|x file Hx _ IH]; [done|].
  simpl. rewrite IH. simpl. unfold newest_first at 1.
  destruct (Z.leb_spec (log_timestamp record - log_timestamp x) 0); [lia|done].
Qed.

Lemma take_step {A} (k : nat) (s : list A) :
  take k s ++ drop (length (take k s)) (take (S k) s) = take (S k) s.
Proof.
  revert k. induction s as [|x s IH]; intros [|k]; simpl; try done.
  f_equal. apply IH.
Qed.

(** X21.  Reading the log.  [readLogEntries] returns the stored records
    newest first.  With a positive limit (200 when none is given) it
    returns at most that many, and what it leaves out is never newer than
    anything it returns; with limit zero, or when the file holds no more
    records than the limit, it returns every record.  Lines that do not
    hold a record are skipped.  A missing file reads as the empty log, any
    other read error is passed on. *)
Theorem readLogEntries_newest_first (limit : option Z) (lines : list (option LogEntry)) :
  let stored := omap (fun line : option LogEntry => line) lines in
  (exists kept dropped,
     readLogEntries limit (Content lines) = Some kept /\
     kept ++ dropped ≡ₚ stored /\
     StronglySorted newer kept /\
     (forall k d, k ∈ kept -> d ∈ dropped -> log_timestamp d <= log_timestamp k) /\
     (0 < default 200 limit -> Z.of_nat (length kept) <= default 200 limit) /\
     (default 200 limit = 0 \/ Z.of_nat (length stored) <= default 200 limit ->
      dropped = [])) /\
  readLogEntries limit (ReadError "ENOENT") = Some [] /\
  (forall code, code <> "ENOENT" -> readLogEntries limit (ReadError code) = None).
Proof.
  cbv zeta. split; [|split; [done|]].
  2:{ intros code Hcode. simpl. apply String.eqb_neq in Hcode. by rewrite Hcode. }
  unfold readLogEntries.
  set (stored := omap _ lines). set (n := default 200 limit).
  pose proof (newest_first_sorted stored) as Hsorted.
  pose proof (sort_perm newest_first stored) as Hperm.
  destruct (negb (n =? 0) && (Z.of_nat (length (sort newest_first stored)) >? n)) eqn:Ecut.
  - apply andb_true_iff in Ecut as [Hnz Hlong]. apply negb_true_iff, Z.eqb_neq in Hnz.
    assert (Hlen : n < Z.of_nat (length stored)).
    { rewrite <- (Permutation_length Hperm). lia. }
    destruct (slice_to_take n (sort newest_first stored)) as [k Hk].
    exists (take k (sort newest_first stored)), (drop k (sort newest_first stored)).
    rewrite <- (take_drop k (sort newest_first stored)) in Hsorted.
    split; [by rewrite Hk|]. split; [by rewrite take_drop|].
    split; [by eapply StronglySorted_app_1_l|].
    split.
    { intros x d Hx Hd. by apply (StronglySorted_app_1_elem_of _ _ _ x d Hsorted). }
    split.
    { intros Hpos. rewrite <- Hk. unfold slice_to.
      destruct (Z.ltb_spec n 0); [lia|]. rewrite length_take. lia. }
    intros [?|?]; lia.
  - exists (sort newest_first stored), []. rewrite app_nil_r.
    split; [done|]. split; [done|]. split; [done|].
    split; [by intros ?? _ ?%elem_of_nil|]. split; [|done].
    intros Hpos. apply andb_false_iff in Ecut as [Hz|Hshort].
    + apply negb_false_iff, Z.eqb_eq in Hz. lia.
    + lia.
Qed.

(** X22.  Appending and reading back.  When the store succeeds, the
    record [appendLogEntry] returns is appended to the file.  It is the
    entry itself when the entry has an [id] property, whatever that
    property holds, and the entry under the fresh identifier when it has
    none.  If its timestamp is later than that of every record already
    in the file, then reading the log with any limit that is not
    negative, and in particular the log route with its limit of 500,
    returns that record first, followed by what the same read returned
    before the append, cut to the limit. *)
Theorem appended_entry_is_read_first (uuid : string) (entry : LogEntry) (file : list LogEntry) :
  Forall (fun x => log_timestamp x < log_timestamp entry) file ->
  exists record,
    appendLogEntry FsOk uuid entry file = (Some record, file ++ [record]) /\
    (is_Some (log_id entry) -> record = entry) /\
    (log_id entry = None -> log_id record = Some (Some uuid)) /\
    (exists older, get_purge_logs (written (file ++ [record])) = Some (record :: older)) /\
    forall limit, 0 <= default 200 limit ->
      exists older before,
        readLogEntries limit (written (file ++ [record])) = Some (record :: older) /\
        readLogEntries limit (written file) = Some before /\
        (older = before \/ older ++ drop (length older) before = before).
Proof.
  intros Hnew. exists (stamp uuid entry).
  assert (Hread : forall limit, 0 <= default 200 limit ->
      exists older before,
        readLogEntries limit (written (file ++ [stamp uuid entry])) =
          Some (stamp uuid entry :: older) /\
        readLogEntries limit (written file) = Some before /\
        (older = before \/ older ++ drop (length older) before = before)).
  { intros limit Hlimit. unfold readLogEntries, written. rewrite !omap_written.
    rewrite sort_newest_last by done.
    set (n := default 200 limit) in *. set (s := sort newest_first file).
    cbn [length]. unfold slice_to. destruct (Z.ltb_spec n 0) as [?|_]; [lia|].
    destruct (Z.eqb_spec n 0) as [Hz|Hnz]; simpl.
    - exists s, s. by repeat split; [..|left].
    - destruct (Z.gtb_spec (Z.of_nat (S (length s))) n) as [Hcut|Hall].
      + assert (Hn : Z.to_nat n = S (Z.to_nat (n - 1))) by lia. rewrite Hn. cbn [take].
        exists (take (Z.to_nat (n - 1)) s).
        destruct (Z.gtb_spec (Z.of_nat (length s)) n) as [Hcut'|Hall'].
        * eexists. split; [done|]. split; [done|]. right. apply take_step.
        * exists s. split; [done|]. split; [done|]. right.
          pose proof (take_step (Z.to_nat (n - 1)) s) as Hstep.
          by rewrite (take_ge s (S (Z.to_nat (n - 1)))) in Hstep by lia.
      + exists s, s. destruct (Z.gtb_spec (Z.of_nat (length s)) n); [lia|].
        by repeat split; [..|left]. }
  split; [done|]. split.
  { intros [held Hid]. unfold stamp. rewrite Hid. destruct entry. simpl in *. by subst. }
  split.
  { intros Hid. unfold stamp. simpl. by rewrite Hid. }
  split.
  { destruct (Hread (Some 500)) as (older & _ & H & _); [simpl; lia|]. by exists older. }
  exact Hread.
Qed.
End LogStoreMore.


(* ===================================================================== *)
(** * Further properties: the life of a purge operation *)
(* ===================================================================== *)

Section PurgeMore.
Import Js ExchangeRoutes PurgeTrace.
Context (affectedMailboxes : string -> list string).

Local Abbreviation handle := (handle affectedMailboxes).
Local Abbreviation run := (run affectedMailboxes).
Local Abbreviation onClose := (onClose affectedMailboxes).

Lemma mark_cancelled_keeps reason other c :
  cancelled c = true -> cancelReason c = Some reason -> reason <> EmptyString ->
  cancelled (mark_cancelled other c) = true /\
  cancelReason (mark_cancelled other c) = Some reason.
Proof.
  intros _ Hr Hne. unfold mark_cancelled. simpl. rewrite Hr.
  apply String.eqb_neq in Hne. simpl. by rewrite Hne.
Qed.

Lemma cancel_sticky from target kill sv ref op reason :
  operations sv !! ref = Some op -> cancelled_for reason op ->
  exists op', operations (cancel from target kill sv) !! ref = Some op' /\
              cancelled_for reason op'.
Proof.
  intros Hop (Hc & Hr & Hne). unfold cancel.
  destruct (activePurges_get sv target) as [[ref' op0]|] eqn:EG; [|by exists op].
  destruct (child (context op0)) as [[]|]; [|by exists op].
  destruct (bool_decide _); simpl; [by exists op|].
  destruct (decide (ref' = ref)) as [->|Hneq].
  - rewrite lookup_insert_eq. eexists. split; [done|].
    unfold activePurges_get in EG.
    destruct (activePurges sv !! target) as [r|]; [|done]. simpl in EG.
    destruct (operations sv !! r) as [o|] eqn:Eo; [|done]. simpl in EG.
    injection EG as -> ->. rewrite Hop in Eo. injection Eo as <-.
    destruct (mark_cancelled_keeps reason "user_requested" (context op) Hc Hr Hne).
    by repeat split.
  - rewrite lookup_insert_ne by done. by exists op.
Qed.

Lemma handle_sticky rid ev sv ref op reason :
  is_close ev = false ->
  operations sv !! ref = Some op -> cancelled_for reason op ->
  exists op', operations (handle rid ev sv) !! ref = Some op' /\
              cancelled_for reason op'.
Proof.
  intros Hev Hop Hfor.
  destruct ev; try done; unfold ExchangeRoutes.handle;
    try (by eapply cancel_sticky);
    (destruct (operations sv !! rid) as [op0|] eqn:E0; [|by exists op]);
    (destruct (decide (rid = ref)) as [->|Hneq];
     [rewrite Hop in E0; injection E0 as <-|]).
  - destruct (wantsStream (context op)); simpl; rewrite lookup_insert_eq; by eexists.
  - destruct (wantsStream (context op0)); simpl; rewrite lookup_insert_ne by done; by exists op.
  - destruct (wantsStream (context op)); simpl; rewrite lookup_insert_eq; by eexists.
  - destruct (wantsStream (context op0)); simpl; rewrite lookup_insert_ne by done; by exists op.
  - simpl. rewrite lookup_insert_eq. by eexists.
  - simpl. rewrite lookup_insert_ne by done. by exists op.
  - unfold onRequestClosed. destruct (_ && _); [|by exists op].
    simpl. rewrite lookup_insert_eq. eexists. split; [done|].
    destruct Hfor as (Hc & Hr & Hne).
    destruct (mark_cancelled_keeps reason "connection_closed" (context op) Hc Hr Hne).
    by repeat split.
  - unfold onRequestClosed. destruct (_ && _); [|by exists op].
    simpl. rewrite lookup_insert_ne by done. by exists op.
  - unfold onError. destruct (wantsStream (context op)); simpl; rewrite lookup_insert_eq;
      by eexists.
  - unfold onError. destruct (wantsStream (context op0)); simpl;
      rewrite lookup_insert_ne by done; by exists op.
Qed.

Lemma onClose_sticky rid op0 code signal completedAt fs uuid sv ref op reason :
  operations sv !! rid = Some op0 ->
  operations sv !! ref = Some op -> cancelled_for reason op ->
  exists op', operations (onClose rid op0 code signal completedAt fs uuid sv) !! ref = Some op' /\
              cancelled_for reason op'.
Proof.
  intros H0 Hop Hfor. unfold ExchangeRoutes.onClose, appendLogEntry.
  destruct (decide (rid = ref)) as [->|Hneq].
  - rewrite Hop in H0. injection H0 as <-.
    destruct fs; destruct (wantsStream (context op)); simpl; rewrite lookup_insert_eq;
      by eexists.
  - destruct fs; destruct (wantsStream (context op0)); simpl;
      rewrite lookup_insert_ne by done; by exists op.
Qed.

Lemma run_sticky rid evs sv ref op reason :
  operations sv !! ref = Some op -> cancelled_for reason op ->
  exists op', operations (run rid evs sv) !! ref = Some op' /\ cancelled_for reason op'.
Proof.
  revert sv op. induction evs as [|ev evs IH]; intros sv op Hop Hfor; [by exists op|].
  unfold ExchangeRoutes.run. simpl.
  assert (H1 : exists op', operations (handle rid ev sv) !! ref = Some op' /\
                           cancelled_for reason op').
  { destruct (is_close ev) eqn:Ec; [|by eapply handle_sticky].
    destruct ev; try done. unfold ExchangeRoutes.handle.
    destruct (operations sv !! rid) as [op0|] eqn:E0; [|by exists op].
    by eapply onClose_sticky. }
  destruct H1 as (op1 & Hop1 & Hfor1). by apply (IH _ op1).
Qed.

(** X23.  A cancellation sticks.  Once the context of an operation is
    marked as cancelled for some reason, no later event of any operation
    undoes the mark or replaces the reason: output, exit, disconnects,
    further cancel requests, a spawn error and the close of the process
    all leave both as they are. *)
Theorem cancellation_is_sticky rid evs sv ref op reason :
  operations sv !! ref = Some op -> cancelled_for reason op ->
  exists op', operations (run rid evs sv) !! ref = Some op' /\ cancelled_for reason op'.
Proof. eapply run_sticky; eauto. Qed.

Lemma join_empty_length (chunks : list string) :
  String.length (join EmptyString chunks) = total_length chunks.
Proof.
  assert (Happ : forall a b, String.length (a +:+ b) = (String.length a + String.length b)%nat).
  { induction a as [|c a IH]; intros b; simpl; [done|]. by rewrite IH. }
  induction chunks as [|x rest IH]; [done|].
  destruct rest as [|y rest]; [simpl; lia|].
  change (join EmptyString (x :: y :: rest))
    with (x +:+ EmptyString +:+ join EmptyString (y :: rest)).
  rewrite !Happ, IH. simpl. lia.
Qed.

(** What an event other than the close of the process leaves of the
    closure of the operation. *)
(** X24.  The audit entry accounts for the run.  When the process of an
    operation closes and the store succeeds, exactly one entry is added to
    the log.  It carries the identifier and the request of the operation,
    the mode derived from the request, the start time as its timestamp,
    the exit code and the completion time it was given, and their
    difference as the duration.  Its output lengths are the total lengths
    of the chunks the process wrote to standard output and to standard
    error before it closed, and the affected mailboxes are mined from all
    standard output chunks in order of arrival, whatever cancel requests,
    disconnects or errors happened in between. *)
Theorem purge_log_accounts_for_run rid pre code signal completedAt uuid sv op :
  operations sv !! rid = Some op ->
  Forall (fun ev => is_close ev = false) pre ->
  let sv' := run rid (pre ++ [ChildClose code signal completedAt FsOk uuid]) sv in
  exists entry,
    logFile sv' = logFile sv ++ [entry] /\
    log_requestId entry = rid /\
    log_request entry = request op /\
    log_mode entry = executionMode (request op) /\
    log_timestamp entry = startedAt op /\
    log_exitCode entry = code /\
    log_completedAt entry = completedAt /\
    log_durationMs entry = completedAt - startedAt op /\
    log_stdoutLength entry = total_length (stdout op ++ stdout_of pre) /\
    log_stderrLength entry = total_length (stderr op ++ stderr_of pre) /\
    log_affectedMailboxes entry =
      affectedMailboxes (join EmptyString (stdout op ++ stdout_of pre)).
Proof.
  intros Hop Hpre. cbv zeta.
  destruct (run_closure affectedMailboxes rid pre sv op Hpre Hop)
    as (op' & Hop' & Hreq & Hstart & Hout & Herr & _ & Hlog).
  unfold ExchangeRoutes.run in *. rewrite fold_left_app. cbn [fold_left].
  unfold ExchangeRoutes.handle at 1. rewrite Hop'.
  exists (stamp uuid (assemble affectedMailboxes rid op' code signal completedAt)).
  split.
  { unfold ExchangeRoutes.onClose, appendLogEntry.
    destruct (wantsStream (context op')); simpl; by rewrite Hlog. }
  unfold stamp, assemble. simpl. rewrite !join_empty_length, Hreq, Hstart, Hout, Herr.
  by repeat split.
Qed.

End PurgeMore.


(* ===================================================================== *)
(** * The further properties on the sample data *)
(* ===================================================================== *)

Section SampleRunsMore.
Import Js ExchangeService Trace.

(** The quote of [say "hi"] at index 5 of the escaped text has a
    backslash in front. *)
Lemma escapeValue_quotes_escaped_witness :
  String.get 5 (QueryBuilder.escapeValue Fixtures.quoting) = Some dquote /\
  exists m, 5%nat = S m /\
            String.get m (QueryBuilder.escapeValue Fixtures.quoting) = Some backslash.
Proof.
  assert (H : String.get 5 (QueryBuilder.escapeValue Fixtures.quoting) = Some dquote)
    by reflexivity.
  split; [exact H|]. exact (escapeValue_quotes_escaped Fixtures.quoting 5 H).
Defined.

Lemma escapeValue_injective_witness :
  QueryBuilder.escapeValue Fixtures.quoting = QueryBuilder.escapeValue Fixtures.quoting /\
  Fixtures.quoting = Fixtures.quoting.
Proof.
  assert (H : QueryBuilder.escapeValue Fixtures.quoting =
              QueryBuilder.escapeValue Fixtures.quoting) by reflexivity.
  split; [exact H|]. exact (escapeValue_injective Fixtures.quoting Fixtures.quoting H).
Defined.

(** The three records scanned for [a@x.com] are tagged with that mailbox
    and the folder name. *)
Lemma findItemsInFolder_tagged_witness :
  exists out svc',
    findItemsInFolder unit Sample.endpoint Sample.config 3 Sample.inbox "q" 3
      "a@x.com" Sample.no_context (Sample.as_mailbox "a@x.com") = (Resolved out, svc') /\
    length out = 3%nat /\
    Forall (tagged "a@x.com" "Inbox") out.
Proof.
  assert (E : exists out svc',
             findItemsInFolder unit Sample.endpoint Sample.config 3 Sample.inbox "q" 3
               "a@x.com" Sample.no_context (Sample.as_mailbox "a@x.com") =
             (Resolved out, svc') /\ length out = 3%nat)
    by (vm_compute; eexists; eexists; split; reflexivity).
  destruct E as (out & svc' & E & Hlen). exists out, svc'.
  split; [exact E|]. split; [exact Hlen|].
  exact (findItemsInFolder_tagged Sample.endpoint Sample.config 3 Sample.inbox "q" 3
           "a@x.com" Sample.no_context (Sample.as_mailbox "a@x.com") out svc' E).
Defined.

(** A refused scan is reported as a 502 that names the mailbox and the
    folder. *)
Lemma findItemsInFolder_error_context_witness :
  exists e svc',
    findItemsInFolder unit Fixtures.failing Sample.config 3 Sample.inbox "q" 3
      "a@x.com" Sample.no_context (Sample.as_mailbox "a@x.com") = (Rejected e, svc') /\
    status e = Some 502 /\ ("mailbox", "a@x.com") ∈ details e /\
    ("folder", "Inbox") ∈ details e.
Proof.
  assert (E : exists e svc',
             findItemsInFolder unit Fixtures.failing Sample.config 3 Sample.inbox "q" 3
               "a@x.com" Sample.no_context (Sample.as_mailbox "a@x.com") =
             (Rejected e, svc'))
    by (vm_compute; eexists; eexists; reflexivity).
  destruct E as (e & svc' & E). exists e, svc'. split; [exact E|].
  destruct (findItemsInFolder_error_context Fixtures.failing Sample.config 3 Sample.inbox "q" 3
              "a@x.com" Sample.no_context (Sample.as_mailbox "a@x.com") e svc' E)
    as (Hs & _ & _ & Hm & Hf).
  split; [exact Hs|]. split; [exact Hm | exact Hf].
Defined.

(** A live delete of [a@x.com]: the scans, then one delete call. *)
Lemma deleteForMailbox_protocol_witness :
  0 <= 50 /\
  exists scans deletes,
    (deleteForMailbox unit Sample.endpoint Sample.config 5 (Sample.entry "a@x.com")
       [Sample.inbox] "q" 50 (JsNumber 1) false Sample.no_context).2 = scans ++ deletes /\
    Forall (scan_call (Some "a@x.com") [JsNumber 4] "q" 50 (pageSize Sample.config)) scans /\
    deletes <> [].
Proof.
  assert (H : 0 <= 50) by lia. split; [exact H|].
  destruct (deleteForMailbox_protocol Sample.endpoint Sample.config 5 (Sample.entry "a@x.com")
              [Sample.inbox] "q" 50 (JsNumber 1) false Sample.no_context H)
    as (scans & deletes & Hcs & Hscans & _ & Hres).
  exists scans, deletes. split; [exact Hcs|]. split; [exact Hscans|].
  assert (E : exists res,
             (deleteForMailbox unit Sample.endpoint Sample.config 5 (Sample.entry "a@x.com")
                [Sample.inbox] "q" 50 (JsNumber 1) false Sample.no_context).1 = Resolved res /\
             dfm_matches res <> [])
    by (vm_compute; eexists; split; [reflexivity|discriminate]).
  destruct E as (res & E & Hne).
  exact (proj2 (proj2 (Hres res E)) eq_refl Hne).
Defined.

(** The sample search: two mailboxes with matches, one failure, four
    mailboxes scanned. *)
Lemma searchMessages_outcomes_witness :
  exists agg mailboxes,
    (Sample.searchMessages 5 (Sample.request None None) Sample.no_context).1 = Resolved agg /\
    Forall (success_of mailboxes ["Inbox"] 50) (results agg) /\
    Forall (failure_of mailboxes) (failures agg) /\
    length (results agg) = 2%nat /\ length (failures agg) = 1%nat /\
    totalMailboxesScanned (summary agg) = 4.
Proof.
  assert (E : exists agg,
             (Sample.searchMessages 5 (Sample.request None None) Sample.no_context).1 =
             Resolved agg /\ length (results agg) = 2%nat /\ length (failures agg) = 1%nat /\
             totalMailboxesScanned (summary agg) = 4)
    by (vm_compute; eexists; repeat split; reflexivity).
  destruct E as (agg & E & H2 & H1 & H4).
  destruct (searchMessages_outcomes Sample.endpoint Sample.config
              Sample.WellKnownFolderName_value Sample.localeCompare Sample.Date_parse
              Sample.toISOString 5 (Sample.request None None) Sample.no_context agg E)
    as (mailboxes & fds & _ & Hfds & _ & Hsucc & Hfail & _).
  assert (Hfolders : resolveFolders Sample.config Sample.WellKnownFolderName_value
                       (f_folders (Sample.request None None)) = inr [Sample.inbox])
    by (vm_compute; reflexivity).
  rewrite Hfolders in Hfds. injection Hfds as <-.
  exists agg, mailboxes. split; [exact E|]. split; [exact Hsucc|]. split; [exact Hfail|].
  split; [exact H2|]. split; [exact H1 | exact H4].
Defined.

(** The sample live delete: as many deleted as matched. *)
Lemma deleteMessages_outcomes_witness :
  exists agg,
    (Sample.deleteMessages 5 (Sample.request (Some false) None) Sample.no_context).1 =
      Resolved agg /\
    Forall (delete_report false) (results agg) /\
    totalDeleted (summary agg) = d_totalMatches (summary agg) /\
    simulate (summary agg) = false.
Proof.
  assert (E : exists agg,
             (Sample.deleteMessages 5 (Sample.request (Some false) None) Sample.no_context).1 =
             Resolved agg)
    by (vm_compute; eexists; reflexivity).
  destruct E as (agg & E).
  destruct (deleteMessages_outcomes Sample.endpoint Sample.config Sample.DeleteMode_value
              Sample.WellKnownFolderName_value Sample.localeCompare Sample.Date_parse
              Sample.toISOString 5 (Sample.request (Some false) None) Sample.no_context agg E)
    as (mailboxes & fds & _ & _ & _ & Hrep & _ & _ & _ & _ & Hdel & Hsim & _).
  exists agg. split; [exact E|]. split; [exact Hrep|]. split; [exact Hdel | exact Hsim].
Defined.

(** Without a password both requests are rejected with status 500 and
    send nothing. *)
Lemma unconfigured_requests_send_nothing_witness :
  truthy (password Fixtures.unconfigured) = false /\
  exists e, status e = Some 500 /\
    searchMessages unit Sample.endpoint Fixtures.unconfigured Sample.WellKnownFolderName_value
      Sample.localeCompare Sample.Date_parse Sample.toISOString
      5 (Sample.request None None) Sample.no_context = (Rejected e, []) /\
    deleteMessages unit Sample.endpoint Fixtures.unconfigured Sample.DeleteMode_value
      Sample.WellKnownFolderName_value Sample.localeCompare Sample.Date_parse
      Sample.toISOString 5 (Sample.request (Some false) None) Sample.no_context =
      (Rejected e, []).
Proof.
  assert (H : truthy (password Fixtures.unconfigured) = false) by reflexivity.
  split; [exact H|].
  destruct (unconfigured_requests_send_nothing Sample.endpoint Fixtures.unconfigured
              Sample.DeleteMode_value Sample.WellKnownFolderName_value Sample.localeCompare
              Sample.Date_parse Sample.toISOString (or_intror (or_introl H)))
    as (e & Hs & _ & Hall).
  exists e. split; [exact Hs|]. split.
  - exact (proj1 (Hall 5%nat (Sample.request None None) Sample.no_context)).
  - exact (proj2 (Hall 5%nat (Sample.request (Some false) None) Sample.no_context)).
Defined.

(** With the numeric value zero for hard delete, a request for
    [HardDelete] runs and reports as a soft delete. *)
Lemma deleteMode_known_witness :
  Sample.DeleteMode_value HardDelete = 0 /\
  resolveDeleteMode Sample.DeleteMode_value "HardDelete" = (JsNumber 1, "softdelete") /\
  resolveDeleteMode Sample.DeleteMode_value "MoveToDeletedItems" =
    (JsNumber 2, "movetodeleteditems").
Proof.
  split; [reflexivity|]. split.
  - apply (deleteMode_known Sample.DeleteMode_value "HardDelete" HardDelete).
    apply elem_of_cons; right. apply elem_of_cons; right. apply elem_of_cons; left.
    reflexivity.
  - apply (deleteMode_known Sample.DeleteMode_value "MoveToDeletedItems" MoveToDeletedItems).
    apply elem_of_cons; right. apply elem_of_cons; left. reflexivity.
Defined.

(** The sample delete body passes the delete schema; the payload has the
    sender and [simulate] set to [true]. *)
Lemma validated_payload_witness :
  exists p,
    ExchangeRoutes.validate Sample.is_email Sample.iso_date Sample.to_number Sample.to_boolean
      ExchangeRoutes.deleteSchema Sample.sender_only = ExchangeRoutes.Accepted p /\
    truthy (ExchangeRoutes.p_sender p) = true /\
    ExchangeRoutes.p_simulate p = Some true.
Proof.
  assert (E : exists p,
             ExchangeRoutes.validate Sample.is_email Sample.iso_date Sample.to_number
               Sample.to_boolean ExchangeRoutes.deleteSchema Sample.sender_only =
             ExchangeRoutes.Accepted p /\ ExchangeRoutes.p_simulate p = Some true)
    by (vm_compute; eexists; split; reflexivity).
  destruct E as (p & E & Hsim). exists p. split; [exact E|]. split; [|exact Hsim].
  exact (proj1 (proj2 (validated_payload Sample.is_email Sample.iso_date Sample.to_number
                         Sample.to_boolean ExchangeRoutes.deleteSchema Sample.sender_only p E))
           eq_refl).
Defined.

(** A live delete through the route on the sample deployment: soft
    delete is what is reported. *)
Lemma post_delete_guarded_witness :
  exists data,
    (Api.post_delete unit Sample.endpoint Sample.config Sample.DeleteMode_value
       Sample.WellKnownFolderName_value Sample.localeCompare Sample.Date_parse
       Sample.toISOString Sample.is_email Sample.iso_date Sample.to_number Sample.to_boolean
       5 "req-1" Fixtures.live_delete).1 = Api.Replied data /\
    mode (summary data) = "softdelete" /\
    query data <> Some QueryBuilder.DEFAULT_QUERY.
Proof.
  assert (E : exists data,
             (Api.post_delete unit Sample.endpoint Sample.config Sample.DeleteMode_value
                Sample.WellKnownFolderName_value Sample.localeCompare Sample.Date_parse
                Sample.toISOString Sample.is_email Sample.iso_date Sample.to_number
                Sample.to_boolean 5 "req-1" Fixtures.live_delete).1 = Api.Replied data)
    by (vm_compute; eexists; reflexivity).
  destruct E as (data & E). exists data. split; [exact E|].
  exact (proj2 (proj2 (post_delete_guarded Sample.endpoint Sample.config
                         Sample.DeleteMode_value Sample.WellKnownFolderName_value
                         Sample.localeCompare Sample.Date_parse Sample.toISOString
                         Sample.is_email Sample.iso_date Sample.to_number Sample.to_boolean
                         5 "req-1" Fixtures.live_delete)) data E).
Defined.

(** A body whose dates are out of order is rejected by both schemas. *)
Lemma schemas_primary_filter_witness :
  Sample.accepts ExchangeRoutes.filterBaseSchema Fixtures.backwards = false /\
  Sample.accepts ExchangeRoutes.deleteSchema Fixtures.backwards = false /\
  (Sample.accepts ExchangeRoutes.filterBaseSchema Sample.subject_only = true <->
   is_Some (ExchangeRoutes.sender Sample.subject_only) \/
   is_Some (ExchangeRoutes.subject Sample.subject_only)).
Proof.
  destruct (schemas_primary_filter Sample.is_email Sample.iso_date Sample.to_number
              Sample.to_boolean Fixtures.backwards) as (_ & _ & Horder).
  destruct (schemas_primary_filter Sample.is_email Sample.iso_date Sample.to_number
              Sample.to_boolean Sample.subject_only) as (Hiff & _).
  assert (Hlt : 1704067200000 < 1706745600000) by lia.
  split; [|split].
  - exact (Horder ExchangeRoutes.filterBaseSchema _ _ _ _ eq_refl eq_refl eq_refl eq_refl Hlt).
  - exact (Horder ExchangeRoutes.deleteSchema _ _ _ _ eq_refl eq_refl eq_refl eq_refl Hlt).
  - exact (Hiff sample_subject_only_well_formed).
Defined.

(** Folder names on the sample deployment: any letter case, and an
    unknown name. *)
Lemma ensureFolder_supported_witness :
  ensureFolder Sample.WellKnownFolderName_value "INBOX" =
    inr {| name := "INBOX"; folderId := JsNumber 4 |} /\
  ensureFolder Sample.WellKnownFolderName_value "Outbox" =
    inl {| status := Some 400; message := "Unsupported folder specified: Outbox";
           details := []; expose := true |}.
Proof.
  split.
  - apply (proj1 (ensureFolder_supported Sample.WellKnownFolderName_value "INBOX") Inbox).
    apply elem_of_cons; left. reflexivity.
  - apply (proj2 (ensureFolder_supported Sample.WellKnownFolderName_value "Outbox")).
    apply (bool_decide_unpack _). vm_compute. exact I.
Defined.

(** Three entries in the file; the one appended last is the newest and
    is read back first. *)
Lemma appended_entry_is_read_first_witness :
  Forall (fun x => ExchangeRoutes.log_timestamp x <
                   ExchangeRoutes.log_timestamp (Fixtures.logged 3000))
    [Fixtures.logged 2000; Fixtures.logged 1000] /\
  exists record older,
    ExchangeRoutes.appendLogEntry ExchangeRoutes.FsOk "u-3" (Fixtures.logged 3000)
      [Fixtures.logged 2000; Fixtures.logged 1000] =
      (Some record, [Fixtures.logged 2000; Fixtures.logged 1000] ++ [record]) /\
    LogStore.get_purge_logs
      (LogStore.written ([Fixtures.logged 2000; Fixtures.logged 1000] ++ [record])) =
      Some (record :: older).
Proof.
  assert (H : Forall (fun x => ExchangeRoutes.log_timestamp x <
                               ExchangeRoutes.log_timestamp (Fixtures.logged 3000))
                [Fixtures.logged 2000; Fixtures.logged 1000]).
  { repeat constructor; simpl; lia. }
  split; [exact H|].
  destruct (appended_entry_is_read_first "u-3" (Fixtures.logged 3000)
              [Fixtures.logged 2000; Fixtures.logged 1000] H)
    as (record & Happend & _ & _ & (older & Hread) & _).
  exists record, older. split; [exact Happend | exact Hread].
Defined.

(** After the cancel request of [req-2] the sample operation stays
    cancelled for [user_requested], whatever happens next. *)
Lemma cancellation_is_sticky_witness :
  exists op op',
    ExchangeRoutes.operations Fixtures.cancelling !! "op-1" = Some op /\
    PurgeTrace.cancelled_for "user_requested" op /\
    ExchangeRoutes.operations
      (Sample.run "op-1"
         [ExchangeRoutes.RequestClosed ExchangeRoutes.KillTrue;
          ExchangeRoutes.CancelRequest "req-3" "op-1" ExchangeRoutes.KillFalse;
          ExchangeRoutes.Exited (Some 1)]
         Fixtures.cancelling) !! "op-1" = Some op' /\
    PurgeTrace.cancelled_for "user_requested" op'.
Proof.
  assert (E : exists op,
             ExchangeRoutes.operations Fixtures.cancelling !! "op-1" = Some op /\
             PurgeTrace.cancelled_for "user_requested" op).
  { vm_compute. eexists. split; [reflexivity|]. split; [reflexivity|].
    split; [reflexivity|discriminate]. }
  destruct E as (op & Hop & Hfor).
  destruct (cancellation_is_sticky Sample.affected "op-1"
              [ExchangeRoutes.RequestClosed ExchangeRoutes.KillTrue;
               ExchangeRoutes.CancelRequest "req-3" "op-1" ExchangeRoutes.KillFalse;
               ExchangeRoutes.Exited (Some 1)]
              Fixtures.cancelling "op-1" op "user_requested" Hop Hfor)
    as (op' & Hop' & Hfor').
  exists op, op'. split; [exact Hop|]. split; [exact Hfor|]. split; [exact Hop' | exact Hfor'].
Defined.

(** Two chunks of output, then the close: the entry counts their
    lengths and the duration. *)
Lemma purge_log_accounts_for_run_witness :
  exists op entry,
    ExchangeRoutes.operations Sample.spawned !! "op-1" = Some op /\
    ExchangeRoutes.logFile
      (Sample.run "op-1"
         ([ExchangeRoutes.Stdout "[INFO] started"; ExchangeRoutes.Stderr "warning";
           ExchangeRoutes.Stdout "done"; ExchangeRoutes.Exited (Some 0)] ++
          [ExchangeRoutes.ChildClose (Some 0) None 2000 ExchangeRoutes.FsOk "u-1"])
         Sample.spawned) = ExchangeRoutes.logFile Sample.spawned ++ [entry] /\
    ExchangeRoutes.log_stdoutLength entry = 18%nat /\
    ExchangeRoutes.log_stderrLength entry = 7%nat /\
    ExchangeRoutes.log_durationMs entry = 1000.
Proof.
  assert (E : exists op, ExchangeRoutes.operations Sample.spawned !! "op-1" = Some op /\
                         ExchangeRoutes.stdout op = [] /\ ExchangeRoutes.stderr op = [] /\
                         ExchangeRoutes.startedAt op = 1000)
    by (vm_compute; eexists; repeat split; reflexivity).
  destruct E as (op & Hop & Hout & Herr & Hstart).
  assert (Hpre : Forall (fun ev => ExchangeRoutes.is_close ev = false)
                   [ExchangeRoutes.Stdout "[INFO] started"; ExchangeRoutes.Stderr "warning";
                    ExchangeRoutes.Stdout "done"; ExchangeRoutes.Exited (Some 0)])
    by (repeat constructor).
  destruct (purge_log_accounts_for_run Sample.affected "op-1"
              [ExchangeRoutes.Stdout "[INFO] started"; ExchangeRoutes.Stderr "warning";
               ExchangeRoutes.Stdout "done"; ExchangeRoutes.Exited (Some 0)]
              (Some 0) None 2000 "u-1" Sample.spawned op Hop Hpre)
    as (entry & Hlog & _ & _ & _ & _ & _ & _ & Hdur & Hso & Hse & _).
  exists op, entry. split; [exact Hop|]. split; [exact Hlog|].
  rewrite Hout in Hso. rewrite Herr in Hse. rewrite Hstart in Hdur.
  split; [exact Hso|]. split; [exact Hse | exact Hdur].
Defined.


(** A search on the deployment without a password: the client is told
    why, with status 500. *)
Lemma request_errors_are_reported_witness :
  exists e,
    (Api.post_search unit Sample.endpoint Fixtures.unconfigured
       Sample.WellKnownFolderName_value Sample.localeCompare Sample.Date_parse
       Sample.toISOString Sample.is_email Sample.iso_date Sample.to_number Sample.to_boolean
       5 "req-1" Sample.sender_only).1 = Api.Failed e /\
    Api.errorHandler "req-1" e =
      {| Api.http := 500; Api.answer_message := "EWS credentials are not configured";
         Api.answer_status := 500; Api.answer_requestId := "req-1" |}.
Proof.
  assert (E : exists e,
             (Api.post_search unit Sample.endpoint Fixtures.unconfigured
                Sample.WellKnownFolderName_value Sample.localeCompare Sample.Date_parse
                Sample.toISOString Sample.is_email Sample.iso_date Sample.to_number
                Sample.to_boolean 5 "req-1" Sample.sender_only).1 = Api.Failed e /\
             status e = Some 500 /\ message e = "EWS credentials are not configured")
    by (vm_compute; eexists; repeat split; reflexivity).
  destruct E as (e & E & Hs & Hm). exists e. split; [exact E|].
  destruct (request_errors_are_reported Sample.endpoint Fixtures.unconfigured
              Sample.DeleteMode_value Sample.WellKnownFolderName_value Sample.localeCompare
              Sample.Date_parse Sample.toISOString Sample.is_email Sample.iso_date
              Sample.to_number Sample.to_boolean 5 "req-1" Sample.sender_only e (or_introl E))
    as (s & _ & Hs' & _ & Hanswer).
  rewrite Hs in Hs'. injection Hs' as <-. rewrite Hm in Hanswer. exact Hanswer.
Defined.
End SampleRunsMore.
